(** * A UTXO ledger indexer: the chain state engine

    Shallow embedding of the block validator ([routes/blocks.ts]), the state
    mutator and the block list (same file), the rewinder
    ([routes/rollback.ts]), the reset route
    ([routes/additionalFunction.ts]), the balance query
    ([routes/balance.ts]) and the relational schema ([db/schema]), followed
    by the properties of the engine.

    Conventions of the embedding.
    - JavaScript numbers that the engine treats as integers (heights, output
      values, output indices) are [Z], which is what doubles compute below
      2^53; the rollback target, which comes out
      of [Number(...)] and may be [NaN], infinite or fractional, has its own
      type [number].
    - [state.utxos] (a [Map<string, Output>]) is a [gmap string Output].
    - [state.balances] is a plain object (the literal [{}], whose prototype
      is [Object.prototype]).  It is the [gmap string jsval] of its own
      properties, read through [obj_get] and written through [obj_set]: the
      key ["__proto__"] reads the prototype and stores nothing, and the
      names of the functions of [Object.prototype] read a function as long
      as the object has no property of its own under them.  The values are
      what the handlers put there at run time, whatever the declared type
      [Record<string, number>]: numbers, the text that the driver returns
      for the [bigint] of [SUM(value)], and what [+] and [-] make of these.
    - The PostgreSQL tables are finite maps keyed by their primary key
      ([inputs], whose key is a serial, is a list of rows).  A statement
      fails on a primary-key, unique or foreign-key violation, on a
      parameter that its column refuses (for [INTEGER]: a text that is not
      that of a 32-bit integer; for [TEXT]: a string that holds the
      character NUL), or because the connection fails.  The strings of a
      request are checked where they are bound to a [TEXT] parameter; a
      text that a statement reads back from the store is one the store
      took, and is bound as it is.  The limit that PostgreSQL puts on the
      size of an index row (a key of several kilobytes is refused) is left
      out: ids and addresses are taken to be short.  No handler opens a
      transaction: each statement that succeeded stays applied.
    - [Object.entries(state.balances)] and the rows of a [SELECT] come in
      the order of [map_to_list]; the statements issued for them touch
      distinct rows, and the properties below that speak of their order
      hold of any enumeration. *)

From Stdlib Require Import ZArith QArith Ascii String List.
From stdpp Require Import gmap strings list fin_maps pretty sorting.

Local Open Scope Z_scope.
Local Open Scope string_scope.
Local Open Scope list_scope.

(** ** Data model ([interfaces.ts]) *)

Record Output := { address : string; value : Z }.
Record Input := { txId : string; index : Z }.
Record Transaction :=
  { tx_id : string; tx_inputs : list Input; tx_outputs : list Output }.
Record Block :=
  { blk_id : string; blk_height : Z; blk_transactions : list Transaction }.

(** ** Values of the properties of [state.balances]

    A number; [NaN]; a string (the driver hands the aggregate of a rollback
    over as decimal text, and [+] appends the decimal form of a number to a
    text); or the text of the function [f] of [Object.prototype] followed
    by a string, which is what [+] makes of an inherited function. *)
Inductive jsval :=
| VNum (n : Z)
| VNaN
| VStr (s : string)
| VNative (f tail : string).

#[global] Instance jsval_eq_dec : EqDecision jsval.
Proof. solve_decision. Defined.

Record AppState := {
  blocks : list Block;
  currentHeight : Z;
  balances : gmap string jsval;
  utxos : gmap string Output
}.

(** The state literal of [index.ts], which is also what [reset()] leaves. *)
Definition init_state : AppState :=
  {| blocks := []; currentHeight := 0; balances := ∅; utxos := ∅ |}.

#[global] Instance Output_eq_dec : EqDecision Output.
Proof. solve_decision. Defined.
#[global] Instance Input_eq_dec : EqDecision Input.
Proof. solve_decision. Defined.
#[global] Instance Transaction_eq_dec : EqDecision Transaction.
Proof. solve_decision. Defined.
#[global] Instance Block_eq_dec : EqDecision Block.
Proof. solve_decision. Defined.

(** [`${txId}:${index}`]: the key of an output in [state.utxos]. *)
Definition utxo_key (txid : string) (idx : Z) : string :=
  txid +:+ ":" +:+ pretty idx.

(** ** Property access on a plain object *)

(** The function-valued properties of [Object.prototype]. *)
Definition prototype_functions : list string :=
  ["constructor"; "__defineGetter__"; "__defineSetter__"; "hasOwnProperty";
   "__lookupGetter__"; "__lookupSetter__"; "isPrototypeOf";
   "propertyIsEnumerable"; "toString"; "valueOf"; "toLocaleString"].

(** What [balances[a]] evaluates to. *)
Inductive Slot :=
| Own (v : jsval)          (* a property of the object itself *)
| Inherited (f : string)   (* the function [Object.prototype[f]] *)
| Prototype                (* [Object.prototype], through the accessor [__proto__] *)
| Undefined.

(** [balances[a]] *)
Definition obj_get (bal : gmap string jsval) (a : string) : Slot :=
  if bool_decide (a = "__proto__") then Prototype
  else match bal !! a with
       | Some v => Own v
       | None =>
           if bool_decide (a ∈ prototype_functions) then Inherited a
           else Undefined
       end.

(** [balances[a] = v], for a [v] that is a number or a string: the setter of
    [__proto__] ignores it; any other key becomes a property of the
    object. *)
Definition obj_set (bal : gmap string jsval) (a : string) (v : jsval)
    : gmap string jsval :=
  if bool_decide (a = "__proto__") then bal else <[a := v]> bal.

(** [x || 0]: [undefined], [0], [NaN] and the empty string are falsy. *)
Definition or_zero (x : Slot) : Slot :=
  match x with
  | Undefined | Own (VNum 0) | Own VNaN | Own (VStr "") => Own (VNum 0)
  | _ => x
  end.

Definition digit (c : ascii) : option Z :=
  let n := Z.of_N (N_of_ascii c) in
  if bool_decide (48 <= n <= 57) then Some (n - 48) else None.

Fixpoint digits (s : string) (acc : Z) : option Z :=
  match s with
  | EmptyString => Some acc
  | String c s' =>
      match digit c with
      | Some d => digits s' (10 * acc + d)
      | None => None
      end
  end.

(** The integer that a text denotes: an optional minus sign, then one or
    more decimal digits. *)
Definition parse_int (s : string) : option Z :=
  match s with
  | EmptyString => None
  | String c s' =>
      if Ascii.eqb c "-"
      then match s' with
           | EmptyString => None
           | _ => Z.opp <$> digits s' 0
           end
      else digits s 0
  end.

(** [Number(s)], for the texts that the handlers build (decimal digits and
    minus signs): the empty text is 0, a text that is not an integer is
    [NaN]. *)
Definition to_number (s : string) : jsval :=
  if bool_decide (s = "") then VNum 0
  else match parse_int s with Some z => VNum z | None => VNaN end.

(** [x + n], [n] a number: addition on numbers; on a text, on a function and
    on an object the number is appended to the text of [x]. *)
Definition js_add (x : Slot) (n : Z) : jsval :=
  match x with
  | Own (VNum m) => VNum (m + n)
  | Own VNaN | Undefined => VNaN
  | Own (VStr s) => VStr (s +:+ pretty n)
  | Own (VNative f tail) => VNative f (tail +:+ pretty n)
  | Inherited f => VNative f (pretty n)
  | Prototype => VStr ("[object Object]" +:+ pretty n)
  end.

(** [x - n]: both sides are converted to numbers. *)
Definition js_sub (x : Slot) (n : Z) : jsval :=
  match x with
  | Own (VNum m) => VNum (m - n)
  | Own (VStr s) =>
      match to_number s with VNum m => VNum (m - n) | _ => VNaN end
  | _ => VNaN
  end.

(** [balances[a] = (balances[a] || 0) + n] *)
Definition credit (bal : gmap string jsval) (a : string) (n : Z)
    : gmap string jsval :=
  obj_set bal a (js_add (or_zero (obj_get bal a)) n).

(** [balances[a] = (balances[a] || 0) - n] *)
Definition debit (bal : gmap string jsval) (a : string) (n : Z)
    : gmap string jsval :=
  obj_set bal a (js_sub (or_zero (obj_get bal a)) n).

(** ** SHA-256 ([createHash('sha256').update(s).digest('hex')]) *)

Module SHA256.

Definition w32 (x : Z) : Z := Z.land x 0xffffffff.
Definition add32 (a b : Z) : Z := w32 (a + b).
Definition rotr (n x : Z) : Z :=
  Z.lor (Z.shiftr x n) (w32 (Z.shiftl x (32 - n))).
Definition not32 (x : Z) : Z := Z.lxor x 0xffffffff.

Definition Ch (x y z : Z) : Z := Z.lxor (Z.land x y) (Z.land (not32 x) z).
Definition Maj (x y z : Z) : Z :=
  Z.lxor (Z.lxor (Z.land x y) (Z.land x z)) (Z.land y z).
Definition bsig0 (x : Z) : Z := Z.lxor (Z.lxor (rotr 2 x) (rotr 13 x)) (rotr 22 x).
Definition bsig1 (x : Z) : Z := Z.lxor (Z.lxor (rotr 6 x) (rotr 11 x)) (rotr 25 x).
Definition ssig0 (x : Z) : Z := Z.lxor (Z.lxor (rotr 7 x) (rotr 18 x)) (Z.shiftr x 3).
Definition ssig1 (x : Z) : Z := Z.lxor (Z.lxor (rotr 17 x) (rotr 19 x)) (Z.shiftr x 10).

(** The round constants and the initial hash value are the first 32 bits of
    the fractional parts of the cube roots of the first 64 primes, and of the
    square roots of the first 8. *)
Definition is_prime (n : Z) : bool :=
  forallb (fun d => negb (Z.eqb (n mod d) 0)) (seqZ 2 (n - 2)).

Definition primes : list Z := filter (fun n => is_prime n = true) (seqZ 2 310).

Fixpoint cbrt_bits (bits : nat) (n r : Z) : Z :=
  match bits with
  | O => r
  | S b =>
      let r' := r + 2 ^ Z.of_nat b in
      if Z.leb (r' * r' * r') n then cbrt_bits b n r' else cbrt_bits b n r
  end.

Definition K : list Z :=
  Eval vm_compute in
    map (fun p => (cbrt_bits 36 (p * 2 ^ 96) 0) mod 2 ^ 32) primes.

Definition H0 : list Z :=
  Eval vm_compute in
    map (fun p => Z.sqrt (p * 2 ^ 64) mod 2 ^ 32) (firstn 8 primes).

(** The bytes of the message (one byte per character of the string). *)
Definition bytes_of (s : string) : list Z :=
  map (fun c => Z.of_N (N_of_ascii c)) (list_ascii_of_string s).

Definition be_bytes (n : nat) (x : Z) : list Z :=
  map (fun i => Z.land (Z.shiftr x (8 * Z.of_nat i)) 0xff) (rev (seq 0 n)).

(** Padding: a 1 bit, zeros up to 56 mod 64 bytes, the bit length on 8 bytes. *)
Definition pad (msg : list Z) : list Z :=
  let len := Z.of_nat (length msg) in
  msg ++ [0x80] ++ repeat 0 (Z.to_nat ((55 - len) mod 64)) ++ be_bytes 8 (8 * len).

Fixpoint words_of (bs : list Z) : list Z :=
  match bs with
  | b0 :: b1 :: b2 :: b3 :: rest =>
      (Z.shiftl b0 24 + Z.shiftl b1 16 + Z.shiftl b2 8 + b3) :: words_of rest
  | _ => []
  end.

Fixpoint chunks (fuel : nat) (ws : list Z) : list (list Z) :=
  match fuel, ws with
  | S fuel', _ :: _ => firstn 16 ws :: chunks fuel' (skipn 16 ws)
  | _, _ => []
  end.

(** Message schedule; the list holds W(t-1), W(t-2), ... newest first. *)
Fixpoint schedule (n : nat) (rw : list Z) : list Z :=
  match n with
  | O => rw
  | S n' =>
      let w := add32 (add32 (ssig1 (nth 1 rw 0)) (nth 6 rw 0))
                     (add32 (ssig0 (nth 14 rw 0)) (nth 15 rw 0)) in
      schedule n' (w :: rw)
  end.

Definition round (st : list Z) (kw : Z * Z) : list Z :=
  match st with
  | [a; b; c; d; e; f; g; h] =>
      let t1 := add32 (add32 (add32 h (bsig1 e)) (add32 (Ch e f g) (fst kw))) (snd kw) in
      let t2 := add32 (bsig0 a) (Maj a b c) in
      [add32 t1 t2; a; b; c; add32 d t1; e; f; g]
  | _ => st
  end.

Definition compress (h : list Z) (chunk : list Z) : list Z :=
  let w := rev (schedule 48 (rev chunk)) in
  let st := fold_left round (combine K w) h in
  map (fun p => add32 (fst p) (snd p)) (combine h st).

Definition hex_digit (x : Z) : ascii :=
  match x with
  | 0 => "0" | 1 => "1" | 2 => "2" | 3 => "3" | 4 => "4" | 5 => "5"
  | 6 => "6" | 7 => "7" | 8 => "8" | 9 => "9" | 10 => "a" | 11 => "b"
  | 12 => "c" | 13 => "d" | 14 => "e" | _ => "f"
  end%char.

Definition hex_byte (b : Z) : string :=
  String (hex_digit (Z.shiftr b 4)) (String (hex_digit (Z.land b 0xf)) EmptyString).

Definition digest (s : string) : list Z :=
  let ws := words_of (pad (bytes_of s)) in
  fold_left compress (chunks (length ws) ws) H0.

Definition hex (s : string) : string :=
  String.concat "" (map hex_byte (flat_map (be_bytes 4) (digest s))).

End SHA256.

Definition sha256_hex : string -> string := SHA256.hex.

(** ** Replies of the handlers

    One constructor per reply; the comment gives the status and the [error]
    or [status] text of the source. *)

Inductive Reply :=
| BlockAccepted (height : Z)          (* 200 'Block accepted' *)
| FirstBlockHeight                    (* 400 'First block must have height = 1' *)
| InvalidBlockHeight                  (* 400 'Invalid block height' *)
| InputNotFound (utxoKey : string)    (* 400 `Input not found: ${utxoKey}` *)
| ValueMismatch                       (* 400 'Input and output values do not match' *)
| InvalidBlockId (expected received hashInput : string)
                                      (* 400 'Invalid block id' *)
| DatabaseError                       (* 500 'Database error' *)
| RollbackSuccessful (height : Z)     (* 200 'Rollback successful' *)
| InvalidHeightParam                  (* 400 'Invalid height parameter' *)
| TargetAboveHead                     (* 400 'Target height cannot be greater than current height' *)
| RollbackFailed                      (* 500 'Rollback failed' *)
| ResetSuccessful (currentHeight blocksCount utxosCount balancesCount : Z)
                                      (* 200 'Reset successful' *)
| ResetFailed.                        (* 500 'Reset failed' *)

#[global] Instance Reply_eq_dec : EqDecision Reply.
Proof. solve_decision. Defined.

(** The two height messages are one error kind, [InvalidHeight]. *)
Definition InvalidHeight (r : Reply) : Prop :=
  r = FirstBlockHeight \/ r = InvalidBlockHeight.

(** ** Block validator ([routes/blocks.ts], lines 11-54) *)

(** Lines 12-18. *)
Definition check_height (s : AppState) (block : Block) : option Reply :=
  if bool_decide (currentHeight s = 0) then
    if bool_decide (blk_height block ≠ 1) then Some FirstBlockHeight else None
  else if bool_decide (blk_height block ≠ currentHeight s + 1)
       then Some InvalidBlockHeight
  else None.

(** Lines 25-32: the loop over the inputs of one transaction; it returns
    the missing key, or the sum of the values looked up. *)
Fixpoint sum_inputs (utxos : gmap string Output) (ins : list Input)
    (sumInputs : Z) : string + Z :=
  match ins with
  | [] => inr sumInputs
  | input :: rest =>
      let utxoKey := utxo_key (txId input) (index input) in
      match utxos !! utxoKey with
      | None => inl utxoKey
      | Some utxo => sum_inputs utxos rest (sumInputs + value utxo)
      end
  end.

(** Lines 34-36. *)
Definition sum_outputs (outs : list Output) : Z :=
  fold_left (fun sumOutputs output => sumOutputs + value output) outs 0.

(** Lines 22-40: the body of the loop over the transactions. *)
Definition check_transaction (utxos : gmap string Output) (transaction : Transaction)
    : option Reply :=
  match sum_inputs utxos (tx_inputs transaction) 0 with
  | inl utxoKey => Some (InputNotFound utxoKey)
  | inr sumInputs =>
      let sumOutputs := sum_outputs (tx_outputs transaction) in
      if bool_decide (sumInputs ≠ sumOutputs)
         && bool_decide (0 < length (tx_inputs transaction))%nat
      then Some ValueMismatch
      else None
  end.

(** Lines 21-41. *)
Fixpoint check_transactions (utxos : gmap string Output) (txs : list Transaction)
    : option Reply :=
  match txs with
  | [] => None
  | transaction :: rest =>
      match check_transaction utxos transaction with
      | Some r => Some r
      | None => check_transactions utxos rest
      end
  end.

(** Lines 44-45. *)
Definition dataToHash (block : Block) : string :=
  fold_left (fun data transaction => data +:+ tx_id transaction)
            (blk_transactions block) (pretty (blk_height block)).

(** Lines 46-54. *)
Definition check_block_id (block : Block) : option Reply :=
  let expectedBlockId := sha256_hex (dataToHash block) in
  if bool_decide (blk_id block ≠ expectedBlockId)
  then Some (InvalidBlockId expectedBlockId (blk_id block) (dataToHash block))
  else None.

(** Lines 11-54: [Some r] is the 400 reply [r], [None] lets the block through. *)
Definition validate (s : AppState) (block : Block) : option Reply :=
  match check_height s block with
  | Some r => Some r
  | None =>
      match check_transactions (utxos s) (blk_transactions block) with
      | Some r => Some r
      | None => check_block_id block
      end
  end.

(** ** In-memory update ([routes/blocks.ts], lines 80-96)

    The pair is ([state.utxos], [state.balances]). *)

Definition Index : Type := gmap string Output * gmap string jsval.

(** Lines 82-89. *)
Definition spend_input (m : Index) (input : Input) : Index :=
  let utxoKey := utxo_key (txId input) (index input) in
  let bal :=
    match m.1 !! utxoKey with
    | Some utxo => debit m.2 (address utxo) (value utxo)
    | None => m.2
    end in
  (delete utxoKey m.1, bal).

(** Lines 91-95: the body of [forEach((output, index) => ...)]. *)
Definition add_output (txid : string) (m : Index) (idx : nat) (output : Output)
    : Index :=
  (<[utxo_key txid (Z.of_nat idx) := output]> m.1,
   credit m.2 (address output) (value output)).

Fixpoint add_outputs (txid : string) (idx : nat) (outs : list Output) (m : Index)
    : Index :=
  match outs with
  | [] => m
  | output :: rest => add_outputs txid (S idx) rest (add_output txid m idx output)
  end.

Definition apply_transaction (m : Index) (transaction : Transaction) : Index :=
  add_outputs (tx_id transaction) 0 (tx_outputs transaction)
    (fold_left spend_input (tx_inputs transaction) m).

Definition apply_block (m : Index) (block : Block) : Index :=
  fold_left apply_transaction (blk_transactions block) m.

(** ** In-memory rebuild ([routes/rollback.ts], lines 74-97) *)

(** Lines 82-89: here the deletion is inside the [if (utxo)]. *)
Definition rebuild_input (m : Index) (input : Input) : Index :=
  let utxoKey := utxo_key (txId input) (index input) in
  match m.1 !! utxoKey with
  | Some utxo =>
      (delete utxoKey m.1, debit m.2 (address utxo) (value utxo))
  | None => m
  end.

Definition rebuild_transaction (m : Index) (tx : Transaction) : Index :=
  add_outputs (tx_id tx) 0 (tx_outputs tx)
    (fold_left rebuild_input (tx_inputs tx) m).

Definition rebuild_block (m : Index) (block : Block) : Index :=
  fold_left rebuild_transaction (blk_transactions block) m.

(** Lines 80-97, from the empty [rebuiltUtxos] and [rebuiltBalances]. *)
Definition rebuild (keptBlocks : list Block) : Index :=
  fold_left rebuild_block keptBlocks (∅, ∅).

(** ** The rollback target ([Number(request.query.height)])

    A JavaScript number: [NaN], an infinity, or a finite double, which is a
    rational. *)

Inductive number :=
| NaN
| Infinity
| NegInfinity
| Finite (q : Q).

Definition isFinite (n : number) : bool :=
  match n with Finite _ => true | _ => false end.

(** [n < z], as JavaScript compares numbers ([NaN] compares false). *)
Definition num_lt (n : number) (z : Z) : bool :=
  match n with
  | NaN | Infinity => false
  | NegInfinity => true
  | Finite q => negb (Qle_bool (inject_Z z) q)
  end.

(** [n > z] *)
Definition num_gt (n : number) (z : Z) : bool :=
  match n with
  | NaN | NegInfinity => false
  | Infinity => true
  | Finite q => negb (Qle_bool q (inject_Z z))
  end.

Definition int4 (x : Z) : bool :=
  bool_decide (-2147483648 <= x <= 2147483647).

(** A number bound to an [INTEGER] parameter travels as text; the server
    accepts it when it is the decimal form of a 32-bit integer. *)
Definition int4_param (n : number) : option Z :=
  match n with
  | Finite q =>
      let r := Qred q in
      if bool_decide (Qden r = 1%positive) && int4 (Qnum r)
      then Some (Qnum r) else None
  | _ => None
  end.

Definition of_int (z : Z) : number := Finite (inject_Z z).

(** A string bound to an [INTEGER] parameter: the server parses it. *)
Definition int4_text (s : string) : option Z :=
  match parse_int s with
  | Some z => if int4 z then Some z else None
  | None => None
  end.

(** A value of [state.balances] bound to an [INTEGER] parameter: a number
    travels as its decimal text, [NaN] as the text [NaN], a string as it
    is. *)
Definition int4_value (v : jsval) : option Z :=
  match v with
  | VNum n => if int4 n then Some n else None
  | VStr s => int4_text s
  | VNaN | VNative _ _ => None
  end.

(** A string bound to a [TEXT] parameter: the server refuses the character
    NUL. *)
Fixpoint text_ok (s : string) : bool :=
  match s with
  | EmptyString => true
  | String c s' => negb (Ascii.eqb c "000") && text_ok s'
  end.

(** ** Persistent store ([db/schema], and the statements of the routes) *)

Record OutputRow := { row_address : string; row_value : Z; is_spent : bool }.
Record InputRow :=
  { in_tx_id : string; spent_utxo_txid : string; spent_utxo_index : Z }.

Record DB := {
  t_blocks : gmap string Z;                 (* id (PK) -> height (UNIQUE) *)
  t_transactions : gmap string string;      (* id (PK) -> block_id (FK, CASCADE) *)
  t_inputs : list InputRow;                 (* tx_id (FK, CASCADE) *)
  t_outputs : gmap (string * Z) OutputRow;  (* (txid, idx) (PK) *)
  t_balances : gmap string Z                (* address (PK) -> balance *)
}.

Definition empty_db : DB :=
  {| t_blocks := ∅; t_transactions := ∅; t_inputs := [];
     t_outputs := ∅; t_balances := ∅ |}.

(** A connection: the tables, and how many more statements the connection
    will carry before it fails ([None]: it does not fail). *)
Record Conn := { tables : DB; fuse : option nat }.

(** A computation that issues statements; [None] is a thrown exception.
    The tables are returned in both cases: nothing is undone. *)
Definition Query (A : Type) : Type := Conn -> option A * Conn.

#[global] Instance Query_ret : MRet Query := fun A a c => (Some a, c).
#[global] Instance Query_bind : MBind Query := fun A B k m c =>
  match m c with
  | (Some a, c') => k a c'
  | (None, c') => (None, c')
  end.

(** [await dbPool.query(...)]: the statement [stmt] answers [None] when the
    server rejects it. *)
Definition query {A} (stmt : DB -> option (A * DB)) : Query A := fun c =>
  match fuse c with
  | Some O => (None, c)
  | _ =>
      match stmt (tables c) with
      | Some (a, d) => (Some a, {| tables := d; fuse := Nat.pred <$> fuse c |})
      | None => (None, {| tables := tables c; fuse := Nat.pred <$> fuse c |})
      end
  end.

(** [INSERT INTO blocks (id, height) VALUES ($1, $2)] *)
Definition insert_block (id : string) (height : Z) (d : DB) : option (unit * DB) :=
  if text_ok id && int4 height
     && bool_decide (t_blocks d !! id = None)
     && bool_decide (map_Forall (fun _ h => h ≠ height) (t_blocks d))
  then Some (tt, {| t_blocks := <[id := height]> (t_blocks d);
                    t_transactions := t_transactions d; t_inputs := t_inputs d;
                    t_outputs := t_outputs d; t_balances := t_balances d |})
  else None.

(** [INSERT INTO transactions (id, block_id) VALUES ($1, $2)] *)
Definition insert_transaction (id block_id : string) (d : DB) : option (unit * DB) :=
  if text_ok id && text_ok block_id
     && bool_decide (t_transactions d !! id = None)
     && bool_decide (is_Some (t_blocks d !! block_id))
  then Some (tt, {| t_blocks := t_blocks d;
                    t_transactions := <[id := block_id]> (t_transactions d);
                    t_inputs := t_inputs d;
                    t_outputs := t_outputs d; t_balances := t_balances d |})
  else None.

(** [INSERT INTO inputs (tx_id, spent_utxo_txid, spent_utxo_index)
     VALUES ($1, $2, $3)] *)
Definition insert_input (tx txid : string) (idx : Z) (d : DB) : option (unit * DB) :=
  if text_ok tx && text_ok txid && int4 idx
     && bool_decide (is_Some (t_transactions d !! tx))
  then Some (tt, {| t_blocks := t_blocks d; t_transactions := t_transactions d;
                    t_inputs := t_inputs d ++
                      [{| in_tx_id := tx; spent_utxo_txid := txid;
                          spent_utxo_index := idx |}];
                    t_outputs := t_outputs d; t_balances := t_balances d |})
  else None.

Definition set_spent (b : bool) (r : OutputRow) : OutputRow :=
  {| row_address := row_address r; row_value := row_value r; is_spent := b |}.

(** [UPDATE outputs SET is_spent = TRUE WHERE txid = $1 AND idx = $2] *)
Definition mark_spent (txid : string) (idx : Z) (d : DB) : option (unit * DB) :=
  if text_ok txid && int4 idx
  then Some (tt, {| t_blocks := t_blocks d; t_transactions := t_transactions d;
                    t_inputs := t_inputs d;
                    t_outputs := alter (set_spent true) (txid, idx) (t_outputs d);
                    t_balances := t_balances d |})
  else None.

(** [INSERT INTO outputs (txid, idx, address, value, is_spent)
     VALUES ($1, $2, $3, $4, $5)], with [$5 = false] *)
Definition insert_output (txid : string) (idx : Z) (addr : string) (v : Z)
    (d : DB) : option (unit * DB) :=
  if text_ok txid && text_ok addr && int4 idx && int4 v
     && bool_decide (t_outputs d !! (txid, idx) = None)
  then Some (tt, {| t_blocks := t_blocks d; t_transactions := t_transactions d;
                    t_inputs := t_inputs d;
                    t_outputs := <[(txid, idx) :=
                       {| row_address := addr; row_value := v; is_spent := false |}]>
                       (t_outputs d);
                    t_balances := t_balances d |})
  else None.

(** [INSERT INTO balances (address, balance) VALUES ($1, $2)
     ON CONFLICT (address) DO UPDATE SET balance = $2, last_updated = NOW()] *)
Definition upsert_balance (addr : string) (balance : jsval) (d : DB)
    : option (unit * DB) :=
  match int4_value balance with
  | Some bal =>
      if text_ok addr
      then Some (tt, {| t_blocks := t_blocks d; t_transactions := t_transactions d;
                        t_inputs := t_inputs d; t_outputs := t_outputs d;
                        t_balances := <[addr := bal]> (t_balances d) |})
      else None
  | None => None
  end.

(** [SELECT t.id FROM transactions t JOIN blocks b ON t.block_id = b.id
     WHERE b.height > $1] *)
Definition doomed_block (d : DB) (target : Z) (block_id : string) : Prop :=
  match t_blocks d !! block_id with
  | Some h => target < h
  | None => False
  end.

#[global] Instance doomed_block_dec d target block_id :
  Decision (doomed_block d target block_id).
Proof. unfold doomed_block. destruct (t_blocks d !! block_id); apply _. Defined.

Definition select_deleted_txs (target : Z) (d : DB) : option (list string * DB) :=
  Some ((map_to_list
           (filter (fun r => doomed_block d target r.2) (t_transactions d))).*1,
        d).

(** [UPDATE outputs SET is_spent = FALSE WHERE (txid, idx) IN
     (SELECT spent_utxo_txid, spent_utxo_index FROM inputs
      WHERE tx_id IN (...deletedTxIds))] *)
Definition spent_by (ins : list InputRow) (txs : list string) (k : string * Z) : bool :=
  existsb (fun r => bool_decide (in_tx_id r ∈ txs)
                    && bool_decide ((spent_utxo_txid r, spent_utxo_index r) = k))
          ins.

Definition resurrect_outputs (deletedTxIds : list string) (d : DB)
    : option (unit * DB) :=
  Some (tt, {| t_blocks := t_blocks d; t_transactions := t_transactions d;
               t_inputs := t_inputs d;
               t_outputs :=
                 map_imap (fun k r =>
                   Some (if spent_by (t_inputs d) deletedTxIds k
                         then set_spent false r else r)) (t_outputs d);
               t_balances := t_balances d |}).

(** [DELETE FROM outputs WHERE txid IN (...deletedTxIds)] *)
Definition delete_outputs (deletedTxIds : list string) (d : DB)
    : option (unit * DB) :=
  Some (tt, {| t_blocks := t_blocks d; t_transactions := t_transactions d;
               t_inputs := t_inputs d;
               t_outputs := filter (fun r => r.1.1 ∉ deletedTxIds) (t_outputs d);
               t_balances := t_balances d |}).

(** Rows removed by [ON DELETE CASCADE] once the blocks table is [bs]:
    a transaction goes with its block, an input with its transaction. *)
Definition cascade_transactions (bs : gmap string Z) (txs : gmap string string)
    : gmap string string :=
  filter (fun r => is_Some (bs !! r.2)) txs.

Definition cascade_inputs (txs : gmap string string) (ins : list InputRow)
    : list InputRow :=
  filter (fun r => is_Some (txs !! in_tx_id r)) ins.

(** [DELETE FROM blocks WHERE height > $1] *)
Definition delete_blocks (target : Z) (d : DB) : option (unit * DB) :=
  let bs := filter (fun r => ¬ target < r.2) (t_blocks d) in
  let txs := cascade_transactions bs (t_transactions d) in
  Some (tt, {| t_blocks := bs; t_transactions := txs;
               t_inputs := cascade_inputs txs (t_inputs d);
               t_outputs := t_outputs d; t_balances := t_balances d |}).

(** [DELETE FROM inputs WHERE tx_id IN (...deletedTxIds)] *)
Definition delete_inputs (deletedTxIds : list string) (d : DB)
    : option (unit * DB) :=
  Some (tt, {| t_blocks := t_blocks d; t_transactions := t_transactions d;
               t_inputs := filter (fun r => in_tx_id r ∉ deletedTxIds) (t_inputs d);
               t_outputs := t_outputs d; t_balances := t_balances d |}).

(** [SELECT address, COALESCE(SUM(value), 0) as balance FROM outputs
     WHERE is_spent = FALSE GROUP BY address] *)
Definition add_row (k : string * Z) (r : OutputRow) (acc : gmap string Z)
    : gmap string Z :=
  if is_spent r then acc
  else <[row_address r := default 0 (acc !! row_address r) + row_value r]> acc.

Definition unspent_by_address (outs : gmap (string * Z) OutputRow) : gmap string Z :=
  map_fold add_row ∅ outs.

Definition select_unspent_balances (d : DB) : option (list (string * Z) * DB) :=
  Some (map_to_list (unspent_by_address (t_outputs d)), d).

(** [DELETE FROM balances] *)
Definition delete_balances (d : DB) : option (unit * DB) :=
  Some (tt, {| t_blocks := t_blocks d; t_transactions := t_transactions d;
               t_inputs := t_inputs d; t_outputs := t_outputs d;
               t_balances := ∅ |}).

(** [INSERT INTO balances (address, balance) VALUES ($1, $2)]; both
    parameters are read from the store (a text without NUL, and the decimal
    text of the sum). *)
Definition insert_balance (addr : string) (bal : Z) (d : DB) : option (unit * DB) :=
  if int4 bal && bool_decide (t_balances d !! addr = None)
  then Some (tt, {| t_blocks := t_blocks d; t_transactions := t_transactions d;
                    t_inputs := t_inputs d; t_outputs := t_outputs d;
                    t_balances := <[addr := bal]> (t_balances d) |})
  else None.

(** [DELETE FROM outputs], [DELETE FROM inputs], [DELETE FROM transactions],
    [DELETE FROM blocks] (the last two cascade). *)
Definition delete_all_outputs (d : DB) : option (unit * DB) :=
  Some (tt, {| t_blocks := t_blocks d; t_transactions := t_transactions d;
               t_inputs := t_inputs d; t_outputs := ∅;
               t_balances := t_balances d |}).

Definition delete_all_inputs (d : DB) : option (unit * DB) :=
  Some (tt, {| t_blocks := t_blocks d; t_transactions := t_transactions d;
               t_inputs := []; t_outputs := t_outputs d;
               t_balances := t_balances d |}).

Definition delete_all_transactions (d : DB) : option (unit * DB) :=
  Some (tt, {| t_blocks := t_blocks d; t_transactions := ∅;
               t_inputs := cascade_inputs ∅ (t_inputs d);
               t_outputs := t_outputs d; t_balances := t_balances d |}).

Definition delete_all_blocks (d : DB) : option (unit * DB) :=
  let txs := cascade_transactions ∅ (t_transactions d) in
  Some (tt, {| t_blocks := ∅; t_transactions := txs;
               t_inputs := cascade_inputs txs (t_inputs d);
               t_outputs := t_outputs d; t_balances := t_balances d |}).

(** [SELECT balance FROM balances WHERE address = $1] *)
Definition select_balance (addr : string) (d : DB) : option (option Z * DB) :=
  if text_ok addr then Some (t_balances d !! addr, d) else None.

(** ** State mutator: [POST /blocks] ([routes/blocks.ts], lines 56-110) *)

(** Lines 63-69. *)
Fixpoint write_inputs (tx : string) (ins : list Input) : Query unit :=
  match ins with
  | [] => mret tt
  | input :: rest =>
      query (insert_input tx (txId input) (index input));;
      query (mark_spent (txId input) (index input));;
      write_inputs tx rest
  end.

(** Lines 71-77. *)
Fixpoint write_outputs (tx : string) (idx : nat) (outs : list Output) : Query unit :=
  match outs with
  | [] => mret tt
  | output :: rest =>
      query (insert_output tx (Z.of_nat idx) (address output) (value output));;
      write_outputs tx (S idx) rest
  end.

(** Lines 60-78. *)
Fixpoint write_transactions (block_id : string) (txs : list Transaction)
    : Query unit :=
  match txs with
  | [] => mret tt
  | tx :: rest =>
      query (insert_transaction (tx_id tx) block_id);;
      write_inputs (tx_id tx) (tx_inputs tx);;
      write_outputs (tx_id tx) 0 (tx_outputs tx);;
      write_transactions block_id rest
  end.

(** Lines 58-78. *)
Definition write_block (block : Block) : Query unit :=
  query (insert_block (blk_id block) (blk_height block));;
  write_transactions (blk_id block) (blk_transactions block).

(** Lines 99-105, over [Object.entries(state.balances)]. *)
Fixpoint persist_balances (entries : list (string * jsval)) : Query unit :=
  match entries with
  | [] => mret tt
  | (address, balance) :: rest =>
      query (upsert_balance address balance);; persist_balances rest
  end.

(** The handler: the reply, the in-memory state and the connection it
    leaves.  [state.utxos] and [state.balances] are updated (lines 80-96)
    between the row writes and the balance snapshot; [state.blocks] and
    [state.currentHeight] after it (lines 107-108). *)
Definition post_blocks (s : AppState) (c : Conn) (block : Block)
    : Reply * AppState * Conn :=
  match validate s block with
  | Some r => (r, s, c)
  | None =>
      match write_block block c with
      | (None, c1) => (DatabaseError, s, c1)
      | (Some _, c1) =>
          let m := apply_block (utxos s, balances s) block in
          let s1 := {| blocks := blocks s; currentHeight := currentHeight s;
                       balances := m.2; utxos := m.1 |} in
          match persist_balances (map_to_list m.2) c1 with
          | (None, c2) => (DatabaseError, s1, c2)
          | (Some _, c2) =>
              (BlockAccepted (blk_height block),
               {| blocks := blocks s ++ [block];
                  currentHeight := blk_height block;
                  balances := m.2; utxos := m.1 |},
               c2)
          end
      end
  end.

(** ** Rewinder: [POST /rollback] ([routes/rollback.ts]) *)

(** Lines 68-72: the rows are inserted and collected in [newBalances], a
    plain object.  [row.balance] is the text of the sum: the driver does not
    convert a [bigint]. *)
Fixpoint insert_balances (rows : list (string * Z))
    (newBalances : gmap string jsval) : Query (gmap string jsval) :=
  match rows with
  | [] => mret newBalances
  | (addr, bal) :: rest =>
      query (insert_balance addr bal);;
      insert_balances rest (obj_set newBalances addr (VStr (pretty bal)))
  end.

(** [newBalances] once the rows have been assigned. *)
Definition collect (acc : gmap string jsval) (rows : list (string * Z))
    : gmap string jsval :=
  foldl (fun m r => obj_set m r.1 (VStr (pretty r.2))) acc rows.

(** The properties that [newBalances] ends with: the text of each row of
    the aggregate [agg] but the row of [__proto__]. *)
Definition new_balances (agg : gmap string Z) : gmap string jsval :=
  (fun z => VStr (pretty z)) <$> delete "__proto__" agg.

(** [if (deletedTxIds.length > 0) await dbPool.query(...)] *)
Definition when_nonempty (ids : list string) (q : Query unit) : Query unit :=
  if bool_decide (0 < length ids)%nat then q else mret tt.

(** Lines 17-72. *)
Definition rollback_store (target : Z) : Query (gmap string jsval) :=
  deletedTxIds ← query (select_deleted_txs target);
  when_nonempty deletedTxIds (query (resurrect_outputs deletedTxIds));;
  when_nonempty deletedTxIds (query (delete_outputs deletedTxIds));;
  query (delete_blocks target);;
  when_nonempty deletedTxIds (query (delete_inputs deletedTxIds));;
  rows ← query select_unspent_balances;
  query delete_balances;;
  insert_balances rows ∅.

(** The statement whose parameter is not an [INTEGER]: the server rejects it. *)
Definition bad_parameter : DB -> option (unit * DB) := fun _ => None.

(** The handler.  Lines 10-15 are the two guards; the in-memory state is
    swapped (lines 74-107) once every statement has gone through:
    [state.balances] is emptied and takes the properties of [newBalances]
    (lines 103-104; [rebuiltBalances] is computed and dropped). *)
Definition post_rollback (s : AppState) (c : Conn) (targetHeight : number)
    : Reply * AppState * Conn :=
  if negb (isFinite targetHeight) || num_lt targetHeight 1
  then (InvalidHeightParam, s, c)
  else if num_gt targetHeight (currentHeight s)
  then (TargetAboveHead, s, c)
  else
    match int4_param targetHeight with
    | None => (RollbackFailed, s, (query bad_parameter c).2)
    | Some target =>
        match rollback_store target c with
        | (None, c') => (RollbackFailed, s, c')
        | (Some newBalances, c') =>
            let keptBlocks :=
              filter (fun b => blk_height b <= target) (blocks s) in
            let rebuilt := rebuild keptBlocks in
            (RollbackSuccessful target,
             {| blocks := keptBlocks; currentHeight := target;
                balances := newBalances; utxos := rebuilt.1 |},
             c')
        end
    end.

(** ** Reset: [POST /reset] ([routes/additionalFunction.ts]) *)

Definition reset_store : Query unit :=
  query delete_all_outputs;;
  query delete_all_inputs;;
  query delete_all_transactions;;
  query delete_all_blocks;;
  query delete_balances.

Definition post_reset (s : AppState) (c : Conn) : Reply * AppState * Conn :=
  match reset_store c with
  | (None, c') => (ResetFailed, s, c')
  | (Some _, c') => (ResetSuccessful 0 0 0 0, init_state, c')
  end.

(** ** Balance query: [GET /balance/:address] ([routes/balance.ts]) *)

Definition get_balance (c : Conn) (addr : string) : option Z :=
  match query (select_balance addr) c with
  | (Some row, _) => Some (default 0 row)
  | (None, _) => None
  end.

(** ** Operations and histories *)

Inductive Op :=
| SubmitBlock (block : Block)
| Rollback (targetHeight : number)
| Reset.

Definition accepted (r : Reply) : bool :=
  match r with
  | BlockAccepted _ | RollbackSuccessful _ | ResetSuccessful _ _ _ _ => true
  | _ => false
  end.

Definition run_op (o : Op) (s : AppState) (c : Conn) : Reply * AppState * Conn :=
  match o with
  | SubmitBlock block => post_blocks s c block
  | Rollback targetHeight => post_rollback s c targetHeight
  | Reset => post_reset s c
  end.

(** A healthy connection on the tables [d]. *)
Definition connect (d : DB) : Conn := {| tables := d; fuse := None |}.

(** The service after a history of accepted operations, from the empty
    store and the initial state.  Every operation of the history gets a
    connection that may fail after any number of statements; it counts as
    accepted when the reply is a 200. *)
Inductive reachable : AppState -> DB -> Prop :=
| reachable_init : reachable init_state empty_db
| reachable_step o f s d r s' c' :
    reachable s d ->
    run_op o s {| tables := d; fuse := f |} = (r, s', c') ->
    accepted r = true ->
    reachable s' (tables c').

(** Submitting the blocks one after the other on a healthy connection;
    [None] as soon as one of them is not accepted. *)
Fixpoint submit_all (bs : list Block) (s : AppState) (d : DB)
    : option (AppState * DB) :=
  match bs with
  | [] => Some (s, d)
  | block :: rest =>
      match post_blocks s (connect d) block with
      | (BlockAccepted _, s', c') => submit_all rest s' (tables c')
      | _ => None
      end
  end.

(** ** Vocabulary of the properties *)

(** The height rule: 1 on an empty chain, [currentHeight + 1] otherwise. *)
Definition height_rule (s : AppState) (b : Block) : Prop :=
  (currentHeight s = 0 /\ blk_height b = 1)
  \/ (currentHeight s ≠ 0 /\ blk_height b = currentHeight s + 1).

#[global] Instance height_rule_dec s b : Decision (height_rule s b).
Proof. unfold height_rule. apply _. Defined.

Definition input_key (i : Input) : string := utxo_key (txId i) (index i).

(** The input references an output of the snapshot [u]. *)
Definition input_present (u : gmap string Output) (i : Input) : Prop :=
  is_Some (u !! input_key i).

Definition input_value (u : gmap string Output) (i : Input) : Z :=
  from_option value 0 (u !! input_key i).

Definition in_sum (u : gmap string Output) (t : Transaction) : Z :=
  foldr (fun i acc => input_value u i + acc) 0 (tx_inputs t).

Definition out_sum (t : Transaction) : Z :=
  foldr (fun o acc => value o + acc) 0 (tx_outputs t).

(** Value conservation: a coinbase, or inputs and outputs of equal sums. *)
Definition conserves (u : gmap string Output) (t : Transaction) : Prop :=
  tx_inputs t = [] \/ in_sum u t = out_sum t.

(** The two per-transaction checks. *)
Definition tx_passes (u : gmap string Output) (t : Transaction) : Prop :=
  Forall (input_present u) (tx_inputs t) /\ conserves u t.

(** [decimal_string(height) ++ t1.id ++ ... ++ tk.id] *)
Definition hash_input (b : Block) : string :=
  pretty (blk_height b)
  +:+ foldr (fun t ids => tx_id t +:+ ids) "" (blk_transactions b).

Definition expected_id (b : Block) : string := sha256_hex (hash_input b).

#[global] Instance input_present_dec u i : Decision (input_present u i).
Proof. unfold input_present. apply _. Defined.
#[global] Instance conserves_dec u t : Decision (conserves u t).
Proof. unfold conserves. apply _. Defined.
#[global] Instance tx_passes_dec u t : Decision (tx_passes u t).
Proof. unfold tx_passes. apply _. Defined.

#[global] Typeclasses Opaque height_rule input_present conserves tx_passes.

(** ** Example ledgers (the three-block scenario of the test suite) *)

Definition mk_block (height : Z) (txs : list Transaction) : Block :=
  {| blk_id := expected_id {| blk_id := ""; blk_height := height;
                              blk_transactions := txs |};
     blk_height := height; blk_transactions := txs |}.

Definition mk_tx (id : string) (ins : list (string * Z)) (outs : list (string * Z))
    : Transaction :=
  {| tx_id := id;
     tx_inputs := map (fun p => {| txId := p.1; index := p.2 |}) ins;
     tx_outputs := map (fun p => {| address := p.1; value := p.2 |}) outs |}.

Definition block1 : Block := mk_block 1 [mk_tx "tx1" [] [("addr1", 10)]].
Definition block2 : Block :=
  mk_block 2 [mk_tx "tx2" [("tx1", 0)] [("addr2", 4); ("addr3", 6)]].
Definition block3 : Block :=
  mk_block 3 [mk_tx "tx3" [("tx2", 1)] [("addr4", 2); ("addr5", 2); ("addr6", 2)]].

(** The service after the blocks [bs] have been accepted in turn. *)
Definition ledger (bs : list Block) : AppState * DB :=
  default (init_state, empty_db) (submit_all bs init_state empty_db).

(** ** Sums by address and the store's view of the UTXO set *)

(** The sum of the values of the outputs of [u] whose address is [a]. *)
Definition sum_for (a : string) (u : gmap string Output) : Z :=
  map_fold (fun _ o acc => if bool_decide (address o = a) then acc + value o else acc)
           0 u.

(** The address owns a row of [outputs] with [is_spent = FALSE]. *)
Definition owns_unspent (outs : gmap (string * Z) OutputRow) (a : string) : Prop :=
  exists k r, outs !! k = Some r /\ is_spent r = false /\ row_address r = a.

Definition unspent_sum (a : string) (outs : gmap (string * Z) OutputRow) : Z :=
  map_fold (fun _ r acc =>
              if is_spent r then acc
              else if bool_decide (row_address r = a) then acc + row_value r
              else acc) 0 outs.

(** The rows with [is_spent = FALSE], keyed as [state.utxos] keys them. *)
Definition unspent_output (r : OutputRow) : option Output :=
  if is_spent r then None
  else Some {| address := row_address r; value := row_value r |}.

Definition row_key (k : string * Z) : string := utxo_key k.1 k.2.

Definition utxo_view (outs : gmap (string * Z) OutputRow) : gmap string Output :=
  kmap row_key (omap unspent_output outs).

(** The tables a statement leaves. *)
Definition exec {A} (stmt : DB -> option (A * DB)) (d : DB) : DB :=
  match stmt d with Some (_, d') => d' | None => d end.

Definition deleted_tx_ids (target : Z) (d : DB) : list string :=
  (map_to_list (filter (fun r => doomed_block d target r.2) (t_transactions d))).*1.

(** The tables after the statements of a rollback have all gone through. *)
Definition rollback_tables (target : Z) (d : DB) : DB :=
  let ids := deleted_tx_ids target d in
  let d4 := exec (delete_inputs ids)
              (exec (delete_blocks target)
                 (exec (delete_outputs ids)
                    (exec (resurrect_outputs ids) d))) in
  {| t_blocks := t_blocks d4; t_transactions := t_transactions d4;
     t_inputs := t_inputs d4; t_outputs := t_outputs d4;
     t_balances := unspent_by_address (t_outputs d4) |}.

(** An address under which [state.balances] behaves as a map: not
    [__proto__], and not the name of a function of [Object.prototype]. *)
Definition ordinary (a : string) : Prop :=
  a ≠ "__proto__" /\ a ∉ prototype_functions.

#[global] Instance ordinary_dec a : Decision (ordinary a).
Proof. unfold ordinary. apply _. Defined.

(** Every output of the block pays an ordinary address. *)
Definition ordinary_block (b : Block) : Prop :=
  Forall (fun t => Forall (fun o => ordinary (address o)) (tx_outputs t))
         (blk_transactions b).

#[global] Instance ordinary_block_dec b : Decision (ordinary_block b).
Proof. unfold ordinary_block. apply _. Defined.

(** The balance-derivation invariant on the in-memory pair: every entry is
    the number that the unspent outputs of the address add up to, and an
    address without an entry has none (its sum is 0). *)
Definition derived (m : Index) : Prop :=
  forall a, match m.2 !! a with
       | Some v => v = VNum (sum_for a m.1)
       | None => sum_for a m.1 = 0
       end.

Definition ordinary_utxos (u : gmap string Output) : Prop :=
  map_Forall (fun _ o => ordinary (address o)) u.

(** No character of the string is a colon. *)
Fixpoint colon_free (s : string) : bool :=
  match s with
  | EmptyString => true
  | String c s' => negb (Ascii.eqb c ":") && colon_free s'
  end.

(** ** The rows a block writes

    The tables that the statements of [POST /blocks] leave when they all go
    through, and the conditions the primary keys put on them. *)

Definition spend_row (outs : gmap (string * Z) OutputRow) (i : Input)
    : gmap (string * Z) OutputRow :=
  alter (set_spent true) (txId i, index i) outs.

Definition unspent_row (o : Output) : OutputRow :=
  {| row_address := address o; row_value := value o; is_spent := false |}.

Fixpoint add_rows (txid : string) (idx : nat) (os : list Output)
    (outs : gmap (string * Z) OutputRow) : gmap (string * Z) OutputRow :=
  match os with
  | [] => outs
  | o :: rest =>
      add_rows txid (S idx) rest (<[(txid, Z.of_nat idx) := unspent_row o]> outs)
  end.

Definition outputs_after_tx (outs : gmap (string * Z) OutputRow) (t : Transaction)
    : gmap (string * Z) OutputRow :=
  add_rows (tx_id t) 0 (tx_outputs t) (fold_left spend_row (tx_inputs t) outs).

Definition outputs_after_block (outs : gmap (string * Z) OutputRow) (b : Block)
    : gmap (string * Z) OutputRow :=
  fold_left outputs_after_tx (blk_transactions b) outs.

Definition input_rows (t : Transaction) : list InputRow :=
  map (fun i => {| in_tx_id := tx_id t; spent_utxo_txid := txId i;
                   spent_utxo_index := index i |}) (tx_inputs t).

Definition txs_after (bid : string) (txs : list Transaction)
    (tt : gmap string string) : gmap string string :=
  fold_left (fun m t => <[tx_id t := bid]> m) txs tt.

Definition tables_after_block (d : DB) (b : Block) : DB :=
  {| t_blocks := <[blk_id b := blk_height b]> (t_blocks d);
     t_transactions := txs_after (blk_id b) (blk_transactions b) (t_transactions d);
     t_inputs := t_inputs d ++ flat_map input_rows (blk_transactions b);
     t_outputs := outputs_after_block (t_outputs d) b;
     t_balances := t_balances d |}.

(** Each output row is new when it is inserted. *)
Fixpoint rows_fresh (txid : string) (idx : nat) (os : list Output)
    (outs : gmap (string * Z) OutputRow) : Prop :=
  match os with
  | [] => True
  | o :: rest =>
      outs !! (txid, Z.of_nat idx) = None
      /\ rows_fresh txid (S idx) rest (<[(txid, Z.of_nat idx) := unspent_row o]> outs)
  end.

Fixpoint txs_fresh (txs : list Transaction) (outs : gmap (string * Z) OutputRow)
    : Prop :=
  match txs with
  | [] => True
  | t :: rest =>
      rows_fresh (tx_id t) 0 (tx_outputs t) (fold_left spend_row (tx_inputs t) outs)
      /\ txs_fresh rest (outputs_after_tx outs t)
  end.

(** What an accepted block owes to the store: its height fits an [INTEGER],
    its id and its height are new, its transaction ids are new and distinct, and so are
    the keys of its output rows. *)
Definition block_writable (d : DB) (b : Block) : Prop :=
  int4 (blk_height b) = true
  /\ t_blocks d !! blk_id b = None
  /\ map_Forall (fun _ h => h ≠ blk_height b) (t_blocks d)
  /\ NoDup (map tx_id (blk_transactions b))
  /\ Forall (fun t => t_transactions d !! tx_id t = None) (blk_transactions b)
  /\ txs_fresh (blk_transactions b) (t_outputs d).

(** The strings of a transaction that land in [TEXT] columns: its id, the
    ids its inputs reference, the addresses of its outputs. *)
Definition tx_text (t : Transaction) : Prop :=
  text_ok (tx_id t) = true
  /\ Forall (fun i => text_ok (txId i) = true) (tx_inputs t)
  /\ Forall (fun o => text_ok (address o) = true) (tx_outputs t).

(** The entries of [state.balances] are in the [balances] table, as the
    server reads them. *)
Definition stored (bal : gmap string jsval) (d : DB) : Prop :=
  forall a v, bal !! a = Some v ->
    text_ok a = true
    /\ exists z, int4_value v = Some z /\ t_balances d !! a = Some z.

(** The balance upserts take every entry: the key holds no NUL and the
    server reads the value as a 32-bit integer. *)
Definition persistable (bal : gmap string jsval) : Prop :=
  map_Forall (fun a v => text_ok a = true /\ is_Some (int4_value v)) bal.

(** Two stores that differ at most in their [balances] table. *)
Definition same_rows (d1 d2 : DB) : Prop :=
  t_blocks d1 = t_blocks d2 /\ t_transactions d1 = t_transactions d2
  /\ t_inputs d1 = t_inputs d2 /\ t_outputs d1 = t_outputs d2.

(** ** The journal

    What the block journal says of an output key [(txid, idx)]: some
    transaction produces it, some input references it. *)

Definition journal_txs (J : list Block) : list Transaction :=
  flat_map blk_transactions J.

Definition tx_ids (txs : list Transaction) : list string := map tx_id txs.

Definition key_of (i : Input) : string * Z := (txId i, index i).

Definition references (txs : list Transaction) (k : string * Z) : Prop :=
  Exists (fun t => Exists (fun i => key_of i = k) (tx_inputs t)) txs.

#[global] Instance references_dec txs k : Decision (references txs k).
Proof. unfold references. apply _. Defined.

#[global] Typeclasses Opaque references.

Definition produces (txs : list Transaction) (k : string * Z) (o : Output) : Prop :=
  exists t j, t ∈ txs /\ tx_outputs t !! j = Some o /\ k = (tx_id t, Z.of_nat j).

(** The [outputs] table that the blocks of the journal write, from the
    empty table. *)
Definition journal_outputs (J : list Block) : gmap (string * Z) OutputRow :=
  fold_left outputs_after_block J ∅.

(** Every input of the block references an unspent row of [outs]. *)
Definition inputs_present (outs : gmap (string * Z) OutputRow) (b : Block) : Prop :=
  Forall (fun t => Forall (input_present (utxo_view outs)) (tx_inputs t))
         (blk_transactions b).

(** Each block of the chain found its inputs in the rows written by the
    blocks before it. *)
Fixpoint chain_ok (outs : gmap (string * Z) OutputRow) (J : list Block) : Prop :=
  match J with
  | [] => True
  | b :: J' => inputs_present outs b /\ chain_ok (outputs_after_block outs b) J'
  end.

(** The row of the output [o] at key [k], as the journal has it. *)
Definition journal_row (J : list Block) (k : string * Z) (o : Output) : OutputRow :=
  {| row_address := address o; row_value := value o;
     is_spent := bool_decide (references (journal_txs J) k) |}.

(** ** Agreement of the store, the in-memory index and the journal *)

Record consistent (s : AppState) (d : DB) : Prop := {
  cons_heights :
    map blk_height (blocks s) = seqZ 1 (Z.of_nat (length (blocks s)));
  cons_height : currentHeight s = Z.of_nat (length (blocks s));
  cons_height_int4 : int4 (currentHeight s) = true;
  cons_utxos : utxos s = utxo_view (t_outputs d);
  cons_outputs : t_outputs d = journal_outputs (blocks s);
  cons_inputs :
    forall r, r ∈ t_inputs d
         <-> exists t, t ∈ journal_txs (blocks s) /\ r ∈ input_rows t;
  cons_transactions :
    forall x bid, t_transactions d !! x = Some bid
             <-> exists b t, b ∈ blocks s /\ t ∈ blk_transactions b
                        /\ tx_id t = x /\ blk_id b = bid;
  cons_tx_ids : NoDup (tx_ids (journal_txs (blocks s)));
  cons_blocks :
    forall bid h, t_blocks d !! bid = Some h
             <-> exists b, b ∈ blocks s /\ blk_id b = bid /\ blk_height b = h;
  cons_block_ids : NoDup (map blk_id (blocks s));
  cons_chain : chain_ok ∅ (blocks s);
  cons_addresses :
    map_Forall (fun _ r => text_ok (row_address r) = true) (t_outputs d);
  cons_proto : balances s !! "__proto__" = None;
  cons_balances : stored (balances s) d
}.

(** ** Block list: [GET /blocks] ([routes/blocks.ts], lines 117-126) *)

(** [SELECT id, height FROM blocks ORDER BY height] *)
Definition by_height (r1 r2 : string * Z) : Prop := r1.2 <= r2.2.

#[global] Instance by_height_dec r1 r2 : Decision (by_height r1 r2).
Proof. unfold by_height. apply _. Defined.

#[global] Instance by_height_trans : Transitive by_height.
Proof. unfold by_height. intros x y z. lia. Qed.

#[global] Instance by_height_total : Total by_height.
Proof. unfold by_height. intros x y. lia. Qed.

Definition select_blocks (d : DB) : option (list (string * Z) * DB) :=
  Some (merge_sort by_height (map_to_list (t_blocks d)), d).

(** The handler: [None] is the 500 reply; otherwise [blocks], [count] and
    [currentHeight]. *)
Definition get_blocks (s : AppState) (c : Conn)
    : option (list (string * Z) * nat * Z) :=
  match query select_blocks c with
  | (Some rows, _) => Some (rows, length rows, currentHeight s)
  | (None, _) => None
  end.

(** The (id, height) pairs of the journal, in its order. *)
Definition listing (J : list Block) : list (string * Z) :=
  map (fun b => (blk_id b, blk_height b)) J.

(** ** The numbers of a block that land in [INTEGER] columns

    The indices of the inputs ([inputs.spent_utxo_index], [outputs.idx] in
    the update), the values of the outputs ([outputs.value]) and the
    positions of the outputs ([outputs.idx]: 0, 1, ...). *)
Definition tx_int4 (t : Transaction) : Prop :=
  Forall (fun i => int4 (index i) = true) (tx_inputs t)
  /\ Forall (fun o => int4 (value o) = true) (tx_outputs t)
  /\ Z.of_nat (length (tx_outputs t)) <= 2147483648.

(** The state [POST /blocks] leaves when it accepts the block. *)
Definition state_after_block (s : AppState) (b : Block) : AppState :=
  let m := apply_block (utxos s, balances s) b in
  {| blocks := blocks s ++ [b]; currentHeight := blk_height b;
     balances := m.2; utxos := m.1 |}.

(** ** Value in circulation *)

(** The value held by the UTXO map. *)
Definition total (u : gmap string Output) : Z :=
  map_fold (fun _ o acc => acc + value o) 0 u.

(** The value a block creates: the outputs of its transactions without
    inputs, which the conservation check lets through. *)
Definition minted (b : Block) : Z :=
  foldr (fun t acc =>
           (if bool_decide (tx_inputs t = []) then out_sum t else 0) + acc)
        0 (blk_transactions b).

(** The outputs that the inputs of the block reference, one per input. *)
Definition block_inputs (b : Block) : list (string * Z) :=
  flat_map (fun t => map key_of (tx_inputs t)) (blk_transactions b).

(** The value the blocks of a journal create. *)
Definition minted_all (J : list Block) : Z :=
  foldr (fun b acc => minted b + acc) 0 J.

(** ** Stores that hold rows of an unfinished block

    [POST /blocks] commits its statements one by one; when one of them
    fails, the rows written before it stay.  [dirty d0 d1 cur] describes the
    tables [d1] that such a submission can leave on top of the tables [d0]
    of a chain of height [cur]: the rows of [d0], plus a block above [cur],
    transactions of that block, input rows of these transactions, output
    rows of these transactions, and [is_spent] set on rows of [d0] that
    these input rows reference. *)

Definition input_row_key (r : InputRow) : string * Z :=
  (spent_utxo_txid r, spent_utxo_index r).

(** What the rows of [d0] owe to each other. *)
Record clean (d0 : DB) (cur : Z) : Prop := {
  clean_heights : forall bid h, t_blocks d0 !! bid = Some h -> h <= cur;
  clean_transactions :
    forall x bid, t_transactions d0 !! x = Some bid -> is_Some (t_blocks d0 !! bid);
  clean_inputs :
    forall r, r ∈ t_inputs d0 -> is_Some (t_transactions d0 !! in_tx_id r);
  clean_outputs :
    forall k, is_Some (t_outputs d0 !! k) -> is_Some (t_transactions d0 !! k.1)
}.

(** An input row of a transaction that [d0] does not have; it references
    an unspent row of [d0]. *)
Definition stray (d0 d1 : DB) (r : InputRow) : Prop :=
  t_transactions d0 !! in_tx_id r = None
  /\ is_Some (t_transactions d1 !! in_tx_id r)
  /\ exists row, t_outputs d0 !! input_row_key r = Some row /\ is_spent row = false.

Record dirty (d0 d1 : DB) (cur : Z) : Prop := {
  dirty_blocks :
    forall bid, t_blocks d1 !! bid = t_blocks d0 !! bid
           \/ (t_blocks d0 !! bid = None
               /\ exists h, t_blocks d1 !! bid = Some h /\ cur < h);
  dirty_transactions :
    forall x, t_transactions d1 !! x = t_transactions d0 !! x
         \/ (t_transactions d0 !! x = None
             /\ exists bid, t_transactions d1 !! x = Some bid
                       /\ t_blocks d0 !! bid = None
                       /\ is_Some (t_blocks d1 !! bid));
  dirty_inputs :
    exists extra, t_inputs d1 = t_inputs d0 ++ extra /\ Forall (stray d0 d1) extra;
  dirty_outputs :
    forall k, t_outputs d1 !! k = t_outputs d0 !! k
         \/ (exists row r,
                t_outputs d0 !! k = Some row /\ is_spent row = false
                /\ t_outputs d1 !! k = Some (set_spent true row)
                /\ r ∈ t_inputs d1 /\ t_transactions d0 !! in_tx_id r = None
                /\ input_row_key r = k)
         \/ (t_outputs d0 !! k = None /\ is_Some (t_outputs d1 !! k)
             /\ t_transactions d0 !! k.1 = None
             /\ is_Some (t_transactions d1 !! k.1))
}.

(** The tables of [d0], with the balances recomputed from its outputs. *)
Definition canonical (d0 : DB) : DB :=
  {| t_blocks := t_blocks d0; t_transactions := t_transactions d0;
     t_inputs := t_inputs d0; t_outputs := t_outputs d0;
     t_balances := unspent_by_address (t_outputs d0) |}.

(** ** Stores that an unfinished rollback leaves

    The tables after the first [j] of the four statements of a rollback
    that change rows other than balances: the update of [is_spent], the
    deletion of outputs, the deletion of blocks (with its cascades), the
    deletion of inputs. *)
Definition rollback_stage (target : Z) (d : DB) (j : nat) : DB :=
  let ids := deleted_tx_ids target d in
  let d1 := exec (resurrect_outputs ids) d in
  let d2 := exec (delete_outputs ids) d1 in
  let d3 := exec (delete_blocks target) d2 in
  match j with
  | O => d
  | 1%nat => d1
  | 2%nat => d2
  | 3%nat => d3
  | _ => exec (delete_inputs ids) d3
  end.

(** ** The statements of a request, in the order the handler issues them *)

Definition Statement : Type := DB -> option (unit * DB).

(** A query whose rows are left aside. *)
Definition void {A} (stmt : DB -> option (A * DB)) : Statement := fun d =>
  match stmt d with
  | Some (_, d') => Some (tt, d')
  | None => None
  end.

(** The tables that the statements leave when the server takes them all,
    one after the other. *)
Fixpoint commit (stmts : list Statement) (d : DB) : option DB :=
  match stmts with
  | [] => Some d
  | stmt :: rest =>
      match stmt d with
      | Some (_, d') => commit rest d'
      | None => None
      end
  end.

(** The statements sent one after the other, each awaited before the next:
    the first that fails throws. *)
Fixpoint run (stmts : list Statement) : Query unit :=
  match stmts with
  | [] => mret tt
  | stmt :: rest => query stmt;; run rest
  end.






(** A statement of [routes/rollback.ts] that is sent when [deletedTxIds] is
    not empty. *)
Definition if_nonempty (ids : list string) (stmt : Statement) : list Statement :=
  if bool_decide (0 < length ids)%nat then [stmt] else [].

(** [routes/rollback.ts], lines 19-72, on the tables [d], for the rows of
    the aggregate in the order the server returns them. *)
Definition rollback_statements (target : Z) (d : DB) (rows : list (string * Z))
    : list Statement :=
  let ids := deleted_tx_ids target d in
  [void (select_deleted_txs target)]
  ++ if_nonempty ids (resurrect_outputs ids)
  ++ if_nonempty ids (delete_outputs ids)
  ++ [delete_blocks target]
  ++ if_nonempty ids (delete_inputs ids)
  ++ [void select_unspent_balances; delete_balances]
  ++ map (fun row => insert_balance row.1 row.2) rows.


(** ** Histories without rollback

    What a history of accepted blocks that pay ordinary addresses
    maintains: the balances derive from the UTXO map, which holds ordinary
    addresses only, and the [balances] table has no row for an address
    without an entry in [state.balances]. *)
Record mirrored (s : AppState) (d : DB) : Prop := {
  mirror_derived : derived (utxos s, balances s);
  mirror_ordinary : ordinary_utxos (utxos s);
  mirror_rows : forall a, balances s !! a = None -> t_balances d !! a = None
}.

(** * Properties *)

(** Closed goals are settled by evaluation: a decidable proposition through
    its decision procedure, an equation by normalising both sides. *)
Ltac by_evaluation :=
  lazymatch goal with
  | |- @eq _ _ _ => vm_compute; exact eq_refl
  | |- ?G => refine (@bool_decide_unpack G _ _); vm_compute; exact I
  end.

(** ** SHA-256 test vectors *)

Example sha256_abc :
  sha256_hex "abc"
  = "ba7816bf8f01cfea414140de5dae2223b00361a396177a9cb410ff61f20015ad".
Proof. vm_compute. reflexivity. Qed.

Example sha256_empty :
  sha256_hex ""
  = "e3b0c44298fc1c149afbf4c8996fb92427ae41e4649b934ca495991b7852b855".
Proof. vm_compute. reflexivity. Qed.

Example sha256_two_chunks :
  sha256_hex "abcdbcdecdefdefgefghfghighijhijkijkljklmklmnlmnomnopnopq"
  = "248d6a61d20638b8e5c026930c3e6039a33ce45964ff2167f6ecedd419db06c1".
Proof. vm_compute. reflexivity. Qed.

Example sha256_block1 :
  sha256_hex "1tx1"
  = "d1582b9e2cac15e170c39ef2e85855ffd7e6a820550a8ca16a2f016d366503dc".
Proof. vm_compute. reflexivity. Qed.

(** ** The validator *)

Lemma sum_inputs_present u ins acc :
  Forall (input_present u) ins ->
  sum_inputs u ins acc = inr (acc + foldr (fun i a => input_value u i + a) 0 ins).
Proof.
  intros H. revert acc. induction H as [|i ins [o Ho] _ IH]; intros acc; simpl.
  - f_equal. lia.
  - unfold input_key in Ho. rewrite Ho, IH. unfold input_value, input_key.
    rewrite Ho. simpl. f_equal. lia.
Qed.

Lemma sum_inputs_missing u ins1 i ins2 acc :
  Forall (input_present u) ins1 -> ¬ input_present u i ->
  sum_inputs u (ins1 ++ i :: ins2) acc = inl (input_key i).
Proof.
  intros H Hi. revert acc. induction H as [|j ins [o Ho] _ IH]; intros acc; simpl.
  - unfold input_present, input_key in Hi.
    destruct (u !! utxo_key (txId i) (index i)) eqn:E; [|done].
    destruct Hi. by eexists.
  - unfold input_key in Ho. rewrite Ho. apply IH.
Qed.

Lemma sum_inputs_inr u ins acc v :
  sum_inputs u ins acc = inr v -> Forall (input_present u) ins.
Proof.
  revert acc. induction ins as [|i ins IH]; intros acc; simpl; [constructor|].
  destruct (u !! utxo_key (txId i) (index i)) eqn:E; [|done].
  intros H. constructor; [by eexists | by eapply IH].
Qed.

Lemma sum_outputs_out_sum t : sum_outputs (tx_outputs t) = out_sum t.
Proof.
  unfold sum_outputs, out_sum.
  assert (forall l acc, fold_left (fun a o => a + value o) l acc
                   = acc + foldr (fun o a => value o + a) 0 l) as H.
  { induction l as [|o l IH]; intros acc; simpl; [lia|]. rewrite IH. lia. }
  rewrite H. lia.
Qed.

Lemma check_transaction_None u t :
  check_transaction u t = None <-> tx_passes u t.
Proof.
  unfold check_transaction, tx_passes, conserves. split.
  - destruct (sum_inputs u (tx_inputs t) 0) as [k|v] eqn:E; [done|].
    pose proof (sum_inputs_inr _ _ _ _ E) as Hp.
    rewrite (sum_inputs_present _ _ _ Hp) in E. injection E as <-.
    rewrite sum_outputs_out_sum. unfold in_sum.
    case_bool_decide as Hne; case_bool_decide as Hlen; simpl; try done.
    + intros _. split; [done|]. left.
      destruct (tx_inputs t); [done | simpl in Hlen; lia].
    + intros _. split; [done|]. right. lia.
    + intros _. split; [done|]. right. lia.
  - intros [Hp Hc]. rewrite (sum_inputs_present _ _ _ Hp).
    rewrite sum_outputs_out_sum. unfold in_sum in Hc.
    destruct Hc as [-> | Hc].
    + simpl. rewrite andb_false_r. done.
    + rewrite (bool_decide_false (_ ≠ _)); [done|]. intros Hn. apply Hn. lia.
Qed.

Lemma check_transaction_missing u t ins1 i ins2 :
  tx_inputs t = ins1 ++ i :: ins2 ->
  Forall (input_present u) ins1 -> ¬ input_present u i ->
  check_transaction u t = Some (InputNotFound (input_key i)).
Proof.
  intros E H1 H2. unfold check_transaction.
  by rewrite E, (sum_inputs_missing _ _ _ _ _ H1 H2).
Qed.

Lemma check_transaction_mismatch u t :
  Forall (input_present u) (tx_inputs t) -> ¬ conserves u t ->
  check_transaction u t = Some ValueMismatch.
Proof.
  intros Hp Hc.
  destruct (check_transaction u t) as [r|] eqn:E.
  - unfold check_transaction in E. rewrite (sum_inputs_present _ _ _ Hp) in E.
    by case_match; simplify_eq.
  - apply check_transaction_None in E as [_ ?]. done.
Qed.

Lemma check_transactions_None u txs :
  check_transactions u txs = None <-> Forall (tx_passes u) txs.
Proof.
  induction txs as [|t txs IH]; simpl.
  - split; [constructor | done].
  - rewrite Forall_cons, <- IH, <- check_transaction_None.
    destruct (check_transaction u t); naive_solver.
Qed.

Lemma check_transactions_first u pre t post r :
  Forall (tx_passes u) pre -> check_transaction u t = Some r ->
  check_transactions u (pre ++ t :: post) = Some r.
Proof.
  intros H Hr. induction H as [|t' pre Ht' _ IH]; simpl.
  - by rewrite Hr.
  - apply check_transaction_None in Ht'. by rewrite Ht'.
Qed.

Lemma check_height_None s b : check_height s b = None <-> height_rule s b.
Proof.
  unfold check_height, height_rule.
  repeat case_bool_decide; split; try done; intros; try lia; intuition lia.
Qed.

Lemma check_height_Some s b r : check_height s b = Some r -> InvalidHeight r.
Proof.
  unfold check_height, InvalidHeight.
  repeat case_bool_decide; naive_solver.
Qed.

Lemma string_app_nil_r (s : string) : s +:+ "" = s.
Proof.
  induction s as [|a s IH]; [done|].
  change (String a (s +:+ "") = String a s). by rewrite IH.
Qed.

Lemma string_app_assoc (s1 s2 s3 : string) :
  (s1 +:+ s2) +:+ s3 = s1 +:+ (s2 +:+ s3).
Proof.
  induction s1 as [|a s1 IH]; [done|].
  change (String a ((s1 +:+ s2) +:+ s3) = String a (s1 +:+ (s2 +:+ s3))).
  by rewrite IH.
Qed.

Lemma dataToHash_hash_input b : dataToHash b = hash_input b.
Proof.
  unfold dataToHash, hash_input.
  generalize (pretty (blk_height b)) as p.
  induction (blk_transactions b) as [|t l IH]; intros p; simpl.
  - by rewrite string_app_nil_r.
  - by rewrite IH, string_app_assoc.
Qed.

Lemma check_block_id_None b : check_block_id b = None <-> blk_id b = expected_id b.
Proof.
  unfold check_block_id, expected_id. rewrite dataToHash_hash_input.
  case_bool_decide; naive_solver.
Qed.

Lemma validate_None s b :
  validate s b = None
  <-> height_rule s b /\ Forall (tx_passes (utxos s)) (blk_transactions b)
      /\ blk_id b = expected_id b.
Proof.
  unfold validate.
  rewrite <- check_height_None, <- check_transactions_None, <- check_block_id_None.
  destruct (check_height s b); [naive_solver|].
  destruct (check_transactions _ _); naive_solver.
Qed.

(** C2 (as amended).  The checks run in the order: height rule; then, for
    each transaction in submission order, the existence of each of its
    inputs followed by the conservation of that transaction; then the block
    identity.  The first check that fails gives the reply, and a block that
    passes them all is let through. *)
Theorem validation_order (s : AppState) (b : Block) :
  (¬ height_rule s b -> exists r, validate s b = Some r /\ InvalidHeight r)
  /\ (height_rule s b ->
      forall pre t post,
        blk_transactions b = pre ++ t :: post ->
        Forall (tx_passes (utxos s)) pre ->
        (forall ins1 i ins2,
            tx_inputs t = ins1 ++ i :: ins2 ->
            Forall (input_present (utxos s)) ins1 ->
            ¬ input_present (utxos s) i ->
            validate s b = Some (InputNotFound (input_key i)))
        /\ (Forall (input_present (utxos s)) (tx_inputs t) ->
            ¬ conserves (utxos s) t ->
            validate s b = Some ValueMismatch))
  /\ (height_rule s b ->
      Forall (tx_passes (utxos s)) (blk_transactions b) ->
      blk_id b ≠ expected_id b ->
      validate s b
      = Some (InvalidBlockId (expected_id b) (blk_id b) (hash_input b)))
  /\ (height_rule s b ->
      Forall (tx_passes (utxos s)) (blk_transactions b) ->
      blk_id b = expected_id b ->
      validate s b = None).
Proof.
  split; [|split; [|split]].
  - intros Hh. unfold validate.
    destruct (check_height s b) as [r|] eqn:E.
    + exists r. split; [done|]. by eapply check_height_Some.
    + by apply check_height_None in E.
  - intros Hh pre t post Htxs Hpre.
    apply check_height_None in Hh. unfold validate. rewrite Hh, Htxs.
    split.
    + intros ins1 i ins2 Hi H1 Hm.
      by rewrite (check_transactions_first _ _ _ _ _ Hpre
                    (check_transaction_missing _ _ _ _ _ Hi H1 Hm)).
    + intros Hp Hc.
      by rewrite (check_transactions_first _ _ _ _ _ Hpre
                    (check_transaction_mismatch _ _ Hp Hc)).
  - intros Hh Htx Hid. unfold validate.
    apply check_height_None in Hh as ->.
    apply check_transactions_None in Htx as ->.
    unfold check_block_id. rewrite dataToHash_hash_input.
    fold (expected_id b). by rewrite bool_decide_true.
  - intros Hh Htx Hid. apply validate_None. done.
Qed.

(** C6 (as amended). *)
Theorem intra_block_spend_rejected (s : AppState) (b : Block)
    (pre post : list Transaction) (t1 t2 : Transaction)
    (ins1 ins2 : list Input) (i : Input) (idx : nat) :
  height_rule s b ->
  blk_transactions b = pre ++ t2 :: post ->
  Forall (tx_passes (utxos s)) pre ->
  tx_inputs t2 = ins1 ++ i :: ins2 ->
  Forall (input_present (utxos s)) ins1 ->
  t1 ∈ blk_transactions b ->
  is_Some (tx_outputs t1 !! idx) ->
  txId i = tx_id t1 -> index i = Z.of_nat idx ->
  utxos s !! utxo_key (tx_id t1) (Z.of_nat idx) = None ->
  validate s b = Some (InputNotFound (utxo_key (tx_id t1) (Z.of_nat idx))).
Proof.
  intros Hh Htxs Hpre Hins Hins1 _ _ Htx Hidx Hnone.
  assert (¬ input_present (utxos s) i) as Hm.
  { unfold input_present, input_key. rewrite Htx, Hidx, Hnone.
    by intros [? ?]. }
  unfold validate. apply check_height_None in Hh as ->.
  rewrite Htxs, (check_transactions_first _ _ _ _ _ Hpre
                   (check_transaction_missing _ _ _ _ _ Hins Hins1 Hm)).
  unfold input_key. by rewrite Htx, Hidx.
Qed.

(** C2 (counterexample). *)
Lemma validation_order_counterexample :
  let s := (ledger [block1]).1 in
  let overdraw := mk_tx "tx2" [("tx1", 0)] [("bob", 50)] in
  let ghost := mk_tx "tx3" [("ghost", 0)] [] in
  let b := mk_block 2 [overdraw; ghost] in
  height_rule s b
  /\ Forall (input_present (utxos s)) (tx_inputs overdraw)
  /\ ¬ conserves (utxos s) overdraw
  /\ ¬ input_present (utxos s) {| txId := "ghost"; index := 0 |}
  /\ validate s b = Some ValueMismatch.
Proof.
  cbv zeta. split_and!; by_evaluation.
Qed.

(** C6 (counterexample). *)
Lemma intra_block_spend_counterexample :
  let s := (ledger [block1]).1 in
  let t1 := mk_tx "tx2" [("tx1", 0)] [("bob", 50)] in
  let t2 := mk_tx "tx3" [("tx2", 0)] [("carol", 50)] in
  let b := mk_block 2 [t1; t2] in
  height_rule s b
  /\ tx_outputs t1 !! 0%nat = Some {| address := "bob"; value := 50 |}
  /\ tx_inputs t2 = [{| txId := tx_id t1; index := 0 |}]
  /\ utxos s !! utxo_key (tx_id t1) 0 = None
  /\ validate s b = Some ValueMismatch.
Proof.
  cbv zeta. split_and!; by_evaluation.
Qed.

(** C6 (witness). *)
Lemma intra_block_spend_rejected_witness :
  validate init_state
    (mk_block 1 [mk_tx "tx2" [("tx1", 0)] [("bob", 10)];
                 mk_tx "tx1" [] [("alice", 10)]])
  = Some (InputNotFound "tx1:0").
Proof.
  apply (intra_block_spend_rejected init_state _ [] [mk_tx "tx1" [] [("alice", 10)]]
           (mk_tx "tx1" [] [("alice", 10)])
           (mk_tx "tx2" [("tx1", 0)] [("bob", 10)])
           [] [] {| txId := "tx1"; index := 0 |} 0%nat).
  - by_evaluation.
  - reflexivity.
  - constructor.
  - reflexivity.
  - constructor.
  - by_evaluation.
  - by_evaluation.
  - reflexivity.
  - reflexivity.
  - reflexivity.
Defined.

(** ** Statements and the connection *)

(** ** The statements of a handler *)

Lemma bind_unfold {A B} (m : Query A) (k : A -> Query B) c :
  (m ≫= k) c = match m c with (Some a, c') => k a c' | (None, c') => (None, c') end.
Proof. reflexivity. Qed.

Lemma mret_unfold {A} (a : A) c : (mret a : Query A) c = (Some a, c).
Proof. reflexivity. Qed.

Lemma bind_Some {A B} (m : Query A) (k : A -> Query B) c b c' :
  (m ≫= k) c = (Some b, c') ->
  exists a c1, m c = (Some a, c1) /\ k a c1 = (Some b, c').
Proof.
  rewrite bind_unfold. destruct (m c) as [[a|] c1]; [eauto | done].
Qed.

Lemma query_Some {A} (stmt : DB -> option (A * DB)) c a c' :
  query stmt c = (Some a, c') ->
  stmt (tables c) = Some (a, tables c') /\ fuse c' = Nat.pred <$> fuse c.
Proof.
  unfold query. destruct (fuse c) as [[|n]|] eqn:Ef; [done| |];
    destruct (stmt (tables c)) as [[a' d']|]; intros; simplify_eq; done.
Qed.

Lemma query_None {A} (stmt : DB -> option (A * DB)) c c' :
  query stmt c = (None, c') -> tables c' = tables c.
Proof.
  unfold query. destruct (fuse c) as [[|n]|] eqn:Ef;
    [by intros; simplify_eq| |];
    destruct (stmt (tables c)) as [[a' d']|]; intros; simplify_eq; done.
Qed.

Lemma query_healthy {A} (stmt : DB -> option (A * DB)) d :
  query stmt (connect d)
  = match stmt d with
    | Some (a, d') => (Some a, connect d')
    | None => (None, connect d)
    end.
Proof. reflexivity. Qed.

(** The three outcomes of a statement: the connection is down and nothing is
    sent; the server takes it; the server refuses it. *)
Lemma query_outcome {A} (stmt : DB -> option (A * DB)) c :
  (fuse c = Some O /\ query stmt c = (None, c))
  \/ (fuse c ≠ Some O
      /\ exists a d, stmt (tables c) = Some (a, d)
           /\ query stmt c = (Some a, {| tables := d; fuse := Nat.pred <$> fuse c |}))
  \/ (fuse c ≠ Some O /\ stmt (tables c) = None
      /\ query stmt c = (None, {| tables := tables c; fuse := Nat.pred <$> fuse c |})).
Proof.
  unfold query. destruct (fuse c) as [[|n]|] eqn:Ef.
  - left. by destruct c; simplify_eq/=.
  - right. destruct (stmt (tables c)) as [[a d]|]; [left|right]; naive_solver.
  - right. destruct (stmt (tables c)) as [[a d]|]; [left|right]; naive_solver.
Qed.

(** How far the connection got. *)
Definition spent_fuse (n : nat) (c c' : Conn) : Prop :=
  match fuse c with
  | None => fuse c' = None
  | Some f => exists f', f = (n + f')%nat /\ fuse c' = Some f'
  end.

Lemma spent_fuse_step n c c' c1 :
  fuse c ≠ Some O -> fuse c1 = Nat.pred <$> fuse c ->
  spent_fuse n c1 c' -> spent_fuse (S n) c c'.
Proof.
  unfold spent_fuse. intros H0 H1. rewrite H1.
  destruct (fuse c) as [[|f]|]; simpl; [done| |done].
  intros (f' & -> & ?). exists f'. split; [lia|done].
Qed.

Lemma spent_fuse_down n c c' :
  spent_fuse n c c' -> fuse c' = Some O -> fuse c = Some n.
Proof.
  unfold spent_fuse. destruct (fuse c) as [f|]; [|congruence].
  intros (f' & -> & E) E'. rewrite E in E'. simplify_eq. f_equal. lia.
Qed.

(** A sequence of statements: either all went through, or the tables are
    those that the statements before the failing one leave. *)
Lemma run_outcome stmts c :
  match run stmts c with
  | (Some _, c') =>
      commit stmts (tables c) = Some (tables c') /\ spent_fuse (length stmts) c c'
  | (None, c') =>
      exists n stmt, stmts !! n = Some stmt
        /\ commit (take n stmts) (tables c) = Some (tables c')
        /\ (fuse c = Some n \/ stmt (tables c') = None)
  end.
Proof.
  revert c. induction stmts as [|st rest IH]; intros c.
  { simpl. split; [done|]. unfold spent_fuse. destruct (fuse c); eauto. }
  cbn [run]. rewrite bind_unfold.
  destruct (query_outcome st c) as [[Hf ->]|[(Hf & [] & d & Hs & ->)|(Hf & Hs & ->)]].
  - exists O, st. simpl. auto.
  - specialize (IH {| tables := d; fuse := Nat.pred <$> fuse c |}).
    destruct (run rest _) as [[u|] c'].
    + destruct IH as [IH1 IH2]. simpl in IH1. simpl. rewrite Hs. split; [done|].
      by apply (spent_fuse_step _ c _ {| tables := d; fuse := Nat.pred <$> fuse c |} Hf).
    + destruct IH as (n & stmt & Hl & Hc & Hd). simpl in Hc, Hd.
      exists (S n), stmt. simpl. rewrite Hs. split_and!; [done..|].
      destruct Hd as [Hd|Hd]; [left|by right].
      destruct (fuse c) as [[|f]|]; simplify_eq/=; done.
  - exists O, st. simpl. auto.
Qed.









(** ** Failure of a block submission *)







(** ** The aggregate over the unspent outputs *)

Lemma add_row_comm k1 r1 k2 r2 (acc : gmap string Z) :
  add_row k1 r1 (add_row k2 r2 acc) = add_row k2 r2 (add_row k1 r1 acc).
Proof.
  unfold add_row. destruct (is_spent r1), (is_spent r2); try done.
  apply map_eq. intros a.
  destruct (decide (row_address r1 = row_address r2)) as [E|E].
  - rewrite E, !lookup_insert.
    rewrite !(decide_True (P := row_address r2 = row_address r2)) by done.
    case_decide; [simpl; f_equal; lia | done].
  - rewrite !lookup_insert, !(decide_False (P := row_address r2 = row_address r1)),
      !(decide_False (P := row_address r1 = row_address r2)) by done.
    repeat case_decide; simplify_eq; done.
Qed.

Lemma unspent_by_address_insert outs k r :
  outs !! k = None ->
  unspent_by_address (<[k := r]> outs) = add_row k r (unspent_by_address outs).
Proof.
  intros. unfold unspent_by_address.
  apply map_fold_insert_L; [|done]. intros. apply add_row_comm.
Qed.

Lemma unspent_sum_insert a outs k r :
  outs !! k = None ->
  unspent_sum a (<[k := r]> outs)
  = unspent_sum a outs
    + (if is_spent r then 0 else if bool_decide (row_address r = a) then row_value r else 0).
Proof.
  intros. unfold unspent_sum. rewrite map_fold_insert_L; [|intros|done].
  - repeat case_match; lia.
  - repeat case_match; lia.
Qed.

Lemma owns_unspent_insert outs k r a :
  outs !! k = None ->
  owns_unspent (<[k := r]> outs) a
  <-> (is_spent r = false /\ row_address r = a) \/ owns_unspent outs a.
Proof.
  intros Hk. unfold owns_unspent. split.
  - intros (k' & r' & Hl & Hs & Ha). rewrite lookup_insert in Hl.
    case_decide; simplify_eq; [by left | right; eauto].
  - intros [[Hs Ha] | (k' & r' & Hl & Hs & Ha)].
    + exists k, r. by rewrite lookup_insert_eq.
    + exists k', r'. rewrite lookup_insert_ne; [done|]. congruence.
Qed.

(** The aggregate has a row for an address exactly when the address owns an
    unspent output, and the row holds the sum of its unspent outputs. *)
Lemma unspent_by_address_spec outs a :
  (is_Some (unspent_by_address outs !! a) <-> owns_unspent outs a)
  /\ default 0 (unspent_by_address outs !! a) = unspent_sum a outs.
Proof.
  induction outs as [|k r outs Hk IH] using map_ind.
  - unfold unspent_by_address, unspent_sum. rewrite !map_fold_empty.
    split; [|done]. rewrite lookup_empty. split; [by intros [? ?]|].
    intros (k & r & Hl & _). by rewrite lookup_empty in Hl.
  - destruct IH as [IH1 IH2].
    rewrite unspent_by_address_insert, unspent_sum_insert, owns_unspent_insert by done.
    unfold add_row. destruct (is_spent r) eqn:Es.
    + split; [rewrite IH1; naive_solver | lia].
    + rewrite lookup_insert.
      case_decide as Ha; [subst a|].
      * rewrite bool_decide_true by done. split; [|simpl; lia].
        split; [by left | by eexists].
      * rewrite bool_decide_false by done. split; [|lia].
        rewrite IH1. naive_solver.
Qed.

Lemma unspent_by_address_lookup outs a z :
  unspent_by_address outs !! a = Some z
  <-> owns_unspent outs a /\ z = unspent_sum a outs.
Proof.
  destruct (unspent_by_address_spec outs a) as [H1 H2]. split.
  - intros E. rewrite E in H1, H2. simpl in H2. split; [by apply H1|done].
  - intros [[z' E]%H1 ->]. rewrite E in H2. simpl in H2. by subst.
Qed.

(** ** The statements of a rollback *)

Lemma spent_by_nil ins k : spent_by ins [] k = false.
Proof.
  unfold spent_by. induction ins as [|r ins IH]; [done|].
  cbn [existsb]. rewrite IH, (bool_decide_false (_ ∈ [])); [done|].
  apply not_elem_of_nil.
Qed.

Lemma resurrect_outputs_nil d : exec (resurrect_outputs []) d = d.
Proof.
  unfold exec, resurrect_outputs. destruct d as [bl tx ins outs bal]; simpl.
  f_equal. apply map_eq. intros k. rewrite map_lookup_imap.
  destruct (outs !! k); simpl; [|done]. by rewrite spent_by_nil.
Qed.

Lemma delete_outputs_nil d : exec (delete_outputs []) d = d.
Proof.
  unfold exec, delete_outputs. destruct d; simpl. f_equal.
  apply map_filter_id. intros. apply not_elem_of_nil.
Qed.

Lemma delete_inputs_nil d : exec (delete_inputs []) d = d.
Proof.
  unfold exec, delete_inputs. destruct d as [bl tx ins outs bal]; simpl.
  f_equal. induction ins as [|r l IH]; [done|].
  rewrite filter_cons_True; [by rewrite IH | apply not_elem_of_nil].
Qed.

Lemma when_nonempty_Some ids (stmt : DB -> option (unit * DB)) c u c' :
  (ids = [] -> forall d, exec stmt d = d) ->
  when_nonempty ids (query stmt) c = (Some u, c') ->
  tables c' = exec stmt (tables c).
Proof.
  intros Hnil. unfold when_nonempty. case_bool_decide as Hl.
  - intros [Hq _]%query_Some. unfold exec. by rewrite Hq.
  - rewrite mret_unfold. intros ?; simplify_eq.
    rewrite Hnil; [done|]. destruct ids; [done | simpl in Hl; lia].
Qed.

Lemma insert_balances_Some rows acc c nb c' :
  insert_balances rows acc c = (Some nb, c') ->
  nb = collect acc rows
  /\ t_balances (tables c') = foldl (fun m r => <[r.1 := r.2]> m) (t_balances (tables c)) rows
  /\ t_blocks (tables c') = t_blocks (tables c)
  /\ t_transactions (tables c') = t_transactions (tables c)
  /\ t_inputs (tables c') = t_inputs (tables c)
  /\ t_outputs (tables c') = t_outputs (tables c)
  /\ Forall (fun r => int4 r.2 = true) rows.
Proof.
  revert acc c. induction rows as [|[a v] rows IH]; intros acc c; simpl.
  - rewrite mret_unfold. intros ?; simplify_eq. done.
  - intros (u & c1 & Hq & Hk)%bind_Some.
    apply query_Some in Hq as [Hq _]. unfold insert_balance in Hq.
    destruct (int4 v) eqn:Ev; simpl in Hq; [|done].
    case_bool_decide; simplify_eq.
    apply IH in Hk as (-> & -> & -> & -> & -> & -> & HF).
    rewrite <- H1. simpl. repeat split; try done. by constructor.
Qed.

Lemma foldl_insert_list_to_map (rows : list (string * Z)) :
  NoDup rows.*1 ->
  foldl (fun m r => <[r.1 := r.2]> m) (∅ : gmap string Z) rows = list_to_map rows.
Proof.
  assert (forall (acc : gmap string Z),
    NoDup rows.*1 ->
    foldl (fun m r => <[r.1 := r.2]> m) acc rows = list_to_map rows ∪ acc) as H.
  { induction rows as [|[a v] rows IH]; intros acc Hnd; simpl.
    - by rewrite (left_id_L ∅ (∪)).
    - apply NoDup_cons in Hnd as [Ha Hnd]. rewrite IH by done.
      apply map_eq. intros a'. rewrite !lookup_union, !lookup_insert.
      case_decide; [subst a'|done].
      rewrite (not_elem_of_list_to_map_1 _ _ Ha). simpl.
      by destruct (acc !! a). }
  intros Hnd. rewrite H by done. by rewrite (right_id_L ∅ (∪)).
Qed.

Lemma obj_set_lookup bal a v a' :
  obj_set bal a v !! a'
  = if bool_decide (a = "__proto__") then bal !! a'
    else if decide (a = a') then Some v else bal !! a'.
Proof.
  unfold obj_set. case_bool_decide; [done|]. by rewrite lookup_insert.
Qed.

(** The properties of [newBalances]: one per row of the aggregate, but for
    the row of the address [__proto__]. *)
Lemma collect_lookup (rows : list (string * Z)) a :
  NoDup rows.*1 ->
  collect ∅ rows !! a
  = if decide (a = "__proto__") then None
    else (fun z => VStr (pretty z)) <$> (list_to_map rows : gmap string Z) !! a.
Proof.
  assert (forall acc, NoDup rows.*1 ->
    collect acc rows !! a
    = match (list_to_map rows : gmap string Z) !! a with
      | Some z => if decide (a = "__proto__") then acc !! a
                  else Some (VStr (pretty z))
      | None => acc !! a
      end) as H.
  { unfold collect.
    induction rows as [|[a' v] rows IH]; intros acc Hnd; simpl; [done|].
    apply NoDup_cons in Hnd as [Ha Hnd]. rewrite IH by done.
    rewrite lookup_insert. rewrite obj_set_lookup. simpl.
    destruct (decide (a' = a)) as [->|Hne].
    - rewrite (not_elem_of_list_to_map_1 _ _ Ha).
      case_bool_decide; case_decide; done.
    - destruct (list_to_map rows !! a); [case_decide|]; try done;
        by case_bool_decide. }
  intros Hnd. rewrite H by done. rewrite lookup_empty.
  destruct (list_to_map rows !! a); simpl; by case_decide.
Qed.

Lemma rollback_store_Some target c nb c' :
  rollback_store target c = (Some nb, c') ->
  tables c' = rollback_tables target (tables c)
  /\ nb = new_balances (t_balances (tables c'))
  /\ map_Forall (fun _ v => int4 v = true) (t_balances (tables c')).
Proof.
  unfold rollback_store.
  intros (ids & c1 & [Hq _]%query_Some & H)%bind_Some.
  unfold select_deleted_txs in Hq. injection Hq as Hids Hd1.
  fold (deleted_tx_ids target (tables c)) in Hids.
  apply bind_Some in H as (u2 & c2 & H2 & H).
  apply when_nonempty_Some in H2;
    [|intros ->; apply resurrect_outputs_nil].
  apply bind_Some in H as (u3 & c3 & H3 & H).
  apply when_nonempty_Some in H3; [|intros ->; apply delete_outputs_nil].
  apply bind_Some in H as (u4 & c4 & [H4 _]%query_Some & H).
  apply bind_Some in H as (u5 & c5 & H5 & H).
  apply when_nonempty_Some in H5; [|intros ->; apply delete_inputs_nil].
  apply bind_Some in H as (rows & c6 & [H6 _]%query_Some & H).
  apply bind_Some in H as (u7 & c7 & [H7 _]%query_Some & H).
  apply insert_balances_Some in H as (Hnb & Hb & Hbl & Htx & Hin & Hout & Hint).
  unfold select_unspent_balances in H6. injection H6 as Hrows Hd6.
  unfold delete_balances in H7. injection H7 as _ Hd7.
  rewrite <- Hd7 in Hb, Hbl, Htx, Hin, Hout. simpl in Hb, Hbl, Htx, Hin, Hout.
  rewrite <- Hd6 in Hbl, Htx, Hin, Hout.
  assert (tables c4 = exec (delete_blocks target) (tables c3)) as E4.
  { unfold exec. by rewrite H4. }
  assert (NoDup rows.*1) as Hnd by (subst rows; apply NoDup_fst_map_to_list).
  rewrite foldl_insert_list_to_map in Hb by done.
  assert (tables c5 = exec (delete_inputs ids)
              (exec (delete_blocks target)
                 (exec (delete_outputs ids)
                    (exec (resurrect_outputs ids) (tables c))))) as E5.
  { rewrite H5, E4, H3, H2, Hd1. done. }
  split; [|split].
  - unfold rollback_tables. rewrite Hids, <- E5.
    subst rows. rewrite list_to_map_to_list in Hb.
    destruct (tables c'); simpl in *. by subst.
  - apply map_eq. intros a. rewrite Hnb, collect_lookup, Hb by done.
    unfold new_balances. rewrite lookup_fmap, lookup_delete.
    by case_decide; case_decide.
  - rewrite Hb. subst rows. rewrite list_to_map_to_list.
    intros a v Hl. apply elem_of_map_to_list in Hl.
    rewrite Forall_forall in Hint. by apply (Hint (a, v)).
Qed.

Lemma query_void {A} (stmt : DB -> option (A * DB)) c :
  query (void stmt) c
  = match query stmt c with
    | (Some _, c') => (Some tt, c')
    | (None, c') => (None, c')
    end.
Proof.
  unfold query, void. destruct (fuse c) as [[|n]|]; [done| |];
    by destruct (stmt (tables c)) as [[a d]|].
Qed.

Lemma if_nonempty_run ids stmt rest c :
  run (if_nonempty ids stmt ++ rest) c
  = (when_nonempty ids (query stmt);; run rest) c.
Proof.
  unfold if_nonempty, when_nonempty. case_bool_decide; [done|].
  by rewrite bind_unfold, mret_unfold.
Qed.

Lemma insert_balances_run rows acc c :
  run (map (fun row => insert_balance row.1 row.2) rows) c
  = match insert_balances rows acc c with
    | (Some _, c') => (Some tt, c')
    | (None, c') => (None, c')
    end.
Proof.
  revert acc c. induction rows as [|[a z] rows IH]; intros acc c; [done|].
  cbn [insert_balances map run]. rewrite !bind_unfold. simpl.
  destruct (query _ c) as [[u|] c1]; [|done]. apply IH.
Qed.

(** The rewinder sends the statements of [rollback_statements], computed on
    the tables it finds. *)
Lemma rollback_store_run target c :
  run (rollback_statements target (tables c)
         (map_to_list (t_balances (rollback_tables target (tables c))))) c
  = match rollback_store target c with
    | (Some _, c') => (Some tt, c')
    | (None, c') => (None, c')
    end.
Proof.
  unfold rollback_statements, rollback_store.
  cbn [app run]. rewrite !bind_unfold, query_void.
  destruct (query (select_deleted_txs target) c) as [[ids|] c1] eqn:E1; [|done].
  apply query_Some in E1 as [E1 _]. unfold select_deleted_txs in E1.
  injection E1 as Hids Hd1. fold (deleted_tx_ids target (tables c)) in Hids.
  rewrite Hids. rewrite if_nonempty_run, !bind_unfold.
  destruct (when_nonempty ids (query (resurrect_outputs ids)) c1)
    as [[u2|] c2] eqn:E2; [|done].
  apply when_nonempty_Some in E2; [|intros ->; apply resurrect_outputs_nil].
  rewrite if_nonempty_run, !bind_unfold.
  destruct (when_nonempty ids (query (delete_outputs ids)) c2)
    as [[u3|] c3] eqn:E3; [|done].
  apply when_nonempty_Some in E3; [|intros ->; apply delete_outputs_nil].
  cbn [app run]. rewrite !bind_unfold.
  destruct (query (delete_blocks target) c3) as [[u4|] c4] eqn:E4; [|done].
  apply query_Some in E4 as [E4 _].
  rewrite if_nonempty_run, !bind_unfold.
  destruct (when_nonempty ids (query (delete_inputs ids)) c4)
    as [[u5|] c5] eqn:E5; [|done].
  apply when_nonempty_Some in E5; [|intros ->; apply delete_inputs_nil].
  cbn [app run]. rewrite !bind_unfold, query_void.
  destruct (query select_unspent_balances c5) as [[rows|] c6] eqn:E6; [|done].
  apply query_Some in E6 as [E6 _]. unfold select_unspent_balances in E6.
  injection E6 as Hrows Hd6. rewrite !bind_unfold.
  destruct (query delete_balances c6) as [[u7|] c7]; [|done].
  assert (tables c5 = exec (delete_inputs ids)
              (exec (delete_blocks target)
                 (exec (delete_outputs ids)
                    (exec (resurrect_outputs ids) (tables c))))) as E.
  { assert (tables c4 = exec (delete_blocks target) (tables c3)) as E4'
      by (unfold exec; by rewrite E4).
    rewrite E5, E4', E3, E2, Hd1. done. }
  unfold rollback_tables. rewrite Hids, <- E. cbn [t_balances]. rewrite Hrows.
  apply insert_balances_run.
Qed.

(** ** Failure of a rollback *)

(** C4 (as amended).  [POST /rollback] opens no store transaction: its
    statements are committed one by one and none is undone.  A rollback that
    fails leaves the in-memory state as it was.  If one of the two guards
    rejects it, no statement is sent.  Otherwise the reply is 500 'Rollback
    failed': when the target is not an integer the statement that carries
    it is refused and the tables are unchanged; when it is, the rollback
    failed at one statement of its sequence (the rows of the aggregate
    being inserted in the order they are returned), either because the
    connection was down or because the server refused it, and the tables it
    leaves are those of the statements before that one, applied in order to
    the tables it found. *)
Theorem rollback_failure (s s' : AppState) (c c' : Conn) (t : number) (r : Reply) :
  post_rollback s c t = (r, s', c') ->
  accepted r = false ->
  s' = s
  /\ ((r = InvalidHeightParam \/ r = TargetAboveHead) /\ c' = c
      \/ r = RollbackFailed
         /\ match int4_param t with
            | None => tables c' = tables c
            | Some target =>
                exists rows n stmt,
                  let stmts := rollback_statements target (tables c) rows in
                  rows ≡ₚ map_to_list
                            (t_balances (rollback_tables target (tables c)))
                  /\ stmts !! n = Some stmt
                  /\ commit (take n stmts) (tables c) = Some (tables c')
                  /\ (fuse c = Some n \/ stmt (tables c') = None)
            end).
Proof.
  unfold post_rollback. intros H Hr.
  destruct (negb (isFinite t) || num_lt t 1); [simplify_eq; auto|].
  destruct (num_gt t (currentHeight s)); [simplify_eq; auto|].
  destruct (int4_param t) as [target|].
  - pose proof (rollback_store_run target c) as Hrun.
    pose proof (run_outcome
                  (rollback_statements target (tables c)
                     (map_to_list (t_balances (rollback_tables target (tables c)))))
                  c) as Ho.
    destruct (rollback_store target c) as [[nb|] c1]; simplify_eq/=.
    split; [done|]. right. split; [done|].
    rewrite Hrun in Ho. destruct Ho as (n & stmt & Ho).
    by exists (map_to_list (t_balances (rollback_tables target (tables c)))),
              n, stmt.
  - simplify_eq. split; [done|]. right. split; [done|].
    set (q := query bad_parameter c). assert (q.1 = None) as Hq.
    { subst q. unfold query, bad_parameter. by repeat case_match. }
    destruct q as [o c1] eqn:Eq. simpl in Hq. subst o.
    apply (query_None _ _ _ Eq).
Qed.

(** C4 (witness): the connection fails at the fourth statement. *)
Lemma rollback_failure_witness :
  let sd := ledger [block1; block2; block3] in
  let c := {| tables := sd.2; fuse := Some 3%nat |} in
  let o := post_rollback sd.1 c (of_int 2) in
  o.1.2 = sd.1
  /\ ((o.1.1 = InvalidHeightParam \/ o.1.1 = TargetAboveHead) /\ o.2 = c
      \/ o.1.1 = RollbackFailed
         /\ match int4_param (of_int 2) with
            | None => tables o.2 = tables c
            | Some target =>
                exists rows n stmt,
                  let stmts := rollback_statements target (tables c) rows in
                  rows ≡ₚ map_to_list
                            (t_balances (rollback_tables target (tables c)))
                  /\ stmts !! n = Some stmt
                  /\ commit (take n stmts) (tables c) = Some (tables o.2)
                  /\ (fuse c = Some n \/ stmt (tables o.2) = None)
            end).
Proof.
  cbv zeta. apply (rollback_failure _ _ _ _ (of_int 2) _).
  - rewrite <- !surjective_pairing. reflexivity.
  - by_evaluation.
Defined.

(** C4 (counterexample): the outputs of the third block are deleted, its
    block row is not. *)
Lemma rollback_atomicity_counterexample :
  let sd := ledger [block1; block2; block3] in
  let o := post_rollback sd.1 {| tables := sd.2; fuse := Some 3%nat |} (of_int 2) in
  o.1.1 = RollbackFailed
  /\ is_Some (t_outputs sd.2 !! ("tx3", 0))
  /\ t_outputs (tables o.2) !! ("tx3", 0) = None
  /\ t_blocks (tables o.2) !! blk_id block3 = Some 3
  /\ currentHeight o.1.2 = 3.
Proof. cbv zeta. split_and!; by_evaluation. Qed.

(** C5 (the failing input). *)
Theorem rollback_fractional_target :
  let sd := ledger [block1; block2; block3] in
  post_rollback sd.1 (connect sd.2) (Finite (3 # 2))
  = (RollbackFailed, sd.1, connect sd.2).
Proof. cbv zeta. by_evaluation. Qed.

(** ** Balances after a rollback *)




(** ** Keys of the UTXO map *)

Lemma colon_free_app_colon s p : colon_free (s +:+ String ":" p) = false.
Proof.
  induction s as [|c s IH]; [done|].
  change (negb (Ascii.eqb c ":") && colon_free (s +:+ String ":" p) = false).
  by rewrite IH, andb_false_r.
Qed.

Lemma pretty_N_char_colon x : Ascii.eqb (pretty_N_char x) ":" = false.
Proof. unfold pretty_N_char. by repeat case_match. Qed.

Lemma pretty_N_go_colon_free x s :
  colon_free s = true -> colon_free (pretty_N_go x s) = true.
Proof.
  revert s. induction (N.lt_wf_0 x) as [x _ IH]; intros s Hs.
  destruct (decide (x = 0)%N) as [->|Hx]; [by rewrite pretty_N_go_0|].
  rewrite pretty_N_go_step by lia. apply IH.
  - apply N.div_lt; lia.
  - simpl. by rewrite pretty_N_char_colon, Hs.
Qed.

Lemma pretty_Z_colon_free (z : Z) : colon_free (pretty z) = true.
Proof.
  assert (forall n : N, colon_free (pretty n) = true) as HN.
  { intros n. unfold pretty, pretty_N. case_decide; [done|].
    by apply pretty_N_go_colon_free. }
  destruct z as [|p|p]; [done| apply (HN (Npos p)) |].
  change (colon_free (String "-" (pretty (Npos p))) = true).
  simpl. apply (HN (Npos p)).
Qed.

Lemma colon_split s1 s2 p1 p2 :
  colon_free p1 = true -> colon_free p2 = true ->
  s1 +:+ String ":" p1 = s2 +:+ String ":" p2 -> s1 = s2 /\ p1 = p2.
Proof.
  intros H1 H2. revert s2. induction s1 as [|c s1 IH]; intros [|c' s2] E.
  - by injection E as ->.
  - injection E as <- ->. by rewrite colon_free_app_colon in H1.
  - injection E as -> <-. by rewrite colon_free_app_colon in H2.
  - injection E as -> E. apply IH in E as [-> ->]. done.
Qed.

Lemma utxo_key_inj x1 i1 x2 i2 :
  utxo_key x1 i1 = utxo_key x2 i2 -> x1 = x2 /\ i1 = i2.
Proof.
  unfold utxo_key. intros E.
  apply colon_split in E as [-> E]; try apply pretty_Z_colon_free.
  split; [done|]. by apply (inj pretty).
Qed.

#[global] Instance row_key_inj : Inj (=) (=) row_key.
Proof.
  intros [x1 i1] [x2 i2] E. unfold row_key in E. simpl in E.
  apply utxo_key_inj in E as [-> ->]. done.
Qed.

(** ** Sums by address *)

Lemma sum_for_empty a : sum_for a ∅ = 0.
Proof. unfold sum_for. by rewrite map_fold_empty. Qed.

Lemma sum_for_insert a u k o :
  u !! k = None ->
  sum_for a (<[k := o]> u)
  = sum_for a u + (if bool_decide (address o = a) then value o else 0).
Proof.
  intros. unfold sum_for. rewrite map_fold_insert_L; [|intros|done].
  - case_bool_decide; lia.
  - repeat case_bool_decide; lia.
Qed.

Lemma sum_for_delete a u k o :
  u !! k = Some o ->
  sum_for a (delete k u)
  = sum_for a u - (if bool_decide (address o = a) then value o else 0).
Proof.
  intros Hk. rewrite <- (insert_delete_id u k o) at 2 by done.
  rewrite sum_for_insert by apply lookup_delete_eq. lia.
Qed.

(** ** The rebuild of a rollback *)

Lemma rebuild_input_spend m i : rebuild_input m i = spend_input m i.
Proof.
  unfold rebuild_input, spend_input.
  destruct (m.1 !! utxo_key (txId i) (index i)) eqn:E; [done|].
  rewrite delete_id by done. by destruct m.
Qed.

Lemma fold_left_ext {A B} (f g : A -> B -> A) l a :
  (forall a b, f a b = g a b) -> fold_left f l a = fold_left g l a.
Proof. intros H. revert a. induction l; intros; simpl; [done|]. by rewrite H. Qed.

Lemma rebuild_block_apply m b : rebuild_block m b = apply_block m b.
Proof.
  unfold rebuild_block, apply_block. apply fold_left_ext. intros m' t.
  unfold rebuild_transaction, apply_transaction. f_equal.
  apply fold_left_ext, rebuild_input_spend.
Qed.

Lemma rebuild_fold bs : rebuild bs = fold_left apply_block bs (∅, ∅).
Proof. unfold rebuild. apply fold_left_ext, rebuild_block_apply. Qed.

(** ** The store's view of the UTXO set *)

Lemma utxo_view_lookup outs k :
  utxo_view outs !! row_key k = outs !! k ≫= unspent_output.
Proof.
  unfold utxo_view. rewrite (lookup_kmap row_key), lookup_omap. done.
Qed.

Lemma utxo_view_empty : utxo_view ∅ = ∅.
Proof. unfold utxo_view. by rewrite omap_empty, (kmap_empty row_key). Qed.

Lemma utxo_view_spend outs k :
  utxo_view (alter (set_spent true) k outs) = delete (row_key k) (utxo_view outs).
Proof.
  unfold utxo_view. rewrite <- (kmap_delete row_key). f_equal.
  apply map_eq. intros k'. rewrite lookup_omap, lookup_alter, lookup_delete.
  case_decide; [subst k'|by rewrite lookup_omap].
  by destruct (outs !! k).
Qed.

Lemma utxo_view_insert outs k o :
  utxo_view (<[k := {| row_address := address o; row_value := value o;
                        is_spent := false |}]> outs)
  = <[row_key k := o]> (utxo_view outs).
Proof.
  unfold utxo_view. rewrite <- (kmap_insert row_key). f_equal.
  rewrite (omap_insert_Some _ _ _ _ o); [done|]. by destruct o.
Qed.

Lemma sum_for_view a outs : sum_for a (utxo_view outs) = unspent_sum a outs.
Proof.
  induction outs as [|k r outs Hk IH] using map_ind.
  - rewrite utxo_view_empty, sum_for_empty. unfold unspent_sum.
    by rewrite map_fold_empty.
  - rewrite unspent_sum_insert by done. rewrite <- IH.
    unfold utxo_view. rewrite omap_insert. unfold unspent_output at 1.
    destruct (is_spent r).
    + rewrite delete_id; [lia|]. by rewrite lookup_omap, Hk.
    + rewrite (kmap_insert row_key), sum_for_insert; [done|].
      fold (utxo_view outs). change (row_key k) with (row_key k).
      by rewrite utxo_view_lookup, Hk.
Qed.

(** ** The statements of a block submission *)

Ltac query_step H :=
  let u := fresh "u" in let c := fresh "c" in let Hq := fresh "Hq" in
  apply bind_Some in H as (u & c & Hq & H);
  apply query_Some in Hq as [Hq _].

(** The guard of a statement held. *)
Ltac guarded H E :=
  match type of H with
  | (if ?g then _ else _) = _ => destruct g eqn:E; [|discriminate H]
  | match ?g with Some _ => _ | None => _ end = _ =>
      destruct g eqn:E; [|discriminate H]
  end.

Lemma write_inputs_Some tx ins c u c' :
  write_inputs tx ins c = (Some u, c') ->
  tables c' =
  {| t_blocks := t_blocks (tables c);
     t_transactions := t_transactions (tables c);
     t_inputs := t_inputs (tables c) ++
       map (fun i => {| in_tx_id := tx; spent_utxo_txid := txId i;
                        spent_utxo_index := index i |}) ins;
     t_outputs := fold_left spend_row ins (t_outputs (tables c));
     t_balances := t_balances (tables c) |}.
Proof.
  revert c. induction ins as [|i ins IH]; intros c H.
  - simpl in H. rewrite mret_unfold in H. simplify_eq.
    simpl. rewrite app_nil_r. by destruct (tables c').
  - cbn [write_inputs] in H. query_step H. query_step H.
    apply IH in H. rewrite H. clear H IH.
    unfold insert_input in Hq. unfold mark_spent in Hq0.
    guarded Hq E1. guarded Hq0 E2.
    injection Hq as _ Hq. injection Hq0 as _ Hq0.
    rewrite <- Hq0. simpl. rewrite <- Hq. simpl.
    rewrite <- app_assoc. done.
Qed.

Lemma write_outputs_Some tx idx os c u c' :
  write_outputs tx idx os c = (Some u, c') ->
  tables c' =
  {| t_blocks := t_blocks (tables c);
     t_transactions := t_transactions (tables c);
     t_inputs := t_inputs (tables c);
     t_outputs := add_rows tx idx os (t_outputs (tables c));
     t_balances := t_balances (tables c) |}
  /\ rows_fresh tx idx os (t_outputs (tables c)).
Proof.
  revert idx c. induction os as [|o os IH]; intros idx c H.
  - simpl in H. rewrite mret_unfold in H. simplify_eq.
    simpl. by destruct (tables c').
  - cbn [write_outputs] in H. query_step H.
    apply IH in H as [H Hf]. clear IH.
    unfold insert_output in Hq.
    guarded Hq E. apply andb_prop in E as [_ Hk%bool_decide_eq_true].
    injection Hq as _ Hq. rewrite <- Hq in H, Hf. simpl in H, Hf.
    rewrite H. done.
Qed.

Lemma txs_after_lookup bid txs tt x :
  txs_after bid txs tt !! x
  = if bool_decide (x ∈ map tx_id txs) then Some bid else tt !! x.
Proof.
  unfold txs_after. revert tt.
  induction txs as [|t txs IH]; intros tt; cbn [fold_left].
  - rewrite bool_decide_false; [done|]. apply not_elem_of_nil.
  - rewrite IH, lookup_insert. cbn [map].
    repeat case_bool_decide; repeat case_decide; try done;
      rewrite ?elem_of_cons in *; naive_solver.
Qed.

Lemma write_transactions_Some bid txs c u c' :
  write_transactions bid txs c = (Some u, c') ->
  tables c' =
  {| t_blocks := t_blocks (tables c);
     t_transactions := txs_after bid txs (t_transactions (tables c));
     t_inputs := t_inputs (tables c) ++ flat_map input_rows txs;
     t_outputs := fold_left outputs_after_tx txs (t_outputs (tables c));
     t_balances := t_balances (tables c) |}
  /\ NoDup (map tx_id txs)
  /\ Forall (fun t => t_transactions (tables c) !! tx_id t = None) txs
  /\ txs_fresh txs (t_outputs (tables c)).
Proof.
  revert c. induction txs as [|t txs IH]; intros c H.
  - simpl in H. rewrite mret_unfold in H. simplify_eq.
    simpl. rewrite app_nil_r. split; [by destruct (tables c')|].
    split; [constructor|]. split; [constructor|done].
  - cbn [write_transactions] in H. query_step H.
    apply bind_Some in H as (u1 & c1 & Hin & H).
    apply bind_Some in H as (u2 & c2 & Hout & H).
    apply write_inputs_Some in Hin. apply write_outputs_Some in Hout as [Hout Hfr].
    apply IH in H as (H & Hnd & Hnew & Hfresh). clear IH.
    unfold insert_transaction in Hq. guarded Hq E.
    apply andb_prop in E as [[_ Hid%bool_decide_eq_true]%andb_prop
                               Hfk%bool_decide_eq_true].
    injection Hq as _ Hq.
    rewrite H, Hout, Hin, <- Hq in *. simpl in *. clear H Hout Hin Hq.
    split; [|split; [|split; [|split]]].
    + f_equal. unfold input_rows at 2. by rewrite <- app_assoc.
    + apply NoDup_cons. split; [|done]. intros Hin.
      apply list_elem_of_fmap in Hin as (t' & Ht' & Hin).
      rewrite Forall_forall in Hnew. specialize (Hnew _ Hin).
      rewrite <- Ht', lookup_insert_eq in Hnew. done.
    + constructor; [done|]. eapply Forall_impl; [exact Hnew|].
      intros t' Ht'. simpl in Ht'. rewrite lookup_insert in Ht'.
      by case_decide.
    + done.
    + done.
Qed.

Lemma write_block_Some b c u c' :
  write_block b c = (Some u, c') ->
  tables c' = tables_after_block (tables c) b /\ block_writable (tables c) b.
Proof.
  unfold write_block. intros H. query_step H.
  apply write_transactions_Some in H as (H & Hnd & Hnew & Hfresh).
  unfold insert_block in Hq. guarded Hq E.
  apply andb_prop in E as [[[_ Eint]%andb_prop Hid%bool_decide_eq_true]%andb_prop
                             Hh%bool_decide_eq_true].
  injection Hq as _ Hq.
  rewrite H, <- Hq in *. simpl in *. done.
Qed.

(** An entry of [state.balances] that the upsert takes. *)
Lemma upsert_balance_Some a v d u d' :
  upsert_balance a v d = Some (u, d') ->
  text_ok a = true
  /\ exists z, int4_value v = Some z
       /\ d' = {| t_blocks := t_blocks d; t_transactions := t_transactions d;
                 t_inputs := t_inputs d; t_outputs := t_outputs d;
                 t_balances := <[a := z]> (t_balances d) |}.
Proof.
  unfold upsert_balance. intros H. guarded H E. guarded H Ea.
  split; [done|]. exists z. split; [done|]. by simplify_eq.
Qed.

Lemma persist_balances_Some entries c u c' :
  persist_balances entries c = (Some u, c') ->
  same_rows (tables c') (tables c)
  /\ Forall (fun e => text_ok e.1 = true /\ is_Some (int4_value e.2)) entries.
Proof.
  revert c. induction entries as [|[a v] entries IH]; intros c H.
  - simpl in H. rewrite mret_unfold in H. by simplify_eq.
  - cbn [persist_balances] in H. query_step H.
    apply IH in H as [(H1 & H2 & H3 & H4) HF]. clear IH.
    apply upsert_balance_Some in Hq as (Ha & z & Hz & Hq).
    rewrite Hq in *. simpl in *.
    split; [done|]. constructor; [|done]. simpl. by rewrite Hz.
Qed.

(** ** The in-memory update against the rows written *)

(** No assignment gives [state.balances] a property [__proto__]. *)
Lemma obj_set_proto bal a v :
  bal !! "__proto__" = None -> obj_set bal a v !! "__proto__" = None.
Proof.
  intros H. rewrite obj_set_lookup. case_bool_decide; [done|].
  by rewrite decide_False.
Qed.

Lemma spend_inputs_proto ins m :
  m.2 !! "__proto__" = None ->
  (fold_left spend_input ins m).2 !! "__proto__" = None.
Proof.
  revert m. induction ins as [|i ins IH]; intros m H; [done|].
  simpl. apply IH. unfold spend_input. simpl.
  destruct (m.1 !! _); [by apply obj_set_proto | done].
Qed.

Lemma add_outputs_proto tx idx os m :
  m.2 !! "__proto__" = None ->
  (add_outputs tx idx os m).2 !! "__proto__" = None.
Proof.
  revert idx m. induction os as [|o os IH]; intros idx m H; [done|].
  simpl. apply IH. by apply obj_set_proto.
Qed.

Lemma apply_block_proto b m :
  m.2 !! "__proto__" = None -> (apply_block m b).2 !! "__proto__" = None.
Proof.
  unfold apply_block. generalize (blk_transactions b). intros txs. revert m.
  induction txs as [|t txs IH]; intros m H; [done|].
  simpl. apply IH. by apply add_outputs_proto, spend_inputs_proto.
Qed.

(** The view of the rows follows the in-memory update whatever the keys. *)
Lemma view_inputs ins u outs :
  u = utxo_view outs ->
  forall bal, (fold_left spend_input ins (u, bal)).1
         = utxo_view (fold_left spend_row ins outs).
Proof.
  revert u outs. induction ins as [|i ins IH]; intros u outs -> bal; [done|].
  simpl. unfold spend_input at 2. simpl. apply IH.
  unfold spend_row. by rewrite utxo_view_spend.
Qed.

Lemma view_outputs tx idx os m outs :
  m.1 = utxo_view outs ->
  (add_outputs tx idx os m).1 = utxo_view (add_rows tx idx os outs).
Proof.
  revert idx m outs. induction os as [|o os IH]; intros idx m outs Hv; [done|].
  simpl. apply IH. unfold unspent_row. rewrite utxo_view_insert. simpl.
  by rewrite Hv.
Qed.

Lemma view_txs txs m outs :
  m.1 = utxo_view outs ->
  (fold_left apply_transaction txs m).1
  = utxo_view (fold_left outputs_after_tx txs outs).
Proof.
  revert m outs. induction txs as [|t txs IH]; intros m outs Hv; [done|].
  simpl. apply IH. unfold apply_transaction, outputs_after_tx.
  apply view_outputs. destruct m as [u bal]. by apply view_inputs.
Qed.

Lemma view_blocks bs m outs :
  m.1 = utxo_view outs ->
  (fold_left apply_block bs m).1
  = utxo_view (fold_left outputs_after_block bs outs).
Proof.
  revert m outs. induction bs as [|b bs IH]; intros m outs Hv; [done|].
  simpl. apply IH. by apply view_txs.
Qed.

(** ** An accepted block *)

Lemma check_transactions_rejects u txs r :
  check_transactions u txs = Some r -> accepted r = false.
Proof.
  induction txs as [|t txs IH]; simpl; [done|].
  destruct (check_transaction u t) as [r'|] eqn:E; [|done].
  intros ?; simplify_eq. unfold check_transaction in E.
  repeat case_match; by simplify_eq.
Qed.

Lemma validate_rejects s b r : validate s b = Some r -> accepted r = false.
Proof.
  unfold validate.
  destruct (check_height s b) as [r'|] eqn:Eh.
  { intros ?; simplify_eq. by destruct (check_height_Some _ _ _ Eh) as [-> | ->]. }
  destruct (check_transactions _ _) as [r'|] eqn:Et.
  { intros ?; simplify_eq. by eapply check_transactions_rejects. }
  unfold check_block_id. case_bool_decide; [|done]. by intros ?; simplify_eq.
Qed.

(** ** Decimal texts *)

Lemma digit_pretty_N_char x :
  (x < 10)%N -> digit (pretty_N_char x) = Some (Z.of_N x).
Proof.
  intros H.
  assert (x = 0 \/ x = 1 \/ x = 2 \/ x = 3 \/ x = 4 \/ x = 5 \/ x = 6 \/ x = 7
          \/ x = 8 \/ x = 9)%N as Hx by lia.
  destruct_or!; subst x; by vm_compute.
Qed.

Lemma digits_pretty_N_go x :
  exists p, forall s acc,
    digits (pretty_N_go x s) acc = digits s (acc * p + Z.of_N x).
Proof.
  induction (N.lt_wf_0 x) as [x _ IH].
  destruct (decide (x = 0)%N) as [->|Hx].
  { exists 1. intros s acc. rewrite pretty_N_go_0. f_equal. lia. }
  destruct (IH (x `div` 10)%N) as [p Hp]; [apply N.div_lt; lia|].
  exists (10 * p). intros s acc. rewrite pretty_N_go_step by lia.
  rewrite Hp. cbn [digits]. rewrite digit_pretty_N_char by (apply N.mod_lt; lia).
  f_equal. rewrite N2Z.inj_div, N2Z.inj_mod. simpl Z.of_N.
  pose proof (Z.div_mod (Z.of_N x) 10). lia.
Qed.

Lemma digits_pretty_N (n : N) : digits (pretty n) 0 = Some (Z.of_N n).
Proof.
  unfold pretty, pretty_N. case_decide as Hn; [by subst|].
  destruct (digits_pretty_N_go n) as [p Hp]. rewrite Hp. simpl. f_equal.
Qed.

Lemma parse_int_digits s z :
  digits s 0 = Some z -> s ≠ "" -> parse_int s = Some z.
Proof.
  destruct s as [|c s]; [done|]. intros H _. unfold parse_int.
  destruct (Ascii.eqb_spec c "-") as [->|_]; [|done].
  by vm_compute in H.
Qed.

(** The text of an integer denotes that integer. *)
Lemma parse_int_pretty (z : Z) : parse_int (pretty z) = Some z.
Proof.
  destruct z as [|p|p].
  - done.
  - change (parse_int (pretty (Npos p)) = Some (Z.of_N (Npos p))).
    pose proof (digits_pretty_N (Npos p)) as H.
    apply parse_int_digits; [done|]. intros E. by rewrite E in H.
  - change (parse_int (String "-" (pretty (Npos p))) = Some (- Z.of_N (Npos p))).
    pose proof (digits_pretty_N (Npos p)) as H.
    cbn [parse_int]. rewrite Ascii.eqb_refl.
    destruct (pretty (Npos p)) as [|c s] eqn:E; [done|]. by rewrite H.
Qed.

Lemma int4_value_pretty z : int4 z = true -> int4_value (VStr (pretty z)) = Some z.
Proof. intros H. unfold int4_value, int4_text. by rewrite parse_int_pretty, H. Qed.

(** ** Texts without NUL *)

Lemma text_ok_app s1 s2 :
  text_ok (s1 +:+ s2) = text_ok s1 && text_ok s2.
Proof.
  induction s1 as [|c s1 IH]; [done|].
  change (negb (Ascii.eqb c "000") && text_ok (s1 +:+ s2)
          = negb (Ascii.eqb c "000") && text_ok s1 && text_ok s2).
  by rewrite IH, andb_assoc.
Qed.

Lemma text_ok_concat l :
  Forall (fun s => text_ok s = true) l -> text_ok (String.concat "" l) = true.
Proof.
  induction 1 as [|s l Hs Hl IH]; [done|].
  destruct l as [|s' l]; [done|].
  change (text_ok (s +:+ "" +:+ String.concat "" (s' :: l)) = true).
  by rewrite !text_ok_app, Hs, IH.
Qed.

Lemma hex_digit_ok x : Ascii.eqb (SHA256.hex_digit x) "000" = false.
Proof.
  destruct x as [|p|p]; [done| |done].
  do 4 (try destruct p as [p|p|]); done.
Qed.

(** A digest in hexadecimal holds no NUL. *)
Lemma text_ok_sha256 s : text_ok (sha256_hex s) = true.
Proof.
  unfold sha256_hex, SHA256.hex. apply text_ok_concat, Forall_fmap, Forall_forall.
  intros b _. simpl. by rewrite !hex_digit_ok.
Qed.

(** The strings of the block went through as [TEXT] parameters. *)
Lemma write_inputs_text tx ins c u c' :
  write_inputs tx ins c = (Some u, c') ->
  (ins ≠ [] -> text_ok tx = true)
  /\ Forall (fun i => text_ok (txId i) = true) ins.
Proof.
  revert c. induction ins as [|i ins IH]; intros c H; [by split|].
  cbn [write_inputs] in H. query_step H. query_step H.
  apply IH in H as [_ H]. unfold insert_input in Hq. guarded Hq E.
  apply andb_prop in E as [[[E1 E2]%andb_prop _]%andb_prop _].
  split; [done|]. by constructor.
Qed.

Lemma write_outputs_text tx idx os c u c' :
  write_outputs tx idx os c = (Some u, c') ->
  Forall (fun o => text_ok (address o) = true) os.
Proof.
  revert idx c. induction os as [|o os IH]; intros idx c H; [constructor|].
  cbn [write_outputs] in H. query_step H.
  apply IH in H. unfold insert_output in Hq. guarded Hq E.
  apply andb_prop in E as [[[[E1 E2]%andb_prop _]%andb_prop _]%andb_prop _].
  by constructor.
Qed.

Lemma write_transactions_text bid txs c u c' :
  write_transactions bid txs c = (Some u, c') -> Forall tx_text txs.
Proof.
  revert c. induction txs as [|t txs IH]; intros c H; [constructor|].
  cbn [write_transactions] in H. query_step H.
  apply bind_Some in H as (u1 & c1 & Hin & H).
  apply bind_Some in H as (u2 & c2 & Hout & H).
  apply write_inputs_text in Hin as [_ Hin]. apply write_outputs_text in Hout.
  apply IH in H. unfold insert_transaction in Hq. guarded Hq E.
  apply andb_prop in E as [[[E1 _]%andb_prop _]%andb_prop _].
  by constructor.
Qed.

Lemma write_block_text b c u c' :
  write_block b c = (Some u, c') -> Forall tx_text (blk_transactions b).
Proof.
  unfold write_block. intros H. query_step H.
  by apply write_transactions_text in H.
Qed.

(** The balances that the upserts took are in the table. *)
Lemma persist_balances_table entries c u c' :
  persist_balances entries c = (Some u, c') ->
  NoDup entries.*1 ->
  (forall a v, (a, v) ∈ entries ->
     text_ok a = true
     /\ exists z, int4_value v = Some z /\ t_balances (tables c') !! a = Some z)
  /\ (forall a, a ∉ entries.*1 ->
        t_balances (tables c') !! a = t_balances (tables c) !! a).
Proof.
  revert c. induction entries as [|[a v] entries IH]; intros c H Hnd.
  { simpl in H. rewrite mret_unfold in H. simplify_eq. split; [|done].
    by intros a v ?%elem_of_nil. }
  cbn [persist_balances] in H. query_step H.
  cbn [fmap list_fmap fst] in Hnd. apply NoDup_cons in Hnd as [Ha Hnd].
  destruct (IH _ H Hnd) as [IH1 IH2].
  apply upsert_balance_Some in Hq as (Hta & z & Hz & Hq).
  split.
  - intros a' v' [E|Hin]%elem_of_cons; [|by apply IH1].
    injection E as -> ->. split; [done|]. exists z. split; [done|].
    rewrite (IH2 _ Ha), Hq. simpl. apply lookup_insert_eq.
  - intros a' Ha'. cbn [fmap list_fmap fst] in Ha'.
    apply not_elem_of_cons in Ha' as [Hne Ha'].
    rewrite (IH2 _ Ha'), Hq. simpl. by apply lookup_insert_ne.
Qed.

Lemma post_blocks_accepted s c b h s' c' :
  post_blocks s c b = (BlockAccepted h, s', c') ->
  validate s b = None
  /\ h = blk_height b
  /\ s' = {| blocks := blocks s ++ [b]; currentHeight := blk_height b;
             balances := (apply_block (utxos s, balances s) b).2;
             utxos := (apply_block (utxos s, balances s) b).1 |}
  /\ block_writable (tables c) b
  /\ same_rows (tables c') (tables_after_block (tables c) b)
  /\ Forall tx_text (blk_transactions b)
  /\ stored (balances s') (tables c')
  /\ (forall a, balances s' !! a = None ->
        t_balances (tables c') !! a = t_balances (tables c) !! a).
Proof.
  unfold post_blocks. intros H.
  destruct (validate s b) as [r|] eqn:Ev.
  { apply validate_rejects in Ev. by simplify_eq. }
  destruct (write_block b c) as [[u|] c1] eqn:Ew; [|by simplify_eq].
  destruct (persist_balances _ c1) as [[u2|] c2] eqn:Ep; [|by simplify_eq].
  simplify_eq.
  pose proof (write_block_text _ _ _ _ Ew) as Htext.
  apply write_block_Some in Ew as [Ew Hw].
  pose proof (persist_balances_table _ _ _ _ Ep (NoDup_fst_map_to_list _))
    as [Htab Hrest].
  apply persist_balances_Some in Ep as [Hs Hint].
  rewrite <- Ew. split_and!; try done; try apply Hw; try apply Hs.
  - intros a v Hl. apply Htab. by apply elem_of_map_to_list.
  - cbn [balances]. intros a Ha. rewrite Hrest, Ew; [done|].
    intros [[a' v] [-> Hin]]%list_elem_of_fmap.
    apply elem_of_map_to_list in Hin. simpl in Ha. congruence.
Qed.

(** ** The rows of the journal, key by key *)

Lemma set_spent_twice b r : set_spent b (set_spent true r) = set_spent b r.
Proof. done. Qed.

Lemma spend_rows_lookup ins outs k :
  fold_left spend_row ins outs !! k
  = if decide (Exists (fun i => key_of i = k) ins)
    then set_spent true <$> outs !! k else outs !! k.
Proof.
  revert outs. induction ins as [|i ins IH]; intros outs.
  - cbn [fold_left]. case_decide as H; [by apply Exists_nil in H | done].
  - cbn [fold_left]. rewrite IH. unfold spend_row.
    rewrite lookup_alter. fold (key_of i).
    destruct (decide (key_of i = k)) as [Hi|Hi].
    + subst k. rewrite (decide_True (P := Exists _ (i :: ins))) by (by left).
      case_decide; [|done]. destruct (outs !! key_of i); done.
    + case_decide as He.
      * rewrite decide_True; [done|]. by right.
      * rewrite decide_False; [done|]. intros [?|?]%Exists_cons; done.
Qed.

Lemma add_rows_lookup_ne txid idx os outs k :
  k.1 ≠ txid -> add_rows txid idx os outs !! k = outs !! k.
Proof.
  intros Hk. revert idx outs. induction os as [|o os IH]; intros idx outs; [done|].
  simpl. rewrite IH, lookup_insert_ne; [done|]. intros <-. done.
Qed.

Lemma add_rows_lookup txid idx os outs z :
  add_rows txid idx os outs !! (txid, z)
  = if decide (Z.of_nat idx <= z < Z.of_nat idx + Z.of_nat (length os))
    then unspent_row <$> os !! (Z.to_nat z - idx)%nat
    else outs !! (txid, z).
Proof.
  revert idx outs. induction os as [|o os IH]; intros idx outs.
  - cbn [add_rows length]. case_decide; [lia|done].
  - cbn [add_rows length]. rewrite IH, lookup_insert.
    destruct (decide (z = Z.of_nat idx)) as [->|Hz].
    + rewrite decide_False by lia. rewrite decide_True by done.
      rewrite decide_True by lia. by rewrite Nat2Z.id, Nat.sub_diag.
    + rewrite (decide_False (P := (_, _) = (_, _))) by congruence.
      repeat case_decide; try lia; try done.
      replace (Z.to_nat z - idx)%nat with (S (Z.to_nat z - S idx)) by lia. done.
Qed.

Lemma txs_rows_old txs outs k :
  k.1 ∉ tx_ids txs ->
  fold_left outputs_after_tx txs outs !! k
  = if decide (references txs k) then set_spent true <$> outs !! k else outs !! k.
Proof.
  revert outs. induction txs as [|t txs IH]; intros outs Hk.
  - cbn [fold_left]. case_decide as H; [by apply Exists_nil in H | done].
  - unfold tx_ids in Hk. cbn [map] in Hk. apply not_elem_of_cons in Hk as [Ht Hk].
    cbn [fold_left]. rewrite IH by done. clear IH. unfold outputs_after_tx.
    rewrite add_rows_lookup_ne by done. rewrite spend_rows_lookup.
    assert (references (t :: txs) k
            <-> Exists (fun i => key_of i = k) (tx_inputs t) \/ references txs k)
      as Hcons by apply Exists_cons.
    destruct (decide (Exists (fun i => key_of i = k) (tx_inputs t))) as [Hi|Hi];
      destruct (decide (references txs k)) as [He|He].
    + rewrite decide_True by tauto. by destruct (outs !! k).
    + rewrite decide_True by tauto. done.
    + rewrite decide_True by tauto. done.
    + rewrite decide_False by tauto. done.
Qed.

Lemma txs_rows_txid txs outs k :
  is_Some (fold_left outputs_after_tx txs outs !! k) ->
  is_Some (outs !! k) \/ k.1 ∈ tx_ids txs.
Proof.
  destruct (decide (k.1 ∈ tx_ids txs)) as [?|Hk]; [by right|].
  rewrite txs_rows_old by done. intros H. left.
  case_decide; [|done]. by apply fmap_is_Some in H.
Qed.

Lemma references_app txs1 txs2 k :
  references (txs1 ++ txs2) k <-> references txs1 k \/ references txs2 k.
Proof. unfold references. apply Exists_app. Qed.

Lemma produces_app txs1 txs2 k o :
  produces (txs1 ++ txs2) k o <-> produces txs1 k o \/ produces txs2 k o.
Proof.
  unfold produces. split.
  - intros (t & j & [Ht|Ht]%elem_of_app & Ho & Hk); [left|right]; eauto.
  - intros [(t & j & Ht & Ho & Hk)|(t & j & Ht & Ho & Hk)];
      exists t, j; rewrite elem_of_app; eauto.
Qed.

Lemma produces_txid txs k o : produces txs k o -> k.1 ∈ tx_ids txs.
Proof.
  intros (t & j & Ht & _ & ->). simpl. unfold tx_ids.
  apply list_elem_of_fmap. eauto.
Qed.

(** The rows of new transactions: distinct ids, none of them in the rows
    so far, and no input that references them. *)
Lemma txs_rows_new txs outs k :
  NoDup (tx_ids txs) ->
  (forall k', is_Some (outs !! k') -> k'.1 ∉ tx_ids txs) ->
  (forall k', references txs k' -> k'.1 ∉ tx_ids txs) ->
  k.1 ∈ tx_ids txs ->
  forall r, fold_left outputs_after_tx txs outs !! k = Some r
       <-> exists o, produces txs k o /\ r = unspent_row o.
Proof.
  revert outs. induction txs as [|t txs IH]; intros outs Hnd Hold Href Hk r.
  { by apply elem_of_nil in Hk. }
  unfold tx_ids in *. cbn [map] in *. apply NoDup_cons in Hnd as [Ht Hnd].
  cbn [fold_left].
  assert (forall k', references txs k' -> k'.1 ∉ map tx_id txs) as Href'.
  { intros k' Hr. specialize (Href k'). rewrite not_elem_of_cons in Href.
    apply Href. by right. }
  destruct (decide (k.1 = tx_id t)) as [Hkt|Hkt].
  - (* a row of [t]: the later transactions leave it alone *)
    assert (k.1 ∉ tx_ids txs) as Hk' by (unfold tx_ids; by rewrite Hkt).
    rewrite txs_rows_old by done.
    rewrite decide_False.
    2:{ intros Hr. apply (Href k); [by right | rewrite Hkt; by left]. }
    unfold outputs_after_tx. destruct k as [x z]. simpl in Hkt. subst x.
    rewrite add_rows_lookup. simpl.
    assert (fold_left spend_row (tx_inputs t) outs !! (tx_id t, z) = None) as Hnone.
    { rewrite spend_rows_lookup.
      assert (outs !! (tx_id t, z) = None) as ->.
      { apply eq_None_not_Some. intros Hs. apply (Hold _ Hs). by left. }
      by case_decide. }
    split.
    + case_decide as Hz; [|by rewrite Hnone].
      intros Hr. apply fmap_Some in Hr as (o & Ho & ->).
      exists o. split; [|done]. exists t, (Z.to_nat z - 0)%nat.
      split; [by left|]. split; [done|]. f_equal. lia.
    + intros (o & (t' & j & Ht' & Ho & Hkk) & ->).
      apply elem_of_cons in Ht' as [->|Ht'].
      * injection Hkk as ->. rewrite decide_True.
        2:{ apply lookup_lt_Some in Ho. lia. }
        replace (Z.to_nat (Z.of_nat j) - 0)%nat with j by lia. by rewrite Ho.
      * injection Hkk as Hid _. destruct Ht. rewrite Hid.
        apply list_elem_of_fmap. eauto.
  - apply elem_of_cons in Hk as [?|Hk]; [done|].
    rewrite IH; [| done | | done | done].
    + split; intros (o & Hp & ->); exists o; (split; [|done]).
      * apply (produces_app [t]). by right.
      * apply (produces_app [t]) in Hp as [(t' & j & Ht' & _ & Hkk)|Hp]; [|done].
        apply list_elem_of_singleton in Ht' as ->. by rewrite Hkk in Hkt.
    + intros k' Hs Hin.
      apply (txs_rows_txid [t]) in Hs as [Hs|Hs].
      * apply (Hold _ Hs). by right.
      * unfold tx_ids in Hs. simpl in Hs. apply list_elem_of_singleton in Hs.
        rewrite Hs in Hin. done.
Qed.

(** ** Chains of blocks *)

Lemma fold_blocks_txs J outs :
  fold_left outputs_after_block J outs
  = fold_left outputs_after_tx (journal_txs J) outs.
Proof.
  revert outs. induction J as [|b J IH]; intros outs; [done|].
  unfold journal_txs. cbn [fold_left flat_map]. rewrite fold_left_app.
  by rewrite IH.
Qed.

Lemma journal_txs_app J1 J2 : journal_txs (J1 ++ J2) = journal_txs J1 ++ journal_txs J2.
Proof. unfold journal_txs. apply flat_map_app. Qed.

Lemma tx_ids_app l1 l2 : tx_ids (l1 ++ l2) = tx_ids l1 ++ tx_ids l2.
Proof. unfold tx_ids. apply map_app. Qed.

Lemma chain_ok_app outs J1 J2 :
  chain_ok outs (J1 ++ J2)
  <-> chain_ok outs J1 /\ chain_ok (fold_left outputs_after_block J1 outs) J2.
Proof.
  revert outs. induction J1 as [|b J1 IH]; intros outs; simpl; [tauto|].
  rewrite IH. tauto.
Qed.

Lemma input_key_row i : input_key i = row_key (key_of i).
Proof. done. Qed.

Lemma inputs_present_row outs b k :
  inputs_present outs b -> references (blk_transactions b) k ->
  exists r, outs !! k = Some r /\ is_spent r = false.
Proof.
  unfold inputs_present, references. rewrite Forall_forall, Exists_exists.
  intros Hp (t & Ht & Hi).
  specialize (Hp _ Ht). rewrite Forall_forall in Hp.
  apply Exists_exists in Hi as (i & Hi & <-).
  specialize (Hp _ Hi). unfold input_present in Hp.
  rewrite input_key_row, utxo_view_lookup in Hp.
  destruct (outs !! key_of i) as [r|]; [|by destruct Hp].
  exists r. split; [done|]. unfold unspent_output in Hp. simpl in Hp.
  destruct (is_spent r); [by destruct Hp | done].
Qed.

Lemma chain_refs_source outs J k :
  chain_ok outs J -> references (journal_txs J) k ->
  is_Some (outs !! k) \/ k.1 ∈ tx_ids (journal_txs J).
Proof.
  revert outs. induction J as [|b J IH]; intros outs Hc Hr.
  { by apply Exists_nil in Hr. }
  destruct Hc as [Hb Hc].
  change (journal_txs (b :: J)) with (blk_transactions b ++ journal_txs J) in *.
  rewrite tx_ids_app, elem_of_app.
  apply references_app in Hr as [Hr|Hr].
  - destruct (inputs_present_row _ _ _ Hb Hr) as (r & -> & _). left. by eexists.
  - destruct (IH _ Hc Hr) as [Hs|?]; [|tauto].
    unfold outputs_after_block in Hs. apply txs_rows_txid in Hs. tauto.
Qed.

Lemma chain_refs_unspent outs J k :
  chain_ok outs J -> references (journal_txs J) k ->
  k.1 ∉ tx_ids (journal_txs J) ->
  exists r, outs !! k = Some r /\ is_spent r = false.
Proof.
  revert outs. induction J as [|b J IH]; intros outs Hc Hr Hk.
  { by apply Exists_nil in Hr. }
  destruct Hc as [Hb Hc].
  change (journal_txs (b :: J)) with (blk_transactions b ++ journal_txs J) in *.
  rewrite tx_ids_app, not_elem_of_app in Hk. destruct Hk as [Hkb HkJ].
  destruct (decide (references (blk_transactions b) k)) as [Hrb|Hrb].
  { by eapply inputs_present_row. }
  apply references_app in Hr as [Hr|Hr]; [done|].
  destruct (IH _ Hc Hr HkJ) as (r & Hl & Hs).
  unfold outputs_after_block in Hl. rewrite txs_rows_old in Hl by done.
  rewrite decide_False in Hl by done. eauto.
Qed.

Lemma journal_rows_txid J k :
  is_Some (journal_outputs J !! k) -> k.1 ∈ tx_ids (journal_txs J).
Proof.
  unfold journal_outputs. rewrite fold_blocks_txs.
  intros [Hs|?]%txs_rows_txid; [|done].
  rewrite lookup_empty in Hs. by destruct Hs.
Qed.

Lemma journal_outputs_snoc J b :
  journal_outputs (J ++ [b]) = outputs_after_block (journal_outputs J) b.
Proof. unfold journal_outputs. by rewrite fold_left_app. Qed.

(** The rows of a chain are the outputs its transactions produce, spent
    when an input of the chain references them. *)
Lemma journal_rows J k r :
  NoDup (tx_ids (journal_txs J)) -> chain_ok ∅ J ->
  journal_outputs J !! k = Some r
  <-> exists o, produces (journal_txs J) k o /\ r = journal_row J k o.
Proof.
  revert k r. induction J as [|b J IH] using rev_ind; intros k r Hnd Hc.
  { unfold journal_outputs. simpl. rewrite lookup_empty. split; [done|].
    intros (o & (t & j & Ht & _) & _). by apply elem_of_nil in Ht. }
  rewrite journal_txs_app, tx_ids_app in Hnd.
  assert (journal_txs [b] = blk_transactions b) as Eb.
  { unfold journal_txs. simpl. apply app_nil_r. }
  rewrite Eb in Hnd. apply NoDup_app in Hnd as (HndJ & Hdisj & Hndb).
  apply chain_ok_app in Hc as [HcJ [Hb _]]. fold (journal_outputs J) in Hb.
  specialize (fun k r => IH k r HndJ HcJ).
  rewrite journal_outputs_snoc. unfold outputs_after_block.
  assert (forall k', references (journal_txs J) k' -> k'.1 ∈ tx_ids (journal_txs J))
    as HrefJ.
  { intros k' Hr. destruct (chain_refs_source _ _ _ HcJ Hr) as [Hs|?]; [|done].
    rewrite lookup_empty in Hs. by destruct Hs. }
  assert (forall k', references (blk_transactions b) k' ->
                     k'.1 ∈ tx_ids (journal_txs J)) as Hrefb.
  { intros k' Hr. destruct (inputs_present_row _ _ _ Hb Hr) as (r' & Hl & _).
    apply journal_rows_txid. by eexists. }
  unfold journal_row. rewrite journal_txs_app, Eb.
  destruct (decide (k.1 ∈ tx_ids (blk_transactions b))) as [Hk|Hk].
  - rewrite txs_rows_new; [| done | | | done].
    + assert (¬ references (journal_txs J ++ blk_transactions b) k) as Hno.
      { intros [Hr|Hr]%references_app.
        - by apply (Hdisj _ (HrefJ _ Hr)).
        - by apply (Hdisj _ (Hrefb _ Hr)). }
      rewrite bool_decide_false by done.
      split; intros (o & Hp & ->); exists o; (split; [|done]).
      * apply produces_app. by right.
      * apply produces_app in Hp as [Hp|Hp]; [|done].
        apply produces_txid in Hp. by destruct (Hdisj _ Hp).
    + intros k' Hs Hin. apply journal_rows_txid in Hs. by apply (Hdisj _ Hs).
    + intros k' Hr Hin. by apply (Hdisj _ (Hrefb _ Hr)).
  - rewrite txs_rows_old by done.
    assert (forall o, produces (journal_txs J ++ blk_transactions b) k o
                 <-> produces (journal_txs J) k o) as Hprod.
    { intros o. rewrite produces_app. split; [|tauto].
      intros [?|Hp]; [done|]. by apply produces_txid in Hp. }
    setoid_rewrite Hprod.
    destruct (decide (references (blk_transactions b) k)) as [Hr|Hr].
    + rewrite bool_decide_true by (apply references_app; tauto).
      rewrite fmap_Some. setoid_rewrite IH. split.
      * intros (r0 & (o & Hp & ->) & ->). eauto.
      * intros (o & Hp & ->). eexists. split; [eauto|done].
    + rewrite IH.
      assert (bool_decide (references (journal_txs J ++ blk_transactions b) k)
              = bool_decide (references (journal_txs J) k)) as ->; [|done].
      apply bool_decide_ext. rewrite references_app. tauto.
Qed.

(** ** The agreement is kept by an accepted block *)

Lemma consistent_init : consistent init_state empty_db.
Proof.
  split; simpl.
  - done.
  - done.
  - done.
  - by rewrite utxo_view_empty.
  - done.
  - intros r. split; [by intros ?%elem_of_nil|].
    intros (t & Ht & _). by apply elem_of_nil in Ht.
  - intros x bid. rewrite lookup_empty. split; [done|].
    intros (b & t & Hb & _). by apply elem_of_nil in Hb.
  - constructor.
  - intros bid h. rewrite lookup_empty. split; [done|].
    intros (b & Hb & _). by apply elem_of_nil in Hb.
  - constructor.
  - done.
  - apply map_Forall_empty.
  - done.
  - by intros a v ?.
Qed.

Lemma elem_of_journal_txs J t :
  t ∈ journal_txs J <-> exists b, b ∈ J /\ t ∈ blk_transactions b.
Proof.
  unfold journal_txs. rewrite list_elem_of_In, in_flat_map.
  by setoid_rewrite <- list_elem_of_In.
Qed.

Lemma elem_of_tx_ids txs x : x ∈ tx_ids txs <-> exists t, t ∈ txs /\ tx_id t = x.
Proof. unfold tx_ids. rewrite list_elem_of_fmap. naive_solver. Qed.

Lemma journal_txs_single b : journal_txs [b] = blk_transactions b.
Proof. unfold journal_txs. simpl. apply app_nil_r. Qed.

Lemma elem_of_snoc {A} (l : list A) x y : x ∈ l ++ [y] <-> x ∈ l \/ x = y.
Proof. by rewrite elem_of_app, list_elem_of_singleton. Qed.

Lemma block_rows_text outs b :
  map_Forall (fun _ r => text_ok (row_address r) = true) outs ->
  Forall (fun t => Forall (fun o => text_ok (address o) = true) (tx_outputs t))
         (blk_transactions b) ->
  map_Forall (fun _ r => text_ok (row_address r) = true)
             (outputs_after_block outs b).
Proof.
  unfold outputs_after_block. generalize (blk_transactions b). intros txs.
  revert outs. induction txs as [|t txs IH]; intros outs Ho Ht; [done|].
  apply Forall_cons in Ht as [Ht Hts]. simpl. apply IH; [|done].
  unfold outputs_after_tx.
  assert (map_Forall (fun _ r => text_ok (row_address r) = true)
            (fold_left spend_row (tx_inputs t) outs)) as Hsp.
  { clear Ht. revert outs Ho. induction (tx_inputs t) as [|i ins IHi];
      intros outs Ho; [done|].
    simpl. apply IHi. unfold spend_row. intros k r.
    rewrite lookup_alter. case_decide; [subst k|apply Ho].
    destruct (outs !! (txId i, index i)) as [r0|] eqn:E; [|done].
    simpl. intros [= <-]. simpl. by apply (Ho _ _ E). }
  revert Hsp. generalize (fold_left spend_row (tx_inputs t) outs). clear Ho.
  generalize 0%nat. induction Ht as [|o os Ho _ IHo]; intros idx outs' Hsp; [done|].
  simpl. apply IHo. by apply map_Forall_insert_2.
Qed.

Lemma consistent_block s d b s' d' :
  consistent s d ->
  validate s b = None ->
  s' = {| blocks := blocks s ++ [b]; currentHeight := blk_height b;
          balances := (apply_block (utxos s, balances s) b).2;
          utxos := (apply_block (utxos s, balances s) b).1 |} ->
  block_writable d b ->
  same_rows d' (tables_after_block d b) ->
  Forall tx_text (blk_transactions b) ->
  stored (balances s') d' ->
  consistent s' d'.
Proof.
  intros [Hh Hcur _ Hu Ho Hi Ht Hnd Hb Hbn Hc Haddr Hproto _] Hv -> Hw Hs Htext Hst.
  apply validate_None in Hv as (Hrule & Hpass & _).
  destruct Hw as (Hi4 & Hbid & Hbh & Hndb & Hnew & Hfresh).
  destruct Hs as (Eb & Et & Ei & Eo). simpl in Eb, Et, Ei, Eo.
  assert (blk_height b = Z.of_nat (length (blocks s)) + 1) as Hheight.
  { unfold height_rule in Hrule. lia. }
  assert (forall x, x ∈ tx_ids (journal_txs (blocks s)) ->
               is_Some (t_transactions d !! x)) as Hknown.
  { intros x (t & (b0 & Hb0 & Ht0)%elem_of_journal_txs & <-)%elem_of_tx_ids.
    exists (blk_id b0). apply Ht. eauto 6. }
  split; simpl.
  - rewrite map_app, length_app, Hh. simpl.
    rewrite Nat2Z.inj_add. simpl Z.of_nat at 3.
    rewrite (seqZ_app 1) by lia. f_equal.
    rewrite seqZ_cons by lia. rewrite seqZ_nil by lia. f_equal. lia.
  - rewrite length_app. simpl. lia.
  - done.
  - rewrite Eo. unfold apply_block, outputs_after_block. by apply view_txs.
  - rewrite Eo, Ho. by rewrite journal_outputs_snoc.
  - intros r. rewrite Ei, elem_of_app, Hi, journal_txs_app, journal_txs_single.
    setoid_rewrite elem_of_app.
    rewrite (list_elem_of_In (flat_map _ _)), in_flat_map.
    setoid_rewrite <- list_elem_of_In. naive_solver.
  - intros x bid. rewrite Et, txs_after_lookup. case_bool_decide as Hx.
    + apply list_elem_of_fmap in Hx as (t & -> & Hin). split.
      * intros E; injection E as <-. exists b, t. rewrite elem_of_app, list_elem_of_singleton. eauto.
      * intros (b0 & t0 & Hb0 & Ht0 & Hid & <-).
        apply elem_of_snoc in Hb0 as [Hb0| ->]; [|done].
        rewrite Forall_forall in Hnew. specialize (Hnew _ Hin).
        rewrite <- Hid in Hnew.
        assert (t_transactions d !! tx_id t0 = Some (blk_id b0)) as E
          by (apply Ht; eauto 6).
        congruence.
    + rewrite Ht. split.
      * intros (b0 & t0 & ? & ?). exists b0, t0. rewrite elem_of_app. tauto.
      * intros (b0 & t0 & Hb0 & Ht0 & Hid & <-).
        apply elem_of_snoc in Hb0 as [Hb0| ->]; [eauto 6|].
        destruct Hx. apply list_elem_of_fmap. eauto.
  - rewrite journal_txs_app, journal_txs_single, tx_ids_app.
    apply NoDup_app. split; [done|]. split; [|done].
    intros x Hx Hxb. apply Hknown in Hx as [bid Hx].
    apply elem_of_tx_ids in Hxb as (t & Hin & <-).
    rewrite Forall_forall in Hnew. specialize (Hnew _ Hin). congruence.
  - intros bid h. rewrite Eb, lookup_insert. case_decide as Hid.
    + subst bid. split.
      * intros E; injection E as <-. exists b. rewrite elem_of_app, list_elem_of_singleton. eauto.
      * intros (b0 & Hb0 & Hid & <-).
        apply elem_of_snoc in Hb0 as [Hb0| ->]; [|done].
        assert (t_blocks d !! blk_id b0 = Some (blk_height b0)) as E
          by (apply Hb; eauto).
        congruence.
    + rewrite Hb. split.
      * intros (b0 & ? & ?). exists b0. rewrite elem_of_app. tauto.
      * intros (b0 & Hb0 & Hid' & <-).
        apply elem_of_snoc in Hb0 as [Hb0| ->]; [eauto|done].
  - rewrite map_app. apply NoDup_app. split; [done|]. split; [|apply NoDup_singleton].
    intros x Hx Hxb. apply list_elem_of_singleton in Hxb as ->.
    apply list_elem_of_fmap in Hx as (b0 & Hid & Hb0).
    assert (t_blocks d !! blk_id b0 = Some (blk_height b0)) as E
      by (apply Hb; eauto).
    congruence.
  - apply chain_ok_app. split; [done|]. simpl. split; [|done].
    fold (journal_outputs (blocks s)). rewrite <- Ho.
    unfold inputs_present. rewrite <- Hu. eapply Forall_impl; [exact Hpass|].
    by intros t [? _].
  - rewrite Eo. apply block_rows_text; [done|].
    eapply Forall_impl; [exact Htext|]. by intros t (_ & _ & ?).
  - by apply apply_block_proto.
  - done.
Qed.

(** ** The blocks a rollback keeps *)

Lemma filter_heights (l : list Block) m k :
  map blk_height l = seqZ m (Z.of_nat (length l)) ->
  filter (fun b => blk_height b <= k) l = take (Z.to_nat (k - m + 1)) l.
Proof.
  revert m. induction l as [|b l IH]; intros m Hl.
  - by rewrite take_nil.
  - cbn [map length] in Hl. rewrite Nat2Z.inj_succ, seqZ_cons in Hl by lia.
    rewrite Z.pred_succ in Hl. injection Hl as Hb Hl.
    specialize (IH _ Hl). rewrite filter_cons. case_decide as Hk.
    + rewrite IH. replace (Z.to_nat (k - m + 1)) with (S (Z.to_nat (k - Z.succ m + 1)))
        by lia. done.
    + rewrite IH. replace (Z.to_nat (k - Z.succ m + 1)) with 0%nat by lia.
      replace (Z.to_nat (k - m + 1)) with 0%nat by lia. done.
Qed.

Lemma height_lookup (l : list Block) i b :
  map blk_height l = seqZ 1 (Z.of_nat (length l)) ->
  l !! i = Some b -> blk_height b = 1 + Z.of_nat i.
Proof.
  intros Hl Hi.
  assert (map blk_height l !! i = Some (blk_height b)) as H.
  { change (map blk_height l) with (blk_height <$> l).
    by rewrite list_lookup_fmap, Hi. }
  rewrite Hl in H. apply lookup_seqZ in H as [-> _]. done.
Qed.

Lemma NoDup_fmap_eq {A B} (f : A -> B) (l : list A) x y :
  NoDup (map f l) -> x ∈ l -> y ∈ l -> f x = f y -> x = y.
Proof.
  intros Hnd Hx Hy Hf.
  apply list_elem_of_lookup in Hx as [i Hi]. apply list_elem_of_lookup in Hy as [j Hj].
  assert (i = j) as ->.
  { eapply (NoDup_lookup (map f l)); [done| |];
      change (map f l) with (f <$> l); rewrite list_lookup_fmap.
    - by rewrite Hi.
    - by rewrite Hj, Hf. }
  congruence.
Qed.

Lemma rollback_target (s : AppState) (t : number) (k : Z) :
  isFinite t = true -> num_lt t 1 = false -> num_gt t (currentHeight s) = false ->
  int4_param t = Some k ->
  1 <= k <= currentHeight s.
Proof.
  destruct t as [| | |q]; try done. intros _ Hlt Hgt Hp.
  unfold num_lt in Hlt. unfold num_gt in Hgt. unfold int4_param in Hp.
  apply negb_false_iff, Qle_bool_iff in Hlt. apply negb_false_iff, Qle_bool_iff in Hgt.
  case_bool_decide as Hden; [|done]. simpl in Hp.
  destruct (int4 (Qnum (Qred q))); [|done]. injection Hp as <-.
  assert (Qeq q (inject_Z (Qnum (Qred q)))) as Hq.
  { rewrite <- (Qred_correct q) at 1. destruct (Qred q) as [n dd]. simpl in *.
    subst dd. reflexivity. }
  rewrite Hq in Hlt, Hgt. rewrite <- Zle_Qle in Hlt, Hgt. done.
Qed.

Lemma rollback_tables_outputs k d :
  t_outputs (rollback_tables k d)
  = filter (fun r => r.1.1 ∉ deleted_tx_ids k d)
      (map_imap (fun key r =>
         Some (if spent_by (t_inputs d) (deleted_tx_ids k d) key
               then set_spent false r else r)) (t_outputs d)).
Proof. done. Qed.

Lemma rollback_tables_blocks k d :
  t_blocks (rollback_tables k d) = filter (fun r => ¬ k < r.2) (t_blocks d).
Proof. done. Qed.

Lemma rollback_tables_transactions k d :
  t_transactions (rollback_tables k d)
  = cascade_transactions (t_blocks (rollback_tables k d)) (t_transactions d).
Proof. done. Qed.

Lemma rollback_tables_inputs k d :
  t_inputs (rollback_tables k d)
  = filter (fun r => in_tx_id r ∉ deleted_tx_ids k d)
      (cascade_inputs (t_transactions (rollback_tables k d)) (t_inputs d)).
Proof. done. Qed.

Lemma spent_by_true ins ids key :
  spent_by ins ids key = true
  <-> exists r, r ∈ ins /\ in_tx_id r ∈ ids
           /\ (spent_utxo_txid r, spent_utxo_index r) = key.
Proof.
  unfold spent_by. rewrite existsb_exists. split.
  - intros (r & Hin & H). apply andb_true_iff in H as [H1 H2].
    apply bool_decide_eq_true in H1, H2. exists r.
    by rewrite list_elem_of_In.
  - intros (r & Hin & H1 & H2). exists r. rewrite <- list_elem_of_In.
    split; [done|]. apply andb_true_iff. by rewrite !bool_decide_eq_true.
Qed.

Lemma references_exists txs k :
  references txs k <-> exists t i, t ∈ txs /\ i ∈ tx_inputs t /\ key_of i = k.
Proof.
  unfold references. rewrite Exists_exists. setoid_rewrite Exists_exists.
  naive_solver.
Qed.

Lemma elem_of_input_rows t r :
  r ∈ input_rows t
  <-> exists i, i ∈ tx_inputs t
           /\ r = {| in_tx_id := tx_id t; spent_utxo_txid := txId i;
                     spent_utxo_index := index i |}.
Proof.
  unfold input_rows. change (map ?f ?l) with (f <$> l).
  rewrite list_elem_of_fmap. naive_solver.
Qed.

(** ** The agreement is kept by a rollback *)

Section Rewind.
Context (s : AppState) (d : DB) (k : Z) (J1 J2 : list Block).
Context (Hcons : consistent s d).
Context (split_J : blocks s = J1 ++ J2).
Context (low_J1 : forall b, b ∈ J1 -> blk_height b <= k).
Context (high_J2 : forall b, b ∈ J2 -> k < blk_height b).

Local Lemma in_J b : b ∈ blocks s <-> b ∈ J1 \/ b ∈ J2.
Proof. by rewrite split_J, elem_of_app. Qed.

Local Lemma nodup_txs :
  NoDup (tx_ids (journal_txs J1))
  /\ (forall x, x ∈ tx_ids (journal_txs J1) -> x ∉ tx_ids (journal_txs J2))
  /\ NoDup (tx_ids (journal_txs J2)).
Proof.
  apply NoDup_app. rewrite <- tx_ids_app, <- journal_txs_app, <- split_J.
  apply Hcons.
Qed.

Local Lemma chain_J : chain_ok ∅ J1 /\ chain_ok (journal_outputs J1) J2.
Proof. apply chain_ok_app. rewrite <- split_J. apply Hcons. Qed.

Local Lemma block_of_id b h :
  b ∈ blocks s -> t_blocks d !! blk_id b = Some h <-> blk_height b = h.
Proof.
  intros Hb. rewrite (cons_blocks _ _ Hcons). split.
  - intros (b' & Hb' & Hid & <-). f_equal.
    eapply (NoDup_fmap_eq blk_id); [apply Hcons|done..].
  - intros <-. eauto.
Qed.

Local Lemma deleted_ids x :
  x ∈ deleted_tx_ids k d <-> x ∈ tx_ids (journal_txs J2).
Proof.
  unfold deleted_tx_ids. rewrite list_elem_of_fmap.
  rewrite elem_of_tx_ids. setoid_rewrite elem_of_journal_txs. split.
  - intros ([x' bid] & -> & Hin). apply elem_of_map_to_list in Hin.
    apply map_lookup_filter_Some in Hin as [Hl Hdoom]. simpl in *.
    apply (cons_transactions _ _ Hcons) in Hl as (b & t & Hb & Ht & Hid & <-).
    unfold doomed_block in Hdoom.
    destruct (t_blocks d !! blk_id b) as [h|] eqn:Eh; [|done].
    apply block_of_id in Eh; [|done]. subst h.
    exists t. split; [|done]. exists b. split; [|done].
    apply in_J in Hb as [Hb|Hb]; [|done]. apply low_J1 in Hb. lia.
  - intros (t & (b & Hb & Ht) & <-). exists (tx_id t, blk_id b). split; [done|].
    apply elem_of_map_to_list, map_lookup_filter_Some. split.
    + apply (cons_transactions _ _ Hcons). exists b, t. rewrite in_J. tauto.
    + simpl. unfold doomed_block.
      rewrite (proj2 (block_of_id b (blk_height b) (proj2 (in_J b) (or_intror Hb)))
                 eq_refl).
      by apply high_J2.
Qed.

Local Lemma spent_by_deleted key :
  spent_by (t_inputs d) (deleted_tx_ids k d) key = true
  <-> references (journal_txs J2) key.
Proof.
  rewrite spent_by_true, references_exists. split.
  - intros (r & Hr & Hid & Hkey).
    apply (cons_inputs _ _ Hcons) in Hr as (t & Ht & Hr).
    apply elem_of_input_rows in Hr as (i & Hi & ->). simpl in *.
    exists t, i. split; [|done].
    rewrite split_J, journal_txs_app, elem_of_app in Ht.
    destruct Ht as [Ht|Ht]; [|done].
    apply deleted_ids in Hid. destruct nodup_txs as (_ & Hdisj & _).
    destruct (Hdisj (tx_id t)); [|done]. apply elem_of_tx_ids. eauto.
  - intros (t & i & Ht & Hi & Hkey).
    exists {| in_tx_id := tx_id t; spent_utxo_txid := txId i;
              spent_utxo_index := index i |}. simpl. split; [|split; [|done]].
    + apply (cons_inputs _ _ Hcons). exists t. split.
      * rewrite split_J, journal_txs_app, elem_of_app. by right.
      * apply elem_of_input_rows. eauto.
    + apply deleted_ids, elem_of_tx_ids. eauto.
Qed.

Lemma rollback_outputs : t_outputs (rollback_tables k d) = journal_outputs J1.
Proof.
  destruct nodup_txs as (Hnd1 & Hdisj & Hnd2). destruct chain_J as [Hc1 Hc2].
  apply map_eq. intros key. apply option_eq. intros r.
  rewrite rollback_tables_outputs, map_lookup_filter_Some, map_lookup_imap.
  rewrite (cons_outputs _ _ Hcons). simpl.
  rewrite deleted_ids, (journal_rows J1) by done.
  split.
  - intros [Hl Hkey].
    destruct (journal_outputs (blocks s) !! key) as [r0|] eqn:E0; [|done]. simpl in Hl.
    apply (journal_rows (blocks s)) in E0 as (o & Hp & ->); [|apply Hcons..].
    rewrite split_J, journal_txs_app in Hp.
    apply produces_app in Hp as [Hp|Hp]; [|by apply produces_txid in Hp].
    exists o. split; [done|]. injection Hl as <-.
    unfold journal_row. rewrite split_J, journal_txs_app.
    destruct (spent_by _ _ key) eqn:Es.
    + apply spent_by_deleted in Es.
      destruct (chain_refs_unspent _ _ _ Hc2 Es Hkey) as (r1 & Hl1 & Hs1).
      apply (journal_rows J1) in Hl1 as (o1 & _ & ->); [|done..].
      unfold set_spent. simpl in *. by rewrite Hs1.
    + f_equal. apply bool_decide_ext. rewrite references_app.
      rewrite <- spent_by_deleted, Es. split; [|tauto]. by intros [?|?].
  - intros (o & Hp & ->).
    assert (key.1 ∉ tx_ids (journal_txs J2)) as Hkey.
    { apply Hdisj. by eapply produces_txid. }
    split; [|done].
    assert (journal_outputs (blocks s) !! key = Some (journal_row (blocks s) key o)) as ->.
    { apply journal_rows; [apply Hcons..|]. exists o. split; [|done].
      rewrite split_J, journal_txs_app. apply produces_app. by left. }
    simpl. f_equal.
    unfold journal_row. rewrite split_J, journal_txs_app.
    destruct (spent_by _ _ key) eqn:Es.
    + apply spent_by_deleted in Es.
      destruct (chain_refs_unspent _ _ _ Hc2 Es Hkey) as (r1 & Hl1 & Hs1).
      apply (journal_rows J1) in Hl1 as (o1 & _ & ->); [|done..].
      unfold set_spent. simpl in *. by rewrite Hs1.
    + f_equal. apply bool_decide_ext. rewrite references_app.
      rewrite <- spent_by_deleted, Es. split; [by intros [?|?] | tauto].
Qed.

Lemma rollback_blocks bid h :
  t_blocks (rollback_tables k d) !! bid = Some h
  <-> exists b, b ∈ J1 /\ blk_id b = bid /\ blk_height b = h.
Proof.
  rewrite rollback_tables_blocks, map_lookup_filter_Some. simpl.
  rewrite (cons_blocks _ _ Hcons). split.
  - intros [(b & Hb & <- & <-) Hh]. exists b. split; [|done].
    apply in_J in Hb as [?|Hb]; [done|]. apply high_J2 in Hb. lia.
  - intros (b & Hb & <- & <-). split.
    + exists b. rewrite (in_J b). tauto.
    + apply low_J1 in Hb. lia.
Qed.

Lemma rollback_transactions x bid :
  t_transactions (rollback_tables k d) !! x = Some bid
  <-> exists b t, b ∈ J1 /\ t ∈ blk_transactions b /\ tx_id t = x /\ blk_id b = bid.
Proof.
  rewrite rollback_tables_transactions. unfold cascade_transactions.
  rewrite map_lookup_filter_Some. simpl.
  rewrite (cons_transactions _ _ Hcons). split.
  - intros [(b & t & Hb & Ht & <- & <-) [h Hh]].
    apply rollback_blocks in Hh as (b' & Hb' & Hid & _).
    assert (b' = b) as ->.
    { eapply (NoDup_fmap_eq blk_id); [apply Hcons| |done..].
      apply in_J. by left. }
    eauto 6.
  - intros (b & t & Hb & Ht & <- & <-). split.
    + exists b, t. rewrite (in_J b). tauto.
    + exists (blk_height b). apply rollback_blocks. eauto.
Qed.

Lemma rollback_inputs r :
  r ∈ t_inputs (rollback_tables k d)
  <-> exists t, t ∈ journal_txs J1 /\ r ∈ input_rows t.
Proof.
  destruct nodup_txs as (Hnd1 & Hdisj & Hnd2).
  rewrite rollback_tables_inputs. unfold cascade_inputs.
  rewrite !list_elem_of_filter, deleted_ids, (cons_inputs _ _ Hcons).
  rewrite split_J, journal_txs_app. setoid_rewrite elem_of_app. split.
  - intros (Hid & _ & t & Ht & Hr). exists t. split; [|done].
    destruct Ht as [?|Ht]; [done|]. destruct Hid.
    apply elem_of_input_rows in Hr as (i & _ & ->). simpl.
    apply elem_of_tx_ids. eauto.
  - intros (t & Ht & Hr). pose proof Hr as Hr'.
    apply elem_of_input_rows in Hr' as (i & _ & ->). simpl.
    split; [|split; [|eauto]].
    + apply Hdisj, elem_of_tx_ids. eauto.
    + apply elem_of_journal_txs in Ht as (b & Hb & Ht).
      exists (blk_id b). apply rollback_transactions. eauto 6.
Qed.

Lemma rollback_addresses :
  map_Forall (fun _ r => text_ok (row_address r) = true)
             (t_outputs (rollback_tables k d)).
Proof.
  pose proof (cons_addresses _ _ Hcons) as Ha.
  unfold rollback_tables, exec. cbn. intros key r.
  rewrite map_lookup_filter_Some, map_lookup_imap.
  intros [Hl _]. destruct (t_outputs d !! key) as [r0|] eqn:E; [|done].
  simpl in Hl. injection Hl as <-. specialize (Ha key r0 E). simpl in Ha.
  by case_match.
Qed.

Lemma consistent_kept bal :
  map_Forall (fun _ v => int4 v = true) (t_balances (rollback_tables k d)) ->
  bal = new_balances (t_balances (rollback_tables k d)) ->
  k = Z.of_nat (length J1) -> int4 k = true ->
  consistent
    {| blocks := J1; currentHeight := k; balances := bal;
       utxos := (rebuild J1).1 |}
    (rollback_tables k d).
Proof.
  intros Hint -> Hlen Hk4.
  destruct nodup_txs as (Hnd1 & Hdisj & Hnd2). destruct chain_J as [Hc1 Hc2].
  assert ((rebuild J1).1 = utxo_view (journal_outputs J1)) as Hview.
  { rewrite rebuild_fold. unfold journal_outputs. apply view_blocks.
    simpl. by rewrite utxo_view_empty. }
  split; cbn [blocks currentHeight balances utxos].
  - assert (map blk_height (blocks s) = seqZ 1 (Z.of_nat (length (blocks s))))
      as HJ by apply Hcons.
    rewrite split_J, map_app, length_app, Nat2Z.inj_add, (seqZ_app 1) in HJ by lia.
    apply app_inj_1 in HJ as [HJ _]; [done|].
    by rewrite length_map, length_seqZ, Nat2Z.id.
  - done.
  - done.
  - by rewrite rollback_outputs.
  - apply rollback_outputs.
  - apply rollback_inputs.
  - apply rollback_transactions.
  - done.
  - apply rollback_blocks.
  - assert (NoDup (map blk_id (blocks s))) as HJ by apply Hcons.
    rewrite split_J, map_app in HJ. by apply NoDup_app in HJ as [? _].
  - done.
  - apply rollback_addresses.
  - unfold new_balances. by rewrite lookup_fmap, lookup_delete_eq.
  - intros a v. unfold new_balances. rewrite lookup_fmap, lookup_delete.
    case_decide; [done|].
    destruct (t_balances (rollback_tables k d) !! a) as [z|] eqn:E; [|done].
    simpl. intros [= <-]. split.
    + pose proof E as E'. unfold rollback_tables in E'. cbn [t_balances] in E'.
      apply unspent_by_address_lookup in E' as [(key & r & Hl & _ & <-) _].
      apply (rollback_addresses key r). done.
    + exists z. split; [|done]. apply int4_value_pretty. by apply (Hint a).
Qed.
End Rewind.

Lemma consistent_rollback s d k :
  consistent s d -> 0 <= k <= currentHeight s -> int4 k = true ->
  map_Forall (fun _ v => int4 v = true) (t_balances (rollback_tables k d)) ->
  filter (fun b => blk_height b <= k) (blocks s) = take (Z.to_nat k) (blocks s)
  /\ consistent
      {| blocks := filter (fun b => blk_height b <= k) (blocks s);
         currentHeight := k;
         balances := new_balances (t_balances (rollback_tables k d));
         utxos := (rebuild (filter (fun b => blk_height b <= k) (blocks s))).1 |}
      (rollback_tables k d).
Proof.
  intros Hcons Hk Hk4 Hint.
  assert (filter (fun b => blk_height b <= k) (blocks s)
          = take (Z.to_nat k) (blocks s)) as Hkept.
  { rewrite (filter_heights _ 1) by apply Hcons. f_equal. lia. }
  split; [done|]. rewrite Hkept.
  pose proof (cons_height _ _ Hcons) as Hcur.
  apply (consistent_kept s d k _ (drop (Z.to_nat k) (blocks s))); try done.
  - by rewrite take_drop.
  - intros b. rewrite <- Hkept. by intros [? _]%list_elem_of_filter.
  - intros b [i Hi]%list_elem_of_lookup. rewrite lookup_drop in Hi.
    apply (height_lookup (blocks s)) in Hi; [lia | apply Hcons].
  - rewrite length_take. lia.
Qed.

(** ** Accepted operations *)

Lemma post_blocks_reply s c b r s' c' :
  post_blocks s c b = (r, s', c') -> accepted r = true ->
  r = BlockAccepted (blk_height b).
Proof.
  unfold post_blocks. intros H Hr.
  destruct (validate s b) as [r0|] eqn:Ev.
  { apply validate_rejects in Ev. simplify_eq. congruence. }
  destruct (write_block b c) as [[u|] c1]; [|by simplify_eq].
  destruct (persist_balances _ c1) as [[u2|] c2]; by simplify_eq.
Qed.

Lemma post_rollback_accepted s c t r s' c' :
  post_rollback s c t = (r, s', c') -> accepted r = true ->
  exists k,
    int4_param t = Some k /\ 1 <= k <= currentHeight s
    /\ r = RollbackSuccessful k
    /\ tables c' = rollback_tables k (tables c)
    /\ s' = {| blocks := filter (fun b => blk_height b <= k) (blocks s);
               currentHeight := k;
               balances := new_balances (t_balances (rollback_tables k (tables c)));
               utxos := (rebuild (filter (fun b => blk_height b <= k) (blocks s))).1 |}
    /\ map_Forall (fun _ v => int4 v = true)
         (t_balances (rollback_tables k (tables c))).
Proof.
  unfold post_rollback. intros H Hr.
  destruct (isFinite t) eqn:Ef; simpl in H; [|by simplify_eq].
  destruct (num_lt t 1) eqn:Elt; simpl in H; [by simplify_eq|].
  destruct (num_gt t (currentHeight s)) eqn:Egt; [by simplify_eq|].
  destruct (int4_param t) as [k|] eqn:Ep; [|by simplify_eq].
  destruct (rollback_store k c) as [[nb|] c1] eqn:Es; [|by simplify_eq].
  apply rollback_store_Some in Es as (Ht & Hnb & Hint).
  injection H as <- <- <-. exists k.
  split; [done|]. split; [by eapply rollback_target|]. split; [done|].
  split; [done|]. rewrite Hnb, Ht. rewrite Ht in Hint. split; [done|]. exact Hint.
Qed.

Lemma int4_param_int4 t k : int4_param t = Some k -> int4 k = true.
Proof.
  destruct t as [| | |q]; try done. unfold int4_param.
  case_bool_decide; [|done]. simpl.
  destruct (int4 (Qnum (Qred q))) eqn:E; [|done]. by intros ?; simplify_eq.
Qed.

Lemma cascade_inputs_nil txs : cascade_inputs txs [] = [].
Proof. done. Qed.

Lemma post_reset_accepted s c r s' c' :
  post_reset s c = (r, s', c') -> accepted r = true ->
  s' = init_state /\ tables c' = empty_db.
Proof.
  unfold post_reset. intros H Hr.
  destruct (reset_store c) as [[u|] c1] eqn:Es; [|by simplify_eq].
  simplify_eq. split; [done|].
  unfold reset_store in Es.
  query_step Es. query_step Es. query_step Es. query_step Es.
  apply query_Some in Es as [Es _].
  unfold delete_all_outputs in Hq. unfold delete_all_inputs in Hq0.
  unfold delete_all_transactions in Hq1. unfold delete_all_blocks in Hq2.
  unfold delete_balances in Es.
  injection Hq as _ Hq. injection Hq0 as _ Hq0. injection Hq1 as _ Hq1.
  injection Hq2 as _ Hq2. injection Es as _ Es.
  rewrite <- Es, <- Hq2, <- Hq1, <- Hq0, <- Hq. simpl.
  unfold empty_db, cascade_transactions. f_equal; apply map_filter_empty.
Qed.

(** The agreement holds in every state reached by accepted operations. *)
Lemma reachable_consistent s d : reachable s d -> consistent s d.
Proof.
  induction 1 as [|o f s d r s' c' _ IH Hrun Hacc]; [apply consistent_init|].
  destruct o as [b|t|]; simpl in Hrun.
  - pose proof (post_blocks_reply _ _ _ _ _ _ Hrun Hacc) as ->.
    apply post_blocks_accepted in Hrun
      as (Hv & _ & Hs & Hw & Hrows & Htext & Hst & _).
    by eapply consistent_block.
  - apply post_rollback_accepted in Hrun as (k & Hp & Hk & _ & -> & -> & Hint);
      [|done].
    simpl in *. apply consistent_rollback; try done; [lia|].
    by eapply int4_param_int4.
  - apply post_reset_accepted in Hrun as [-> ->]; [|done]. apply consistent_init.
Qed.

Lemma submit_all_reachable bs s d s' d' :
  reachable s d -> submit_all bs s d = Some (s', d') -> reachable s' d'.
Proof.
  revert s d. induction bs as [|b bs IH]; intros s d Hr H; simpl in H.
  { by simplify_eq. }
  destruct (post_blocks s (connect d) b) as [[r s1] c1] eqn:E.
  destruct r; try done. eapply IH; [|exact H].
  by eapply (reachable_step (SubmitBlock b) None).
Qed.

Lemma ledger_reachable bs :
  is_Some (submit_all bs init_state empty_db) ->
  reachable (ledger bs).1 (ledger bs).2.
Proof.
  intros [[s d] H]. unfold ledger. rewrite H. simpl.
  eapply submit_all_reachable; [apply reachable_init | exact H].
Qed.

(** ** Soundness of the UTXO set *)

(** X2.  Soundness of the UTXO set: after any history of accepted
    operations, [state.utxos] holds exactly the outputs produced by a
    transaction of the journal whose key no input of the journal
    references; and no block of the journal references an output that an
    input of an earlier block had already referenced. *)
Theorem utxo_set_sound (s : AppState) (d : DB) :
  reachable s d ->
  (forall key o,
      utxos s !! key = Some o
      <-> exists k, key = row_key k
               /\ produces (journal_txs (blocks s)) k o
               /\ ¬ references (journal_txs (blocks s)) k)
  /\ (forall J1 b J2 k,
        blocks s = J1 ++ b :: J2 ->
        references (blk_transactions b) k ->
        ¬ references (journal_txs J1) k).
Proof.
  intros H. apply reachable_consistent in H as Hc.
  pose proof (cons_tx_ids _ _ Hc) as Hnd. pose proof (cons_chain _ _ Hc) as Hch.
  split.
  - intros key o. rewrite (cons_utxos _ _ Hc), (cons_outputs _ _ Hc).
    unfold utxo_view. rewrite (lookup_kmap_Some row_key).
    setoid_rewrite lookup_omap_Some.
    split.
    + intros (k & -> & r & Hu & Hr). exists k. split; [done|].
      apply journal_rows in Hr as (o' & Hp & ->); [|done..].
      unfold unspent_output, journal_row in Hu. simpl in Hu.
      case_bool_decide as Href; [done|]. injection Hu as <-.
      split; [|done]. by destruct o'.
    + intros (k & -> & Hp & Href). exists k. split; [done|].
      exists (journal_row (blocks s) k o). split.
      * unfold unspent_output, journal_row. simpl.
        rewrite bool_decide_false by done. by destruct o.
      * apply journal_rows; eauto.
  - intros J1 b J2 k HJ Hrb HrJ. rewrite HJ in Hnd, Hch.
    apply chain_ok_app in Hch as [Hc1 [Hb _]].
    rewrite journal_txs_app, tx_ids_app in Hnd. apply NoDup_app in Hnd as [Hnd1 _].
    destruct (inputs_present_row _ _ _ Hb Hrb) as (r & Hl & Hs).
    apply (journal_rows J1) in Hl as (o & _ & ->); [|done..].
    unfold journal_row in Hs. simpl in Hs. by apply bool_decide_eq_false in Hs.
Qed.

(** X2 (witness). *)
Lemma utxo_set_sound_witness :
  let s := (ledger [block1; block2; block3]).1 in
  (forall key o,
      utxos s !! key = Some o
      <-> exists k, key = row_key k
               /\ produces (journal_txs (blocks s)) k o
               /\ ¬ references (journal_txs (blocks s)) k)
  /\ (forall J1 b J2 k,
        blocks s = J1 ++ b :: J2 ->
        references (blk_transactions b) k ->
        ¬ references (journal_txs J1) k).
Proof.
  cbv zeta. apply (utxo_set_sound _ (ledger [block1; block2; block3]).2).
  apply ledger_reachable. by_evaluation.
Defined.

(** C8 (the failing input).  Two transactions of one accepted block may
    reference the same output: validation reads the pre-block snapshot for
    both, the rows of both are written, and the second reference finds
    nothing left to debit.  The 10 units of [tx1:0] are spent twice: the
    UTXO map holds 20 units where 10 were created. *)
Theorem double_spend_accepted :
  let txA := mk_tx "txA" [("tx1", 0)] [("bob", 10)] in
  let txB := mk_tx "txB" [("tx1", 0)] [("carol", 10)] in
  let bs := [block1; mk_block 2 [txA; txB]] in
  is_Some (submit_all bs init_state empty_db)
  /\ blocks (ledger bs).1 = bs
  /\ references [txA] ("tx1", 0) /\ references [txB] ("tx1", 0)
  /\ utxos (ledger bs).1 !! "txA:0" = Some {| address := "bob"; value := 10 |}
  /\ utxos (ledger bs).1 !! "txB:0" = Some {| address := "carol"; value := 10 |}
  /\ balances (ledger [block1]).1 !! "addr1" = Some (VNum 10)
  /\ balances (ledger bs).1 !! "addr1" = Some (VNum 0)
  /\ balances (ledger bs).1 !! "bob" = Some (VNum 10)
  /\ balances (ledger bs).1 !! "carol" = Some (VNum 10)
  /\ total (utxos (ledger bs).1) = 20
  /\ minted_all bs = 10.
Proof. cbv zeta. split_and!; by_evaluation. Qed.

(** ** Balance derivation *)

(** C7 (the failing inputs).  A block that pays 10 to the address
    [__proto__] is accepted and the output is in the UTXO map, but
    [state.balances] gets no entry: the assignment to [__proto__] stores
    nothing, and reading it gives the prototype object, not 10.  And after
    the three blocks of the test scenario and a rollback to height 2, a
    block that pays 3 to [addr2], which holds an output of 4, is accepted
    and leaves the text [43] as the balance of [addr2], in memory and (as
    the number 43) in the store, where the unspent outputs sum to 7. *)
Theorem balance_derivation_fails :
  let b := mk_block 1 [mk_tx "tx1" [] [("__proto__", 10)]] in
  let o := post_blocks init_state (connect empty_db) b in
  let sd := ledger [block1; block2; block3] in
  let o1 := post_rollback sd.1 (connect sd.2) (of_int 2) in
  let b3 := mk_block 3 [mk_tx "tx3b" [] [("addr2", 3)]] in
  let o2 := post_blocks o1.1.2 (connect (tables o1.2)) b3 in
  (o.1.1 = BlockAccepted 1
   /\ sum_for "__proto__" (utxos o.1.2) = 10
   /\ obj_get (balances o.1.2) "__proto__" = Prototype
   /\ balances o.1.2 = ∅)
  /\ (o1.1.1 = RollbackSuccessful 2
      /\ o2.1.1 = BlockAccepted 3
      /\ sum_for "addr2" (utxos o2.1.2) = 7
      /\ balances o2.1.2 !! "addr2" = Some (VStr "43")
      /\ t_balances (tables o2.2) !! "addr2" = Some 43).
Proof. cbv zeta. split_and!; by_evaluation. Qed.

(** ** Rollback and replay *)

(** C1 (the failing input).  After the three blocks of the test scenario, a
    rollback to height 2 leaves the balances as texts where the first two
    blocks alone leave numbers, and no entry for [addr1] where they leave
    0.  The next block tells the two states apart: a block that pays 3 to
    [addr2] is accepted in both, and leaves [addr2] the text [43] (in the
    store: 43) after the rollback, and the number 7 after the replay. *)
Theorem rollback_not_replay :
  let sd := ledger [block1; block2; block3] in
  let sk := ledger [block1; block2] in
  let o := post_rollback sd.1 (connect sd.2) (of_int 2) in
  let b := mk_block 3 [mk_tx "tx3b" [] [("addr2", 3)]] in
  let after_rollback := post_blocks o.1.2 (connect (tables o.2)) b in
  let after_replay := post_blocks sk.1 (connect sk.2) b in
  blocks sd.1 = [block1; block2; block3] /\ blocks sk.1 = [block1; block2]
  /\ o.1.1 = RollbackSuccessful 2
  /\ balances o.1.2 !! "addr2" = Some (VStr "4")
  /\ balances sk.1 !! "addr2" = Some (VNum 4)
  /\ balances o.1.2 !! "addr1" = None
  /\ balances sk.1 !! "addr1" = Some (VNum 0)
  /\ after_rollback.1.1 = BlockAccepted 3
  /\ after_replay.1.1 = BlockAccepted 3
  /\ balances after_rollback.1.2 !! "addr2" = Some (VStr "43")
  /\ balances after_replay.1.2 !! "addr2" = Some (VNum 7)
  /\ t_balances (tables after_rollback.2) !! "addr2" = Some 43
  /\ t_balances (tables after_replay.2) !! "addr2" = Some 7.
Proof. cbv zeta. split_and!; by_evaluation. Qed.

(** ** Rollback is replay *)

Lemma submit_all_app bs1 bs2 s d :
  submit_all (bs1 ++ bs2) s d
  = match submit_all bs1 s d with
    | Some (s1, d1) => submit_all bs2 s1 d1
    | None => None
    end.
Proof.
  revert s d. induction bs1 as [|b bs1 IH]; intros s d; [done|].
  simpl. destruct (post_blocks s (connect d) b) as [[r s1] c1].
  destruct r; auto.
Qed.

Lemma submit_all_blocks bs s d s' d' :
  submit_all bs s d = Some (s', d') -> blocks s' = blocks s ++ bs.
Proof.
  revert s d. induction bs as [|b bs IH]; intros s d H; simpl in H.
  { simplify_eq. by rewrite app_nil_r. }
  destruct (post_blocks s (connect d) b) as [[r s1] c1] eqn:E.
  destruct r; try done.
  apply post_blocks_accepted in E as (_ & _ & -> & _).
  apply IH in H. simpl in H. by rewrite H, <- app_assoc.
Qed.

Lemma Qred_inject_Z k : Qred (inject_Z k) = inject_Z k.
Proof.
  unfold Qred, inject_Z.
  pose proof (Z.ggcd_gcd k 1) as Hg. pose proof (Z.ggcd_correct_divisors k 1) as Hd.
  destruct (Z.ggcd k 1) as [g [aa bb]]. simpl in *.
  rewrite Z.gcd_1_r in Hg. subst g. destruct Hd as [-> Hb].
  rewrite !Z.mul_1_l in *. subst bb. done.
Qed.

Lemma int4_param_of_int k : int4 k = true -> int4_param (of_int k) = Some k.
Proof.
  intros Hk. unfold int4_param, of_int. rewrite Qred_inject_Z. simpl.
  by rewrite Hk.
Qed.

Lemma insert_balances_ok rows acc d :
  NoDup rows.*1 -> Forall (fun r => int4 r.2 = true) rows ->
  (forall a, a ∈ rows.*1 -> t_balances d !! a = None) ->
  exists nb d', insert_balances rows acc (connect d) = (Some nb, connect d').
Proof.
  revert acc d. induction rows as [|[a v] rows IH]; intros acc d Hnd Hint Hnew.
  { simpl. rewrite mret_unfold. eauto. }
  cbn [insert_balances]. rewrite bind_unfold, query_healthy.
  apply Forall_cons in Hint as [Hv Hint]. apply NoDup_cons in Hnd as [Ha Hnd].
  unfold insert_balance. simpl in Hv. rewrite Hv. simpl.
  rewrite bool_decide_true by (apply Hnew; left). apply IH; [done..|].
  intros a' Ha'. simpl. rewrite lookup_insert_ne; [|by intros <-].
  apply Hnew. by right.
Qed.

Lemma when_nonempty_healthy ids (stmt : DB -> option (unit * DB)) d :
  (forall d0, exists d', stmt d0 = Some (tt, d')) ->
  exists d', when_nonempty ids (query stmt) (connect d) = (Some tt, connect d').
Proof.
  intros Hs. unfold when_nonempty. case_bool_decide.
  - rewrite query_healthy. destruct (Hs d) as [d' ->]. eauto.
  - rewrite mret_unfold. eauto.
Qed.

Lemma rollback_store_ok k d :
  map_Forall (fun _ v => int4 v = true)
    (unspent_by_address (t_outputs (rollback_tables k d))) ->
  exists nb c', rollback_store k (connect d) = (Some nb, c').
Proof.
  intros Hint. unfold rollback_store.
  rewrite bind_unfold, query_healthy. unfold select_deleted_txs.
  fold (deleted_tx_ids k d). set (ids := deleted_tx_ids k d) in *.
  destruct (when_nonempty_healthy ids (resurrect_outputs ids) d) as [d1 E1];
    [unfold resurrect_outputs; eauto|].
  rewrite bind_unfold, E1.
  destruct (when_nonempty_healthy ids (delete_outputs ids) d1) as [d2 E2];
    [unfold delete_outputs; eauto|].
  rewrite bind_unfold, E2, bind_unfold, query_healthy.
  unfold delete_blocks at 1.
  match goal with |- context [connect ?x] =>
    match x with {| t_blocks := _ |} => set (d3 := x) end end.
  destruct (when_nonempty_healthy ids (delete_inputs ids) d3) as [d4 E4];
    [unfold delete_inputs; eauto|].
  rewrite bind_unfold, E4, bind_unfold, query_healthy.
  unfold select_unspent_balances at 1.
  rewrite bind_unfold, query_healthy. unfold delete_balances at 1.
  assert (t_outputs d4 = t_outputs (rollback_tables k d)) as Eo.
  { apply when_nonempty_Some in E1; [|intros ->; apply resurrect_outputs_nil].
    apply when_nonempty_Some in E2; [|intros ->; apply delete_outputs_nil].
    apply when_nonempty_Some in E4; [|intros ->; apply delete_inputs_nil].
    simpl in E1, E2, E4. rewrite E4. unfold rollback_tables. fold ids.
    subst d3. rewrite E2, E1. done. }
  rewrite Eo.
  match goal with |- context [insert_balances ?rows ?acc (connect ?dd)] =>
    destruct (insert_balances_ok rows acc dd) as (nb & d' & E) end.
  - apply NoDup_fst_map_to_list.
  - apply Forall_forall. intros [a v] Hin. apply elem_of_map_to_list in Hin.
    by apply (Hint a v).
  - intros a _. simpl. apply lookup_empty.
  - rewrite E. eauto.
Qed.

Lemma rebuild_view J : (rebuild J).1 = utxo_view (journal_outputs J).
Proof.
  rewrite rebuild_fold. unfold journal_outputs. apply view_blocks.
  simpl. by rewrite utxo_view_empty.
Qed.

Lemma rollback_outputs_take s d k :
  consistent s d -> 0 <= k <= currentHeight s ->
  t_outputs (rollback_tables k d)
  = journal_outputs (take (Z.to_nat k) (blocks s)).
Proof.
  intros Hcons Hk.
  assert (filter (fun b => blk_height b <= k) (blocks s)
          = take (Z.to_nat k) (blocks s)) as Hkept.
  { rewrite (filter_heights _ 1) by apply Hcons. f_equal. lia. }
  apply (rollback_outputs s d k _ (drop (Z.to_nat k) (blocks s))); try done.
  - by rewrite take_drop.
  - intros b. rewrite <- Hkept. by intros [? _]%list_elem_of_filter.
  - intros b [i Hi]%list_elem_of_lookup. rewrite lookup_drop in Hi.
    apply (height_lookup (blocks s)) in Hi; [lia | apply Hcons].
Qed.

Lemma int4_le k n : 0 <= k <= n -> int4 n = true -> int4 k = true.
Proof.
  unfold int4. intros Hk Hn. apply bool_decide_eq_true in Hn.
  apply bool_decide_eq_true. lia.
Qed.

Lemma of_int_guards k n :
  1 <= k <= n ->
  isFinite (of_int k) = true /\ num_lt (of_int k) 1 = false
  /\ num_gt (of_int k) n = false.
Proof.
  intros Hk. unfold of_int, num_lt, num_gt. split; [done|].
  split; apply negb_false_iff, Qle_bool_iff; rewrite <- Zle_Qle; lia.
Qed.

(** ** The journal determines the rows *)

Lemma gmap_eq_iff {K A} `{Countable K} (m1 m2 : gmap K A) :
  (forall k v, m1 !! k = Some v <-> m2 !! k = Some v) -> m1 = m2.
Proof.
  intros Hm. apply map_eq. intros k. apply option_eq. intros v. apply Hm.
Qed.

Lemma same_journal s1 s2 d1 d2 :
  consistent s1 d1 -> consistent s2 d2 -> blocks s1 = blocks s2 ->
  utxos s1 = utxos s2
  /\ currentHeight s1 = currentHeight s2
  /\ t_blocks d1 = t_blocks d2
  /\ t_transactions d1 = t_transactions d2
  /\ t_outputs d1 = t_outputs d2
  /\ (forall r, r ∈ t_inputs d1 <-> r ∈ t_inputs d2).
Proof.
  intros C1 C2 Hb.
  assert (t_outputs d1 = t_outputs d2) as Ho.
  { by rewrite (cons_outputs _ _ C1), (cons_outputs _ _ C2), Hb. }
  split_and!.
  - by rewrite (cons_utxos _ _ C1), (cons_utxos _ _ C2), Ho.
  - by rewrite (cons_height _ _ C1), (cons_height _ _ C2), Hb.
  - apply gmap_eq_iff. intros bid h.
    rewrite (cons_blocks _ _ C1), (cons_blocks _ _ C2), Hb. done.
  - apply gmap_eq_iff. intros x bid.
    rewrite (cons_transactions _ _ C1), (cons_transactions _ _ C2), Hb. done.
  - done.
  - intros r. rewrite (cons_inputs _ _ C1), (cons_inputs _ _ C2), Hb. done.
Qed.

(** ** Rollback and replay, continued *)

(** X3.  What a rollback shares with a replay.  When the blocks [bs] have
    been accepted in turn from the empty service, the first [k] of them
    (1 <= k <= their number) are accepted in turn as well, and a rollback
    to height [k] on a healthy connection succeeds exactly when the sum of
    the unspent outputs of every address, in the rows of these [k] blocks,
    fits an [INTEGER].  It then leaves the UTXO map, the block journal, the
    height and the rows of the [blocks], [transactions], [inputs] and
    [outputs] tables that the first [k] blocks alone give; the balances are
    the aggregate of the unspent outputs, in the store as numbers and in
    memory as their decimal texts, the row of [__proto__] left out. *)
Theorem rollback_is_replay (bs : list Block) (k : nat) (s : AppState) (d : DB) :
  submit_all bs init_state empty_db = Some (s, d) ->
  (1 <= k <= length bs)%nat ->
  exists sk dk,
    submit_all (take k bs) init_state empty_db = Some (sk, dk)
    /\ let o := post_rollback s (connect d) (of_int (Z.of_nat k)) in
       let agg := unspent_by_address (t_outputs dk) in
       (accepted o.1.1 = true <-> map_Forall (fun _ v => int4 v = true) agg)
       /\ (accepted o.1.1 = true ->
           o.1.1 = RollbackSuccessful (Z.of_nat k)
           /\ utxos o.1.2 = utxos sk
           /\ blocks o.1.2 = blocks sk
           /\ currentHeight o.1.2 = currentHeight sk
           /\ t_blocks (tables o.2) = t_blocks dk
           /\ t_transactions (tables o.2) = t_transactions dk
           /\ t_outputs (tables o.2) = t_outputs dk
           /\ (forall r, r ∈ t_inputs (tables o.2) <-> r ∈ t_inputs dk)
           /\ t_balances (tables o.2) = agg
           /\ balances o.1.2 = new_balances agg).
Proof.
  intros Hrun Hk.
  pose proof Hrun as Hsplit. rewrite <- (take_drop k bs), submit_all_app in Hsplit.
  destruct (submit_all (take k bs) init_state empty_db) as [[sk dk]|] eqn:Ek;
    [|done].
  exists sk, dk. split; [done|]. cbv zeta.
  pose proof (reachable_consistent _ _
                (submit_all_reachable _ _ _ _ _ reachable_init Hrun)) as Hc.
  pose proof (reachable_consistent _ _
                (submit_all_reachable _ _ _ _ _ reachable_init Ek)) as Hck.
  apply submit_all_blocks in Hrun as Hbs. apply submit_all_blocks in Ek as Hbk.
  simpl in Hbs, Hbk.
  pose proof (cons_height _ _ Hc) as Hcur. rewrite Hbs in Hcur.
  pose proof (cons_height _ _ Hck) as Hcurk.
  rewrite Hbk, length_take in Hcurk.
  assert (1 <= Z.of_nat k <= currentHeight s) as HkZ by lia.
  assert (int4 (Z.of_nat k) = true) as Hk4.
  { apply (int4_le _ (currentHeight s)); [lia | apply Hc]. }
  assert (filter (fun b => blk_height b <= Z.of_nat k) (blocks s) = blocks sk)
    as Hkept.
  { rewrite (filter_heights _ 1) by apply Hc.
    rewrite Hbs, Hbk. f_equal. lia. }
  assert (t_outputs (rollback_tables (Z.of_nat k) d) = t_outputs dk) as Eo.
  { rewrite (rollback_outputs_take s) by (done || lia).
    by rewrite Nat2Z.id, Hbs, <- Hbk, (cons_outputs _ _ Hck). }
  assert (t_balances (rollback_tables (Z.of_nat k) d)
          = unspent_by_address (t_outputs dk)) as Hagg.
  { by rewrite <- Eo. }
  destruct (of_int_guards _ _ HkZ) as (Hf & Hlt & Hgt).
  destruct (post_rollback s (connect d) (of_int (Z.of_nat k))) as [[r s'] c'] eqn:E.
  cbn [fst snd].
  assert (accepted r = true ->
          r = RollbackSuccessful (Z.of_nat k)
          /\ tables c' = rollback_tables (Z.of_nat k) d
          /\ s' = {| blocks := blocks sk; currentHeight := Z.of_nat k;
                     balances := new_balances (unspent_by_address (t_outputs dk));
                     utxos := (rebuild (blocks sk)).1 |}
          /\ map_Forall (fun _ v => int4 v = true)
               (unspent_by_address (t_outputs dk))) as Hacc.
  { intros Hr.
    destruct (post_rollback_accepted _ _ _ _ _ _ E Hr)
      as (k' & Hp & _ & -> & Ht & -> & Hint).
    rewrite (int4_param_of_int _ Hk4) in Hp. injection Hp as <-.
    cbn [tables connect] in Ht, Hint |- *. rewrite Hkept, Hagg.
    rewrite Hagg in Hint. done. }
  split; [split|].
  - intros Hr. by apply Hacc.
  - intros Hint. rewrite <- Hagg in Hint.
    destruct (rollback_store_ok _ _ Hint) as (nb & c1 & Es).
    unfold post_rollback in E.
    rewrite Hf, Hlt, Hgt, (int4_param_of_int _ Hk4), Es in E. simpl in E.
    by simplify_eq.
  - intros Hr. destruct (Hacc Hr) as (-> & Ht & -> & Hint).
    rewrite <- Hagg in Hint.
    destruct (consistent_rollback s d (Z.of_nat k)) as [_ Hcr]; [done|lia|done..|].
    destruct (same_journal _ _ _ _ Hcr Hck) as (_ & _ & Eb & Et & _ & Ei).
    { simpl. by rewrite Hkept. }
    cbn [utxos blocks currentHeight balances]. rewrite Ht.
    split_and!; try done.
    + by rewrite rebuild_view, (cons_utxos _ _ Hck), (cons_outputs _ _ Hck).
    + lia.
Qed.

(** X3 (witness). *)
Lemma rollback_is_replay_witness :
  exists sk dk,
    submit_all (take 2 [block1; block2; block3]) init_state empty_db = Some (sk, dk)
    /\ let o := post_rollback (ledger [block1; block2; block3]).1
                  (connect (ledger [block1; block2; block3]).2)
                  (of_int (Z.of_nat 2)) in
       let agg := unspent_by_address (t_outputs dk) in
       (accepted o.1.1 = true <-> map_Forall (fun _ v => int4 v = true) agg)
       /\ (accepted o.1.1 = true ->
           o.1.1 = RollbackSuccessful (Z.of_nat 2)
           /\ utxos o.1.2 = utxos sk
           /\ blocks o.1.2 = blocks sk
           /\ currentHeight o.1.2 = currentHeight sk
           /\ t_blocks (tables o.2) = t_blocks dk
           /\ t_transactions (tables o.2) = t_transactions dk
           /\ t_outputs (tables o.2) = t_outputs dk
           /\ (forall r, r ∈ t_inputs (tables o.2) <-> r ∈ t_inputs dk)
           /\ t_balances (tables o.2) = agg
           /\ balances o.1.2 = new_balances agg).
Proof.
  apply (rollback_is_replay [block1; block2; block3] 2).
  - by_evaluation.
  - simpl. lia.
Defined.

(** ** Keys of distinct outputs *)

(** X4.  The key [`${txId}:${index}`] identifies the output: two outputs
    that differ in their transaction id or in their integer index never get
    the same key, even when a transaction id contains a colon. *)
Theorem utxo_key_distinct (x1 x2 : string) (i1 i2 : Z) :
  (x1, i1) ≠ (x2, i2) -> utxo_key x1 i1 ≠ utxo_key x2 i2.
Proof. intros Hne E. apply utxo_key_inj in E as [-> ->]. done. Qed.

(** X4 (witness). *)
Lemma utxo_key_distinct_witness : utxo_key "a:1" 2 ≠ utxo_key "a" 12.
Proof. apply utxo_key_distinct. by_evaluation. Defined.

(** ** Heights and identifiers of the journal *)

(** X5.  Height contiguity: after any history of accepted operations the
    heights of the journal are 1, 2, ..., [currentHeight] in this order, and
    the [blocks] table holds exactly the (id, height) pairs of the journal. *)
Theorem height_contiguity (s : AppState) (d : DB) :
  reachable s d ->
  map blk_height (blocks s) = seqZ 1 (currentHeight s)
  /\ currentHeight s = Z.of_nat (length (blocks s))
  /\ (forall bid h, t_blocks d !! bid = Some h
               <-> exists b, b ∈ blocks s /\ blk_id b = bid /\ blk_height b = h).
Proof.
  intros H. apply reachable_consistent in H as Hc.
  rewrite (cons_height _ _ Hc). split; [apply Hc|]. split; [done|apply Hc].
Qed.

(** X5 (witness). *)
Lemma height_contiguity_witness :
  let sd := ledger [block1; block2; block3] in
  map blk_height (blocks sd.1) = seqZ 1 (currentHeight sd.1)
  /\ currentHeight sd.1 = Z.of_nat (length (blocks sd.1))
  /\ (forall bid h, t_blocks sd.2 !! bid = Some h
               <-> exists b, b ∈ blocks sd.1 /\ blk_id b = bid /\ blk_height b = h).
Proof.
  cbv zeta. apply height_contiguity. apply ledger_reachable. by_evaluation.
Defined.

(** X6.  Identifiers are unique: after any history of accepted operations
    no two blocks of the journal share an id and no two transactions of the
    journal share an id (the primary keys of [blocks] and [transactions]
    refuse the block otherwise). *)
Theorem journal_ids_unique (s : AppState) (d : DB) :
  reachable s d ->
  NoDup (map blk_id (blocks s)) /\ NoDup (tx_ids (journal_txs (blocks s))).
Proof.
  intros H. apply reachable_consistent in H as Hc. split; apply Hc.
Qed.

(** X6 (witness). *)
Lemma journal_ids_unique_witness :
  let sd := ledger [block1; block2; block3] in
  NoDup (map blk_id (blocks sd.1)) /\ NoDup (tx_ids (journal_txs (blocks sd.1))).
Proof.
  cbv zeta. apply (journal_ids_unique _ (ledger [block1; block2; block3]).2).
  apply ledger_reachable. by_evaluation.
Defined.

(** ** Reset *)

(** X7.  Reset: from any state and any store, even ones that a failed
    operation left in disagreement, a reset whose five statements go
    through leaves the initial in-memory state and the empty store, so the
    service then behaves as a fresh one; a reset that fails leaves the
    in-memory state as it was. *)
Theorem reset_clears (s s' : AppState) (c c' : Conn) (r : Reply) :
  post_reset s c = (r, s', c') ->
  (accepted r = true ->
     r = ResetSuccessful 0 0 0 0 /\ s' = init_state /\ tables c' = empty_db
     /\ forall bs, submit_all bs s' (tables c') = submit_all bs init_state empty_db)
  /\ (accepted r = false -> r = ResetFailed /\ s' = s).
Proof.
  intros H. split; intros Hr.
  - destruct (post_reset_accepted _ _ _ _ _ H Hr) as [-> ->].
    unfold post_reset in H. destruct (reset_store c) as [[u|] c1]; by simplify_eq.
  - unfold post_reset in H. destruct (reset_store c) as [[u|] c1]; by simplify_eq.
Qed.

(** X7 (witness): a reset after the failed submission of the
    counterexample to atomicity. *)
Lemma reset_clears_witness :
  let b := mk_block 1 [mk_tx "tx1" [] [("a", 1073741824); ("a", 1073741824)]] in
  let o := post_blocks init_state (connect empty_db) b in
  let o' := post_reset o.1.2 (connect (tables o.2)) in
  (accepted o'.1.1 = true ->
     o'.1.1 = ResetSuccessful 0 0 0 0 /\ o'.1.2 = init_state
     /\ tables o'.2 = empty_db
     /\ forall bs, submit_all bs o'.1.2 (tables o'.2)
              = submit_all bs init_state empty_db)
  /\ (accepted o'.1.1 = false -> o'.1.1 = ResetFailed /\ o'.1.2 = o.1.2).
Proof.
  cbv zeta.
  destruct (post_reset _ _) as [[r s'] c'] eqn:E.
  exact (reset_clears _ _ _ _ _ E).
Defined.

(** ** The store and the in-memory index *)

(** X8.  Agreement of the in-memory index with the store: after any history
    of accepted operations (on connections that may fail), [state.utxos]
    is exactly the set of rows of [outputs] with [is_spent = FALSE], under
    the key [`${txid}:${idx}`]; every entry of [state.balances] has a row
    in [balances] under a text without NUL, and the row holds the integer
    that the server reads in the entry (the entry itself may be a number or
    a text); and [state.balances] has no entry [__proto__], whatever the
    outputs. *)
Theorem store_agreement (s : AppState) (d : DB) :
  reachable s d ->
  utxos s = utxo_view (t_outputs d)
  /\ (forall a v, balances s !! a = Some v ->
        text_ok a = true
        /\ exists z, int4_value v = Some z /\ t_balances d !! a = Some z)
  /\ balances s !! "__proto__" = None.
Proof.
  intros H. apply reachable_consistent in H as Hc. split_and!; apply Hc.
Qed.

(** X8 (witness). *)
Lemma store_agreement_witness :
  let sd := ledger [block1; block2; block3] in
  utxos sd.1 = utxo_view (t_outputs sd.2)
  /\ (forall a v, balances sd.1 !! a = Some v ->
        text_ok a = true
        /\ exists z, int4_value v = Some z /\ t_balances sd.2 !! a = Some z)
  /\ balances sd.1 !! "__proto__" = None.
Proof.
  cbv zeta. apply store_agreement. apply ledger_reachable. by_evaluation.
Defined.

(** ** Acceptance of a block *)

Lemma int4_index idx : int4 (Z.of_nat idx) = true <-> Z.of_nat idx < 2147483648.
Proof. unfold int4. rewrite bool_decide_eq_true. lia. Qed.

Lemma write_inputs_ok tx ins d :
  is_Some (t_transactions d !! tx) -> text_ok tx = true ->
  Forall (fun i => int4 (index i) = true) ins ->
  Forall (fun i => text_ok (txId i) = true) ins ->
  exists d', write_inputs tx ins (connect d) = (Some tt, connect d').
Proof.
  revert d. induction ins as [|i ins IH]; intros d Htx Ht Hint Htext.
  { simpl. rewrite mret_unfold. eauto. }
  apply Forall_cons in Hint as [Hi Hint].
  apply Forall_cons in Htext as [Hti Htext].
  cbn [write_inputs]. rewrite bind_unfold, query_healthy.
  unfold insert_input. rewrite Ht, Hti, Hi, bool_decide_true by done. simpl.
  rewrite bind_unfold, query_healthy. unfold mark_spent. simpl. rewrite Hti, Hi.
  by apply IH.
Qed.

Lemma write_inputs_int4 tx ins c u c' :
  write_inputs tx ins c = (Some u, c') ->
  Forall (fun i => int4 (index i) = true) ins.
Proof.
  revert c. induction ins as [|i ins IH]; intros c H; [constructor|].
  cbn [write_inputs] in H. query_step H. query_step H.
  apply IH in H. unfold mark_spent in Hq0. guarded Hq0 E.
  apply andb_prop in E as [_ Ei]. by constructor.
Qed.

Lemma write_outputs_ok tx idx os d :
  rows_fresh tx idx os (t_outputs d) -> text_ok tx = true ->
  Forall (fun o => int4 (value o) = true) os ->
  Forall (fun o => text_ok (address o) = true) os ->
  (os ≠ [] -> Z.of_nat (idx + length os) <= 2147483648) ->
  exists d', write_outputs tx idx os (connect d) = (Some tt, connect d').
Proof.
  revert idx d. induction os as [|o os IH]; intros idx d Hfr Ht Hint Htext Hlen.
  { simpl. rewrite mret_unfold. eauto. }
  apply Forall_cons in Hint as [Hv Hint]. destruct Hfr as [Hnew Hfr].
  apply Forall_cons in Htext as [Hta Htext].
  specialize (Hlen ltac:(done)). simpl in Hlen.
  cbn [write_outputs]. rewrite bind_unfold, query_healthy.
  unfold insert_output. rewrite Ht, Hta, Hv, bool_decide_true by done.
  rewrite (proj2 (int4_index idx)) by lia. simpl.
  apply IH; [done..|]. intros _. lia.
Qed.

Lemma write_outputs_int4 tx idx os c u c' :
  write_outputs tx idx os c = (Some u, c') ->
  Forall (fun o => int4 (value o) = true) os
  /\ (os ≠ [] -> Z.of_nat (idx + length os) <= 2147483648).
Proof.
  revert idx c. induction os as [|o os IH]; intros idx c H; [by split|].
  cbn [write_outputs] in H. query_step H.
  apply IH in H as [H Hlen]. unfold insert_output in Hq. guarded Hq E.
  apply andb_prop in E as [[[_ Ei]%andb_prop Ev]%andb_prop _].
  split; [by constructor|]. intros _. simpl.
  apply int4_index in Ei.
  destruct os as [|o' os]; [simpl; lia|].
  specialize (Hlen ltac:(done)). simpl in *. lia.
Qed.

Lemma write_transactions_ok bid txs d :
  is_Some (t_blocks d !! bid) -> text_ok bid = true ->
  NoDup (map tx_id txs) ->
  Forall (fun t => t_transactions d !! tx_id t = None) txs ->
  txs_fresh txs (t_outputs d) ->
  Forall tx_int4 txs -> Forall tx_text txs ->
  exists d', write_transactions bid txs (connect d) = (Some tt, connect d').
Proof.
  revert d. induction txs as [|t txs IH]; intros d Hb Htb Hnd Hnew Hfr Hint Htext.
  { simpl. rewrite mret_unfold. eauto. }
  cbn [map] in Hnd. apply NoDup_cons in Hnd as [Ht Hnd].
  apply Forall_cons in Hnew as [Htn Hnew].
  apply Forall_cons in Hint as [(Hi & Hv & Hlen) Hint].
  apply Forall_cons in Htext as [(Hti & Htin & Htout) Htext].
  destruct Hfr as [Hrows Hfr].
  cbn [write_transactions]. rewrite bind_unfold, query_healthy.
  unfold insert_transaction. rewrite Hti, Htb, !bool_decide_true by done. simpl.
  match goal with |- context [connect ?x] => set (d1 := x) end.
  destruct (write_inputs_ok (tx_id t) (tx_inputs t) d1) as [d2 E2]; [|done..|].
  { subst d1. simpl. rewrite lookup_insert_eq. eauto. }
  rewrite bind_unfold, E2. apply write_inputs_Some in E2. simpl in E2.
  destruct (write_outputs_ok (tx_id t) 0 (tx_outputs t) d2) as [d3 E3];
    [by rewrite E2|done..|simpl; intros _; lia|].
  rewrite bind_unfold, E3. apply write_outputs_Some in E3 as [E3 _].
  simpl in E3. subst d3 d2. apply IH; simpl; try done.
  apply Forall_forall. intros t' Ht'. subst d1. simpl.
  rewrite Forall_forall in Hnew.
  rewrite lookup_insert_ne; [by apply Hnew|]. intros E.
  apply Ht. rewrite E. apply list_elem_of_fmap. eauto.
Qed.

Lemma write_transactions_int4 bid txs c u c' :
  write_transactions bid txs c = (Some u, c') -> Forall tx_int4 txs.
Proof.
  revert c. induction txs as [|t txs IH]; intros c H; [constructor|].
  cbn [write_transactions] in H. query_step H.
  apply bind_Some in H as (u1 & c1 & Hin & H).
  apply bind_Some in H as (u2 & c2 & Hout & H).
  apply write_inputs_int4 in Hin. apply write_outputs_int4 in Hout as [Hv Hlen].
  apply IH in H. constructor; [|done]. split; [done|]. split; [done|].
  destruct (tx_outputs t) as [|o os]; [simpl; lia|].
  specialize (Hlen ltac:(done)). simpl in *. lia.
Qed.

Lemma write_block_ok b d :
  block_writable d b -> text_ok (blk_id b) = true ->
  Forall tx_int4 (blk_transactions b) -> Forall tx_text (blk_transactions b) ->
  exists d', write_block b (connect d) = (Some tt, connect d').
Proof.
  intros (Hh & Hid & Huniq & Hnd & Hnew & Hfr) Htb Hint Htext.
  unfold write_block. rewrite bind_unfold, query_healthy.
  unfold insert_block. rewrite Htb, Hh, !bool_decide_true by done. simpl.
  apply write_transactions_ok; simpl; try done.
  rewrite lookup_insert_eq. eauto.
Qed.

Lemma write_block_int4 b c u c' :
  write_block b c = (Some u, c') -> Forall tx_int4 (blk_transactions b).
Proof.
  unfold write_block. intros H. query_step H.
  by apply write_transactions_int4 in H.
Qed.

Lemma persist_balances_ok entries d :
  Forall (fun e => text_ok e.1 = true /\ is_Some (int4_value e.2)) entries ->
  exists d', persist_balances entries (connect d) = (Some tt, connect d').
Proof.
  revert d. induction entries as [|[a v] entries IH]; intros d Hint.
  { simpl. rewrite mret_unfold. eauto. }
  apply Forall_cons in Hint as [[Ha [z Hv]] Hint]. simpl in Ha, Hv.
  cbn [persist_balances]. rewrite bind_unfold, query_healthy.
  unfold upsert_balance. rewrite Hv, Ha. by apply IH.
Qed.

Lemma post_blocks_accepts s d b :
  height_rule s b ->
  Forall (tx_passes (utxos s)) (blk_transactions b) ->
  blk_id b = expected_id b ->
  block_writable d b ->
  Forall tx_int4 (blk_transactions b) ->
  Forall tx_text (blk_transactions b) ->
  persistable (apply_block (utxos s, balances s) b).2 ->
  exists c', post_blocks s (connect d) b
        = (BlockAccepted (blk_height b), state_after_block s b, c').
Proof.
  intros Hh Htx Hid Hw Hint Htext H4.
  assert (validate s b = None) as Hv by by apply validate_None.
  assert (text_ok (blk_id b) = true) as Htb.
  { rewrite Hid. apply text_ok_sha256. }
  unfold post_blocks. rewrite Hv.
  destruct (write_block_ok _ _ Hw Htb Hint Htext) as [d1 ->]. cbv zeta.
  destruct (persist_balances_ok
              (map_to_list (apply_block (utxos s, balances s) b).2) d1)
    as [d2 ->]; [|by eauto].
  apply Forall_forall. intros [a v] Hin. apply elem_of_map_to_list in Hin.
  by apply (H4 a v).
Qed.

Lemma post_blocks_accepted_int4 s c b r s' c' :
  post_blocks s c b = (r, s', c') -> accepted r = true ->
  Forall tx_int4 (blk_transactions b)
  /\ persistable (apply_block (utxos s, balances s) b).2.
Proof.
  intros E Hr. unfold post_blocks in E.
  destruct (validate s b) as [r0|] eqn:Ev;
    [apply validate_rejects in Ev; injection E as <- _ _; congruence|].
  destruct (write_block b c) as [[u|] c1] eqn:Ew;
    [|injection E as <- _ _; done].
  split; [by apply write_block_int4 in Ew|].
  destruct (persist_balances _ c1) as [[u2|] c2] eqn:Ep;
    [|injection E as <- _ _; done].
  apply persist_balances_Some in Ep as [_ Hp]. rewrite Forall_forall in Hp.
  intros a v Hl. apply (Hp (a, v)). by apply elem_of_map_to_list.
Qed.

(** X10.  Acceptance of a block, in full.  On any connection, a block is
    accepted only if it passes the three checks (height, inputs and
    conservation, id), the primary keys and the UNIQUE height of the store
    admit its rows, its input indices, output values and output positions
    fit a 32-bit [INTEGER], its transaction ids, referenced ids and
    addresses hold no NUL, and every entry that [state.balances] has after
    the block is keyed by a text without NUL and holds a number or a text
    that the server reads as a 32-bit integer; the state is then the
    journal with the block appended, the block's height, and the UTXO map
    and balances after the block.  On a healthy connection these
    conditions are also sufficient. *)
Theorem block_acceptance (s : AppState) (c : Conn) (b : Block) :
  let o := post_blocks s c b in
  let ok :=
    height_rule s b
    /\ Forall (tx_passes (utxos s)) (blk_transactions b)
    /\ blk_id b = expected_id b
    /\ block_writable (tables c) b
    /\ Forall tx_int4 (blk_transactions b)
    /\ Forall tx_text (blk_transactions b)
    /\ persistable (apply_block (utxos s, balances s) b).2 in
  (accepted o.1.1 = true ->
     ok /\ o.1.1 = BlockAccepted (blk_height b) /\ o.1.2 = state_after_block s b)
  /\ (fuse c = None -> ok -> accepted o.1.1 = true).
Proof.
  cbv zeta. split.
  - destruct (post_blocks s c b) as [[r s'] c'] eqn:E. cbn [fst snd].
    intros Hr. pose proof (post_blocks_reply _ _ _ _ _ _ E Hr) as ->.
    pose proof (post_blocks_accepted_int4 _ _ _ _ _ _ E Hr) as [Hint Hp].
    apply post_blocks_accepted in E as (Hv & _ & -> & Hw & _ & Htext & _).
    apply validate_None in Hv as (? & ? & ?). done.
  - intros Hf (Hh & Htx & Hid & Hw & Hint & Htext & H4).
    destruct c as [d f]. simpl in Hf. subst f.
    destruct (post_blocks_accepts s d b) as [c' E]; try done.
    unfold connect in E. by rewrite E.
Qed.

(** X10 (witness). *)
Lemma block_acceptance_witness :
  let c := connect empty_db in
  let o := post_blocks init_state c block1 in
  let ok :=
    height_rule init_state block1
    /\ Forall (tx_passes (utxos init_state)) (blk_transactions block1)
    /\ blk_id block1 = expected_id block1
    /\ block_writable (tables c) block1
    /\ Forall tx_int4 (blk_transactions block1)
    /\ Forall tx_text (blk_transactions block1)
    /\ persistable (apply_block (utxos init_state, balances init_state) block1).2 in
  (accepted o.1.1 = true ->
     ok /\ o.1.1 = BlockAccepted (blk_height block1)
     /\ o.1.2 = state_after_block init_state block1)
  /\ (fuse c = None -> ok -> accepted o.1.1 = true).
Proof. exact (block_acceptance init_state (connect empty_db) block1). Defined.

(** Three blocks that pass validation.  A first block that pays the address
    [constructor] has its rows written, but the balance it leaves is the
    text of a function followed by 5, which the upsert refuses; a
    transaction id that holds NUL is refused by the [transactions] table;
    and a first block that pays [__proto__] is accepted whatever the amount
    adds up to, because no balance is stored for it. *)
Lemma block_acceptance_examples :
  let b1 := mk_block 1 [mk_tx "tx1" [] [("constructor", 5)]] in
  let o1 := post_blocks init_state (connect empty_db) b1 in
  let b2 := mk_block 1 [mk_tx (String "000" "tx") [] [("addr1", 5)]] in
  let o2 := post_blocks init_state (connect empty_db) b2 in
  let b3 := mk_block 1 [mk_tx "tx1" [] [("__proto__", 2147483647);
                                        ("__proto__", 2147483647)]] in
  let o3 := post_blocks init_state (connect empty_db) b3 in
  (validate init_state b1 = None /\ o1.1.1 = DatabaseError
   /\ balances o1.1.2 !! "constructor" = Some (VNative "constructor" "5"))
  /\ (validate init_state b2 = None /\ o2.1.1 = DatabaseError
      /\ t_transactions (tables o2.2) = ∅)
  /\ (o3.1.1 = BlockAccepted 1 /\ balances o3.1.2 = ∅).
Proof. cbv zeta. split_and!; by_evaluation. Qed.

(** ** What the store can still refuse after validation *)

Lemma rows_fresh_new (txid : string) (idx : nat) (os : list Output) (outs : gmap (string * Z) OutputRow) :
  (forall z, outs !! (txid, z) = None) -> rows_fresh txid idx os outs.
Proof.
  intros H. assert (forall j, (idx <= j)%nat -> outs !! (txid, Z.of_nat j) = None)
    as Hj by (intros; apply H). clear H.
  revert idx outs Hj. induction os as [|o os IH]; intros idx outs Hj; [done|].
  split; [by apply Hj|]. apply IH. intros j Hle.
  rewrite lookup_insert_ne; [apply Hj; lia|]. intros E.
  injection E as E. lia.
Qed.

Lemma txs_fresh_new (txs : list Transaction) (outs : gmap (string * Z) OutputRow) :
  NoDup (tx_ids txs) ->
  (forall t z, t ∈ txs -> outs !! (tx_id t, z) = None) ->
  txs_fresh txs outs.
Proof.
  revert outs. induction txs as [|t txs IH]; intros outs Hnd Hnew; [done|].
  cbn [tx_ids map] in Hnd. apply NoDup_cons in Hnd as [Ht Hnd].
  split.
  - apply rows_fresh_new. intros z. rewrite spend_rows_lookup.
    rewrite (Hnew t z) by left. by case_decide.
  - apply IH; [done|]. intros t' z Ht'.
    assert (tx_id t' ≠ tx_id t) as Hne.
    { intros E. apply Ht. rewrite <- E. apply list_elem_of_fmap. eauto. }
    unfold outputs_after_tx. rewrite add_rows_lookup_ne by done.
    rewrite spend_rows_lookup. rewrite (Hnew t' z) by by right.
    by case_decide.
Qed.

Lemma writable_on_consistent s d b :
  consistent s d -> height_rule s b ->
  block_writable d b
  <-> int4 (blk_height b) = true
      /\ (blk_id b ∉ map blk_id (blocks s))
      /\ NoDup (tx_ids (blk_transactions b))
      /\ Forall (fun x => x ∉ tx_ids (journal_txs (blocks s)))
           (tx_ids (blk_transactions b)).
Proof.
  intros Hc Hh.
  assert (t_blocks d !! blk_id b = None <-> blk_id b ∉ map blk_id (blocks s))
    as Hid.
  { rewrite eq_None_not_Some. apply not_iff_compat. split.
    - intros [h Hb]. apply (cons_blocks _ _ Hc) in Hb as (b' & Hb' & E & _).
      rewrite <- E. apply list_elem_of_fmap. eauto.
    - intros (b' & E & Hb')%list_elem_of_fmap. exists (blk_height b').
      apply (cons_blocks _ _ Hc). eauto. }
  assert (forall t, t_transactions d !! tx_id t = None
               <-> tx_id t ∉ tx_ids (journal_txs (blocks s))) as Htx.
  { intros t. rewrite eq_None_not_Some. apply not_iff_compat. split.
    - intros [bid Hb].
      apply (cons_transactions _ _ Hc) in Hb as (b' & t' & Hb' & Ht' & E & _).
      apply elem_of_tx_ids. exists t'. split; [|done].
      apply elem_of_journal_txs. eauto.
    - intros (t' & Ht' & E)%elem_of_tx_ids.
      apply elem_of_journal_txs in Ht' as (b' & Hb' & Ht').
      exists (blk_id b'). apply (cons_transactions _ _ Hc). eauto 10. }
  unfold block_writable. rewrite Hid. split.
  - intros (H4 & Hb & _ & Hnd & Hnew & _). split_and!; try done.
    apply Forall_forall. intros x (t & Ht & <-)%elem_of_tx_ids. apply Htx.
    rewrite Forall_forall in Hnew. by apply Hnew.
  - intros (H4 & Hb & Hnd & Hnew). rewrite Forall_forall in Hnew.
    split_and!; try done.
    + intros bid h Hb' E.
      apply (cons_blocks _ _ Hc) in Hb' as (b' & [i Hi]%list_elem_of_lookup & _ & Eh).
      pose proof (height_lookup _ _ _ (cons_heights _ _ Hc) Hi) as Hi'.
      pose proof (lookup_lt_Some _ _ _ Hi) as Hlt.
      pose proof (cons_height _ _ Hc) as Hcur.
      destruct Hh as [[H0 _]|[_ Hn]]; lia.
    + apply Forall_forall. intros t Ht. apply Htx, Hnew.
      apply elem_of_tx_ids. eauto.
    + apply txs_fresh_new; [done|]. intros t z Ht.
      apply eq_None_not_Some. intros Hsome.
      rewrite (cons_outputs _ _ Hc) in Hsome.
      apply journal_rows_txid in Hsome. simpl in Hsome.
      apply (Hnew (tx_id t)); [|done]. apply elem_of_tx_ids. eauto.
Qed.

(** X11.  What the store can still refuse.  After any history of accepted
    operations, a block is accepted on a healthy connection if and only if
    it passes the three checks of the validator, its id is not the id of a
    block of the journal, its transaction ids are distinct and none is the
    id of a transaction of the journal, its height, its input indices and
    its output values and positions fit a 32-bit [INTEGER], its strings
    hold no NUL, and every entry that [state.balances] has after the block
    is keyed by a text without NUL and is read by the server as a 32-bit
    integer.  In particular the UNIQUE constraint on heights and the
    primary key of [outputs] never refuse a block that the others admit. *)
Theorem block_acceptance_reachable (s : AppState) (d : DB) (b : Block) :
  reachable s d ->
  accepted (post_blocks s (connect d) b).1.1 = true
  <-> height_rule s b
      /\ Forall (tx_passes (utxos s)) (blk_transactions b)
      /\ blk_id b = expected_id b
      /\ int4 (blk_height b) = true
      /\ (blk_id b ∉ map blk_id (blocks s))
      /\ NoDup (tx_ids (blk_transactions b))
      /\ Forall (fun x => x ∉ tx_ids (journal_txs (blocks s)))
           (tx_ids (blk_transactions b))
      /\ Forall tx_int4 (blk_transactions b)
      /\ Forall tx_text (blk_transactions b)
      /\ persistable (apply_block (utxos s, balances s) b).2.
Proof.
  intros Hr. apply reachable_consistent in Hr as Hc. split.
  - destruct (post_blocks s (connect d) b) as [[r s'] c'] eqn:E. cbn [fst snd].
    intros Ha. pose proof (post_blocks_reply _ _ _ _ _ _ E Ha) as ->.
    pose proof (post_blocks_accepted_int4 _ _ _ _ _ _ E Ha) as [Hint Hp].
    apply post_blocks_accepted in E as (Hv & _ & -> & Hw & _ & Htext & _).
    apply validate_None in Hv as (Hh & ? & ?).
    apply (writable_on_consistent s d b Hc Hh) in Hw as (? & ? & ? & ?).
    done.
  - intros (Hh & Htx & Hid & H4 & Hb & Hnd & Hnew & Hint & Htext & Hbal).
    destruct (post_blocks_accepts s d b) as [c' E]; try done.
    + by apply (writable_on_consistent s d b Hc Hh).
    + by rewrite E.
Qed.

(** X11 (witness). *)
Lemma block_acceptance_reachable_witness :
  let sd := ledger [block1; block2] in
  accepted (post_blocks sd.1 (connect sd.2) block3).1.1 = true
  <-> height_rule sd.1 block3
      /\ Forall (tx_passes (utxos sd.1)) (blk_transactions block3)
      /\ blk_id block3 = expected_id block3
      /\ int4 (blk_height block3) = true
      /\ (blk_id block3 ∉ map blk_id (blocks sd.1))
      /\ NoDup (tx_ids (blk_transactions block3))
      /\ Forall (fun x => x ∉ tx_ids (journal_txs (blocks sd.1)))
           (tx_ids (blk_transactions block3))
      /\ Forall tx_int4 (blk_transactions block3)
      /\ Forall tx_text (blk_transactions block3)
      /\ persistable (apply_block (utxos sd.1, balances sd.1) block3).2.
Proof.
  cbv zeta. apply block_acceptance_reachable. apply ledger_reachable.
  by_evaluation.
Defined.

Lemma listing_sorted J m :
  map blk_height J = seqZ m (Z.of_nat (length J)) -> Sorted by_height (listing J).
Proof.
  revert m. induction J as [|b J IH]; intros m H; [constructor|].
  cbn [length map] in H. rewrite seqZ_cons in H by lia.
  injection H as Hb H. replace (Z.pred (Z.of_nat (S (length J))))
    with (Z.of_nat (length J)) in H by lia.
  cbn [listing map]. constructor; [by apply (IH (Z.succ m))|].
  destruct J as [|b' J]; [constructor|]. constructor.
  cbn [length map] in H. rewrite seqZ_cons in H by lia.
  injection H as Hb' _. unfold by_height. simpl. lia.
Qed.

Lemma elem_of_listing J r :
  r ∈ listing J <-> exists b, b ∈ J /\ blk_id b = r.1 /\ blk_height b = r.2.
Proof.
  unfold listing. rewrite list_elem_of_fmap. split.
  - intros (b & -> & Hb). eauto.
  - intros (b & Hb & E1 & E2). exists b. split; [|done].
    destruct r. simpl in *. by subst.
Qed.

Lemma blocks_rows s d :
  consistent s d -> map_to_list (t_blocks d) ≡ₚ listing (blocks s).
Proof.
  intros Hc. apply NoDup_Permutation.
  - apply NoDup_map_to_list.
  - apply (NoDup_fmap_1 fst). unfold listing. rewrite <- list_fmap_compose.
    apply (cons_block_ids _ _ Hc).
  - intros [bid h]. rewrite elem_of_map_to_list, elem_of_listing.
    apply (cons_blocks _ _ Hc).
Qed.

Lemma sorted_rows s d rows :
  consistent s d -> rows ≡ₚ map_to_list (t_blocks d) -> Sorted by_height rows ->
  rows = listing (blocks s).
Proof.
  intros Hc Hp Hs. rewrite (blocks_rows _ _ Hc) in Hp.
  apply (Sorted_unique_strong by_height); [|done| |done].
  - intros x1 x2 H1 H2 Hle Hge. rewrite Hp in H1.
    apply elem_of_listing in H1 as (b1 & [i Hi]%list_elem_of_lookup & E1 & E1').
    apply elem_of_listing in H2 as (b2 & [j Hj]%list_elem_of_lookup & E2 & E2').
    pose proof (height_lookup _ _ _ (cons_heights _ _ Hc) Hi).
    pose proof (height_lookup _ _ _ (cons_heights _ _ Hc) Hj).
    unfold by_height in *. assert (i = j) as -> by lia.
    assert (b1 = b2) as -> by congruence.
    destruct x1, x2. simpl in *. congruence.
  - apply (listing_sorted _ 1), Hc.
Qed.

(** X12.  The block list: after any history of accepted operations,
    [GET /blocks] answers the (id, height) pairs of the journal in the order
    of the journal, their number, and [currentHeight], which is that number;
    it fails only when the connection does.  The answer does not depend on
    how the store orders rows of equal height: any list of the rows of
    [blocks] in ascending height is that list. *)
Theorem blocks_listing (s : AppState) (d : DB) (f : option nat) :
  reachable s d ->
  get_blocks s {| tables := d; fuse := f |}
  = match f with
    | Some O => None
    | _ => Some (listing (blocks s),
                 length (blocks s), Z.of_nat (length (blocks s)))
    end
  /\ (forall rows, rows ≡ₚ map_to_list (t_blocks d) -> Sorted by_height rows ->
        rows = listing (blocks s)).
Proof.
  intros Hr. apply reachable_consistent in Hr as Hc. split.
  - unfold get_blocks, query, select_blocks. cbn [tables fuse].
    rewrite (sorted_rows s d (merge_sort by_height (map_to_list (t_blocks d)))
               Hc (merge_sort_Permutation _ _) (Sorted_merge_sort _ _)).
    destruct f as [[|n]|]; cbn; unfold listing;
      by rewrite ?length_map, ?(cons_height _ _ Hc).
  - intros rows. apply (sorted_rows _ _ _ Hc).
Qed.

(** X12 (witness). *)
Lemma blocks_listing_witness :
  let sd := ledger [block1; block2; block3] in
  get_blocks sd.1 (connect sd.2)
  = Some (listing (blocks sd.1),
          length (blocks sd.1), Z.of_nat (length (blocks sd.1)))
  /\ (forall rows, rows ≡ₚ map_to_list (t_blocks sd.2) -> Sorted by_height rows ->
        rows = listing (blocks sd.1)).
Proof.
  cbv zeta.
  apply (blocks_listing _ (ledger [block1; block2; block3]).2 None).
  apply ledger_reachable. by_evaluation.
Defined.

(** ** Rollback from any reachable state *)

(** ** When a rollback goes through *)

Lemma rollback_runs (s : AppState) (d : DB) (k : Z) :
  consistent s d -> 1 <= k <= currentHeight s ->
  map_Forall (fun _ v => int4 v = true)
    (unspent_by_address (journal_outputs (take (Z.to_nat k) (blocks s)))) ->
  exists s' c',
    post_rollback s (connect d) (of_int k) = (RollbackSuccessful k, s', c').
Proof.
  intros Hc Hk Hint.
  assert (int4 k = true) as Hk4.
  { apply (int4_le _ (currentHeight s)); [lia | apply Hc]. }
  rewrite <- (rollback_outputs_take s d) in Hint by (done || lia).
  destruct (rollback_store_ok _ _ Hint) as (nb & c' & Es).
  destruct (of_int_guards _ _ Hk) as (Hf & Hlt & Hgt).
  unfold post_rollback.
  rewrite Hf, Hlt, Hgt, (int4_param_of_int _ Hk4), Es. eauto.
Qed.

(** X13.  When a rollback goes through: after any history of accepted
    operations, a rollback to a whole height [k] between 1 and
    [currentHeight] succeeds on a healthy connection if and only if, in the
    rows that the first [k] blocks of the journal write, the unspent
    outputs of every address add up to a 32-bit [INTEGER] (the aggregate is
    inserted into [balances], address by address).  It then keeps the first
    [k] blocks of the journal, sets [currentHeight] to [k], and leaves a
    state that a history of accepted operations gives. *)
Theorem rollback_succeeds (s : AppState) (d : DB) (k : Z) :
  reachable s d -> 1 <= k <= currentHeight s ->
  let o := post_rollback s (connect d) (of_int k) in
  let agg := unspent_by_address (journal_outputs (take (Z.to_nat k) (blocks s))) in
  (accepted o.1.1 = true <-> map_Forall (fun _ v => int4 v = true) agg)
  /\ (accepted o.1.1 = true ->
      o.1.1 = RollbackSuccessful k
      /\ blocks o.1.2 = take (Z.to_nat k) (blocks s)
      /\ currentHeight o.1.2 = k
      /\ reachable o.1.2 (tables o.2)).
Proof.
  intros Hr Hk. cbv zeta. pose proof (reachable_consistent _ _ Hr) as Hc.
  assert (int4 k = true) as Hk4.
  { apply (int4_le _ (currentHeight s)); [lia | apply Hc]. }
  destruct (post_rollback s (connect d) (of_int k)) as [[r s'] c'] eqn:E.
  cbn [fst snd]. split; [split|].
  - intros Ha.
    apply post_rollback_accepted in E as (k' & Hp & _ & _ & _ & _ & Hint); [|done].
    rewrite (int4_param_of_int _ Hk4) in Hp. injection Hp as <-.
    rewrite <- (rollback_outputs_take s d) by (done || lia). exact Hint.
  - intros Hint. destruct (rollback_runs s d k Hc Hk Hint) as (s1 & c1 & E1).
    rewrite E1 in E. by simplify_eq.
  - intros Ha. pose proof E as E'.
    apply post_rollback_accepted in E' as (k' & Hp & _ & -> & _ & Hs & _); [|done].
    rewrite (int4_param_of_int _ Hk4) in Hp. injection Hp as <-.
    split_and!.
    + done.
    + rewrite Hs. cbn [blocks]. rewrite (filter_heights _ 1) by apply Hc.
      f_equal. lia.
    + by rewrite Hs.
    + by apply (reachable_step (Rollback (of_int k)) None s d _ s' c' Hr E).
Qed.

(** X13 (witness). *)
Lemma rollback_succeeds_witness :
  let sd := ledger [block1; block2; block3] in
  let o := post_rollback sd.1 (connect sd.2) (of_int 2) in
  let agg :=
    unspent_by_address (journal_outputs (take (Z.to_nat 2) (blocks sd.1))) in
  (accepted o.1.1 = true <-> map_Forall (fun _ v => int4 v = true) agg)
  /\ (accepted o.1.1 = true ->
      o.1.1 = RollbackSuccessful 2
      /\ blocks o.1.2 = take (Z.to_nat 2) (blocks sd.1)
      /\ currentHeight o.1.2 = 2
      /\ reachable o.1.2 (tables o.2)).
Proof.
  cbv zeta. apply rollback_succeeds.
  - apply ledger_reachable. by_evaluation.
  - by_evaluation.
Defined.

(** X13 (an accepted history whose rollback is refused): the two outputs of
    the first block pay [__proto__], for which no balance is kept, so the
    block is accepted; the aggregate of the rollback has a row for it,
    4294967294, which the [balances] table refuses. *)
Lemma rollback_refused_example :
  let b := mk_block 1 [mk_tx "tx1" [] [("__proto__", 2147483647);
                                       ("__proto__", 2147483647)]] in
  let sd := ledger [b] in
  let o := post_rollback sd.1 (connect sd.2) (of_int 1) in
  blocks sd.1 = [b]
  /\ o.1.1 = RollbackFailed
  /\ unspent_by_address (t_outputs sd.2) !! "__proto__" = Some 4294967294
  /\ t_balances (tables o.2) = ∅.
Proof. cbv zeta. split_and!; by_evaluation. Qed.

Lemma total_insert u k o :
  u !! k = None -> total (<[k := o]> u) = total u + value o.
Proof.
  intros. unfold total. rewrite map_fold_insert_L; [done|intros; lia|done].
Qed.

Lemma total_delete u k o :
  u !! k = Some o -> total (delete k u) = total u - value o.
Proof.
  intros Hk. rewrite <- (insert_delete_id u k o) at 2 by done.
  rewrite total_insert by apply lookup_delete_eq. lia.
Qed.

Lemma spend_inputs_lookup ins m k :
  (fold_left spend_input ins m).1 !! k
  = if decide (k ∈ map input_key ins) then None else m.1 !! k.
Proof.
  revert m. induction ins as [|i ins IH]; intros m.
  { cbn [fold_left map]. destruct (decide (k ∈ [])) as [H|H]; [by apply not_elem_of_nil in H|done]. }
  cbn [fold_left map]. rewrite IH. unfold spend_input at 1. cbn [fst].
  fold (input_key i). rewrite lookup_delete.
  repeat case_decide; rewrite ?elem_of_cons in *; naive_solver.
Qed.

Lemma spend_inputs_total ins m u0 :
  NoDup (map input_key ins) ->
  Forall (fun i => is_Some (u0 !! input_key i)
                   /\ m.1 !! input_key i = u0 !! input_key i) ins ->
  total (fold_left spend_input ins m).1
  = total m.1 - foldr (fun i acc => input_value u0 i + acc) 0 ins.
Proof.
  revert m. induction ins as [|i ins IH]; intros m Hnd Hin; [simpl; lia|].
  cbn [map] in Hnd. apply NoDup_cons in Hnd as [Hi Hnd].
  apply Forall_cons in Hin as [[[o Ho] Hm] Hin].
  cbn [fold_left foldr]. rewrite IH; [|done|].
  - unfold spend_input at 1. cbn [fst]. fold (input_key i).
    rewrite Ho in Hm. rewrite (total_delete _ _ _ Hm).
    unfold input_value at 2. rewrite Ho. simpl. lia.
  - rewrite Forall_forall in Hin |- *. intros i' Hi'.
    destruct (Hin i' Hi') as [Hs He]. split; [done|].
    unfold spend_input. cbn [fst]. fold (input_key i).
    rewrite lookup_delete_ne; [done|]. intros E. apply Hi. rewrite E.
    apply list_elem_of_fmap. eauto.
Qed.

Lemma add_outputs_lookup txid idx os m k :
  (forall j, k ≠ utxo_key txid (Z.of_nat j)) ->
  (add_outputs txid idx os m).1 !! k = m.1 !! k.
Proof.
  intros Hk. revert idx m. induction os as [|o os IH]; intros idx m; [done|].
  simpl. rewrite IH. unfold add_output. simpl.
  rewrite lookup_insert_ne; [done|]. intros E. by apply (Hk idx).
Qed.

Lemma add_outputs_total txid idx os m :
  (forall j, m.1 !! utxo_key txid (Z.of_nat j) = None) ->
  total (add_outputs txid idx os m).1
  = total m.1 + foldr (fun o acc => value o + acc) 0 os.
Proof.
  intros H.
  assert (forall j, (idx <= j)%nat -> m.1 !! utxo_key txid (Z.of_nat j) = None)
    as Hj by (intros; apply H). clear H.
  revert idx m Hj. induction os as [|o os IH]; intros idx m Hj; [simpl; lia|].
  cbn [add_outputs foldr]. rewrite IH.
  - unfold add_output. cbn [fst]. rewrite total_insert by by apply Hj. lia.
  - intros j Hle. unfold add_output. cbn [fst].
    rewrite lookup_insert_ne; [apply Hj; lia|].
    intros [_ E]%utxo_key_inj. lia.
Qed.

Lemma apply_transactions_total txs m u0 :
  NoDup (flat_map (fun t => map input_key (tx_inputs t)) txs) ->
  NoDup (tx_ids txs) ->
  Forall (tx_passes u0) txs ->
  (forall t i, t ∈ txs -> i ∈ tx_inputs t ->
          m.1 !! input_key i = u0 !! input_key i) ->
  (forall t j, t ∈ txs -> m.1 !! utxo_key (tx_id t) (Z.of_nat j) = None) ->
  total (fold_left apply_transaction txs m).1
  = total m.1
    + foldr (fun t acc =>
               (if bool_decide (tx_inputs t = []) then out_sum t else 0) + acc)
            0 txs.
Proof.
  revert m. induction txs as [|t txs IH]; intros m Hin Hids Hpass Hold Hnew;
    [simpl; lia|].
  cbn [flat_map] in Hin. apply NoDup_app in Hin as (Hin1 & Hin12 & Hin2).
  cbn [tx_ids map] in Hids. apply NoDup_cons in Hids as [Hid Hids].
  apply Forall_cons in Hpass as [[Hpres Hcons] Hpass].
  cbn [fold_left foldr].
  set (m1 := fold_left spend_input (tx_inputs t) m).
  assert (total m1.1 = total m.1 - in_sum u0 t) as E1.
  { apply spend_inputs_total; [done|]. apply Forall_forall. intros i Hi. split.
    - rewrite Forall_forall in Hpres. by apply Hpres.
    - apply (Hold t); [left|done]. }
  assert (forall j, m1.1 !! utxo_key (tx_id t) (Z.of_nat j) = None) as Hfree.
  { intros j. unfold m1. rewrite spend_inputs_lookup.
    case_decide; [done|]. apply Hnew. left. }
  rewrite IH; try done.
  - unfold apply_transaction. fold m1.
    rewrite (add_outputs_total _ _ _ _ Hfree), E1. fold (out_sum t).
    unfold conserves in Hcons. case_bool_decide as He.
    + unfold in_sum. rewrite He. simpl. lia.
    + destruct Hcons as [?|Hc]; [done|]. lia.
  - intros t' i' Ht' Hi'.
    assert (is_Some (u0 !! input_key i')) as Hsome.
    { rewrite Forall_forall in Hpass. specialize (Hpass _ Ht') as [Hp _].
      rewrite Forall_forall in Hp. by apply Hp. }
    pose proof (Hold t' i' ltac:(by right) Hi') as Hm.
    unfold apply_transaction. fold m1. rewrite add_outputs_lookup.
    + unfold m1. rewrite spend_inputs_lookup. case_decide as Hd; [|done].
      exfalso. apply (Hin12 _ Hd). apply list_elem_of_In, in_flat_map.
      exists t'. split; [by apply list_elem_of_In|].
      apply list_elem_of_In, list_elem_of_fmap. eauto.
    + intros j E. rewrite E in Hm, Hsome.
      rewrite (Hnew t j) in Hm by left. rewrite <- Hm in Hsome.
      by destruct Hsome.
  - intros t' j Ht'.
    unfold apply_transaction. fold m1. rewrite add_outputs_lookup.
    + unfold m1. rewrite spend_inputs_lookup. case_decide; [done|].
      apply Hnew. by right.
    + intros j' [E _]%utxo_key_inj. apply Hid. rewrite <- E.
      apply list_elem_of_fmap. eauto.
Qed.

Lemma block_inputs_keys b :
  flat_map (fun t => map input_key (tx_inputs t)) (blk_transactions b)
  = map row_key (block_inputs b).
Proof.
  unfold block_inputs. induction (blk_transactions b) as [|t txs IH]; [done|].
  cbn [flat_map]. rewrite map_app, IH. f_equal.
  rewrite map_map. done.
Qed.

Lemma accepted_block_total s d f b r s' c' :
  reachable s d ->
  post_blocks s {| tables := d; fuse := f |} b = (r, s', c') ->
  accepted r = true -> NoDup (block_inputs b) ->
  total (utxos s') = total (utxos s) + minted b.
Proof.
  intros Hr E Hacc Hnd.
  pose proof (reachable_consistent _ _ Hr) as Hc.
  pose proof (post_blocks_reply _ _ _ _ _ _ E Hacc) as ->.
  apply post_blocks_accepted in E as (Hv & _ & -> & Hw & _). cbn [tables] in Hw.
  apply validate_None in Hv as (Hh & Hpass & _).
  apply (writable_on_consistent s d b Hc Hh) in Hw as (_ & _ & Hids & Hnew).
  cbn [utxos]. unfold apply_block, minted.
  apply (apply_transactions_total _ (utxos s, balances s) (utxos s)); try done.
  - rewrite block_inputs_keys. by apply (NoDup_fmap_2 row_key).
  - intros t j Ht. cbn [fst]. rewrite (cons_utxos _ _ Hc).
    change (utxo_key (tx_id t) (Z.of_nat j)) with (row_key (tx_id t, Z.of_nat j)).
    rewrite utxo_view_lookup.
    destruct (t_outputs d !! (tx_id t, Z.of_nat j)) as [row|] eqn:Erow; [|done].
    exfalso. rewrite Forall_forall in Hnew.
    apply (Hnew (tx_id t)); [apply elem_of_tx_ids; eauto|].
    rewrite (cons_outputs _ _ Hc) in Erow.
    apply (journal_rows_txid (blocks s) (tx_id t, Z.of_nat j)). eauto.
Qed.

(** X14.  Value in circulation, one block: after any history of accepted
    operations, when a block whose inputs reference pairwise distinct
    outputs is accepted, the total value of the UTXO map grows by exactly
    the outputs of the transactions of the block that have no inputs;
    transactions with inputs leave it unchanged. *)
Theorem supply_step (s : AppState) (d : DB) (f : option nat) (b : Block) :
  let o := post_blocks s {| tables := d; fuse := f |} b in
  reachable s d -> accepted o.1.1 = true -> NoDup (block_inputs b) ->
  total (utxos o.1.2) = total (utxos s) + minted b.
Proof.
  cbv zeta. intros Hr Hacc Hnd.
  destruct (post_blocks _ _ b) as [[r s'] c'] eqn:E. cbn [fst snd] in *.
  by apply (accepted_block_total s d f b r s' c').
Qed.

(** X14 (witness). *)
Lemma supply_step_witness :
  let sd := ledger [block1; block2] in
  let o := post_blocks sd.1 {| tables := sd.2; fuse := None |} block3 in
  total (utxos o.1.2) = total (utxos sd.1) + minted block3.
Proof.
  cbv zeta.
  apply (supply_step _ (ledger [block1; block2]).2 None block3).
  - apply ledger_reachable. by_evaluation.
  - by_evaluation.
  - by_evaluation.
Defined.

(** ** The journal determines the state *)

(** ** The journal and the state *)

(** X15.  The journal determines the UTXO side of the state: two states
    that accepted operations give, by whatever blocks, rollbacks and resets,
    and that have the same block journal, have the same UTXO map, the same
    [currentHeight], the same rows in [blocks], [transactions] and
    [outputs] and the same input rows, and the validator answers every
    block alike in both.  (The balances are not determined by the journal:
    a rollback leaves texts where blocks leave numbers.) *)
Theorem journal_determines_state (s1 s2 : AppState) (d1 d2 : DB) :
  reachable s1 d1 -> reachable s2 d2 -> blocks s1 = blocks s2 ->
  utxos s1 = utxos s2
  /\ currentHeight s1 = currentHeight s2
  /\ t_blocks d1 = t_blocks d2
  /\ t_transactions d1 = t_transactions d2
  /\ t_outputs d1 = t_outputs d2
  /\ (forall r, r ∈ t_inputs d1 <-> r ∈ t_inputs d2)
  /\ (forall b, validate s1 b = validate s2 b).
Proof.
  intros H1 H2 Hb.
  apply reachable_consistent in H1. apply reachable_consistent in H2.
  destruct (same_journal _ _ _ _ H1 H2 Hb) as (Hu & Hh & ? & ? & ? & ?).
  split_and!; try done. intros b.
  unfold validate, check_height. by rewrite Hu, Hh.
Qed.

(** X15 (witness): three blocks, against three blocks and a rollback to the
    third. *)
Lemma journal_determines_state_witness :
  let sd := ledger [block1; block2; block3] in
  let o := post_rollback sd.1 (connect sd.2) (of_int 3) in
  utxos o.1.2 = utxos sd.1
  /\ currentHeight o.1.2 = currentHeight sd.1
  /\ t_blocks (tables o.2) = t_blocks sd.2
  /\ t_transactions (tables o.2) = t_transactions sd.2
  /\ t_outputs (tables o.2) = t_outputs sd.2
  /\ (forall r, r ∈ t_inputs (tables o.2) <-> r ∈ t_inputs sd.2)
  /\ (forall b, validate o.1.2 b = validate sd.1 b).
Proof.
  cbv zeta.
  assert (reachable (ledger [block1; block2; block3]).1
            (ledger [block1; block2; block3]).2) as Hr.
  { apply ledger_reachable. by_evaluation. }
  destruct (post_rollback _ _ _) as [[r s'] c'] eqn:E. cbn [fst snd].
  assert (accepted r = true) as Hacc.
  { change r with (r, s', c').1.1. rewrite <- E. by_evaluation. }
  apply (journal_determines_state s' _ (tables c') _); [|done|].
  - exact (reachable_step (Rollback (of_int 3)) None _ _ _ _ _ Hr E Hacc).
  - change s' with (r, s', c').1.2. rewrite <- E. by_evaluation.
Defined.

(** ** Resubmission *)

(** X16.  No block is taken twice: after any history of accepted
    operations, submitting again a block of the journal is answered 400
    'Invalid block height', whatever the connection, and neither the
    in-memory state nor the connection is touched. *)
Theorem resubmission_rejected (s : AppState) (d : DB) (c : Conn) (b : Block) :
  reachable s d -> b ∈ blocks s ->
  post_blocks s c b = (InvalidBlockHeight, s, c).
Proof.
  intros Hr [i Hi]%list_elem_of_lookup.
  pose proof (reachable_consistent _ _ Hr) as Hc.
  pose proof (height_lookup _ _ _ (cons_heights _ _ Hc) Hi) as Hh.
  pose proof (lookup_lt_Some _ _ _ Hi) as Hlt.
  pose proof (cons_height _ _ Hc) as Hcur.
  unfold post_blocks, validate, check_height.
  rewrite bool_decide_false by lia. rewrite bool_decide_true by lia. done.
Qed.

(** X16 (witness). *)
Lemma resubmission_rejected_witness :
  let sd := ledger [block1; block2; block3] in
  post_blocks sd.1 (connect sd.2) block2
  = (InvalidBlockHeight, sd.1, connect sd.2).
Proof.
  cbv zeta. apply (resubmission_rejected _ (ledger [block1; block2; block3]).2).
  - apply ledger_reachable. by_evaluation.
  - by_evaluation.
Defined.

(** ** The replay loop of the rollback *)

(** X17.  The loop that rebuilds the in-memory index in a rollback is the
    loop that applies accepted blocks: rebuilding from a journal gives what
    applying its blocks to the empty index gives, although the former
    deletes a referenced output only when it finds it; and rebuilding from a
    longer journal continues the shorter one. *)
Theorem rebuild_replays (bs1 bs2 : list Block) :
  rebuild bs1 = fold_left apply_block bs1 (∅, ∅)
  /\ rebuild (bs1 ++ bs2) = fold_left apply_block bs2 (rebuild bs1).
Proof.
  split; [apply rebuild_fold|]. by rewrite !rebuild_fold, fold_left_app.
Qed.

(** ** Rollback, then the same blocks again *)

(** ** Value in circulation, whole journal *)

Lemma total_empty : total ∅ = 0.
Proof. unfold total. by rewrite map_fold_empty. Qed.

Lemma minted_all_snoc J b : minted_all (J ++ [b]) = minted_all J + minted b.
Proof.
  induction J as [|b0 J IH]; simpl; [lia|]. rewrite IH. lia.
Qed.

(** The balance holds for every prefix of the journal, which is what a
    rollback keeps. *)
Lemma supply_prefixes s d :
  reachable s d ->
  forall k, Forall (fun b => NoDup (block_inputs b)) (take k (blocks s)) ->
       total (utxo_view (journal_outputs (take k (blocks s))))
       = minted_all (take k (blocks s)).
Proof.
  induction 1 as [|o f s d r s' c' Hr IH Hop Hacc]; intros k Hnd.
  { simpl. rewrite take_nil. unfold journal_outputs. simpl.
    by rewrite utxo_view_empty, total_empty. }
  pose proof (reachable_consistent _ _ Hr) as Hc.
  destruct o as [b|t|]; simpl in Hop.
  - pose proof (reachable_step (SubmitBlock b) f s d r s' c' Hr Hop Hacc) as Hr'.
    pose proof (reachable_consistent _ _ Hr') as Hc'.
    pose proof (post_blocks_reply _ _ _ _ _ _ Hop Hacc) as ->.
    pose proof Hop as Hop'.
    apply post_blocks_accepted in Hop' as (_ & _ & Hs & _).
    assert (blocks s' = blocks s ++ [b]) as Hb by by rewrite Hs.
    rewrite Hb in Hnd |- *.
    destruct (decide (k <= length (blocks s))%nat) as [Hle|Hgt].
    + rewrite take_app_le in Hnd |- * by done. by apply IH.
    + rewrite take_ge in Hnd |- * by (rewrite length_app; simpl; lia).
      apply Forall_app in Hnd as [HndJ Hndb].
      apply Forall_inv in Hndb.
      rewrite minted_all_snoc, <- Hb, <- (cons_outputs _ _ Hc'), <- (cons_utxos _ _ Hc').
      rewrite (accepted_block_total s d f b _ s' c' Hr Hop Hacc Hndb).
      f_equal. specialize (IH (length (blocks s))).
      rewrite firstn_all in IH.
      rewrite (cons_utxos _ _ Hc), (cons_outputs _ _ Hc). by apply IH.
  - apply post_rollback_accepted in Hop as (k' & _ & Hk' & _ & _ & Hs & _);
      [|done].
    assert (blocks s' = take (Z.to_nat k') (blocks s)) as Hb.
    { rewrite Hs. cbn [blocks]. rewrite (filter_heights _ 1) by apply Hc.
      f_equal. lia. }
    rewrite Hb in Hnd |- *. rewrite take_take in Hnd |- *. by apply IH.
  - apply post_reset_accepted in Hop as [-> _]; [|done].
    simpl. rewrite take_nil. unfold journal_outputs. simpl.
    by rewrite utxo_view_empty, total_empty.
Qed.

(** X20.  Value in circulation, whole journal: after any history of
    accepted operations, if no block of the journal references an output
    twice, the total value of the UTXO map is the sum of the outputs of the
    transactions without inputs of the journal: value enters only there and
    never leaves. *)
Theorem supply (s : AppState) (d : DB) :
  reachable s d ->
  Forall (fun b => NoDup (block_inputs b)) (blocks s) ->
  total (utxos s) = minted_all (blocks s).
Proof.
  intros Hr Hnd. pose proof (reachable_consistent _ _ Hr) as Hc.
  pose proof (supply_prefixes s d Hr (length (blocks s))) as H.
  rewrite firstn_all in H.
  rewrite (cons_utxos _ _ Hc), (cons_outputs _ _ Hc). by apply H.
Qed.

(** X20 (witness). *)
Lemma supply_witness :
  let sd := ledger [block1; block2; block3] in
  total (utxos sd.1) = minted_all (blocks sd.1).
Proof.
  cbv zeta. apply (supply _ (ledger [block1; block2; block3]).2).
  - apply ledger_reachable. by_evaluation.
  - by_evaluation.
Defined.

Lemma elem_of_deleted_tx_ids k d x :
  x ∈ deleted_tx_ids k d
  <-> exists bid, t_transactions d !! x = Some bid /\ doomed_block d k bid.
Proof.
  unfold deleted_tx_ids. rewrite list_elem_of_fmap. split.
  - intros ([x' bid] & -> & Hin). apply elem_of_map_to_list in Hin.
    apply map_lookup_filter_Some in Hin as [Hl Hd]. eauto.
  - intros (bid & Hl & Hd). exists (x, bid). split; [done|].
    apply elem_of_map_to_list, map_lookup_filter_Some. done.
Qed.

Lemma filter_all {A} (P : A -> Prop) `{forall x, Decision (P x)} (l : list A) :
  Forall P l -> filter P l = l.
Proof.
  induction 1 as [|x l Hx _ IH]; [done|]. by rewrite filter_cons_True, IH.
Qed.

Lemma filter_none {A} (P : A -> Prop) `{forall x, Decision (P x)} (l : list A) :
  Forall (fun x => ¬ P x) l -> filter P l = [].
Proof.
  induction 1 as [|x l Hx _ IH]; [done|]. by rewrite filter_cons_False, IH.
Qed.

Section Cleaning.
Context (d0 d1 : DB) (cur : Z).
Context (Hclean : clean d0 cur) (Hdirty : dirty d0 d1 cur).

Local Lemma old_block bid h :
  t_blocks d0 !! bid = Some h -> t_blocks d1 !! bid = Some h.
Proof.
  intros H. destruct (dirty_blocks _ _ _ Hdirty bid) as [E|[E _]]; congruence.
Qed.

Local Lemma deleted_new x :
  x ∈ deleted_tx_ids cur d1
  <-> t_transactions d0 !! x = None /\ is_Some (t_transactions d1 !! x).
Proof.
  rewrite elem_of_deleted_tx_ids. unfold doomed_block. split.
  - intros (bid & Hx & Hd).
    destruct (dirty_transactions _ _ _ Hdirty x) as [E|[E _]]; [|by eauto].
    rewrite Hx in E. symmetry in E.
    destruct (clean_transactions _ _ Hclean _ _ E) as [h Hh].
    rewrite (old_block _ _ Hh) in Hd. apply (clean_heights _ _ Hclean) in Hh. lia.
  - intros [H0 [bid Hx]].
    destruct (dirty_transactions _ _ _ Hdirty x) as [E|[_ (bid' & Hx' & Hb0 & Hb1)]];
      [congruence|].
    assert (bid' = bid) as -> by congruence.
    exists bid. split; [done|].
    destruct (dirty_blocks _ _ _ Hdirty bid) as [E|[_ (h & Hh & Hlt)]].
    + rewrite Hb0 in E. rewrite E in Hb1. by destruct Hb1.
    + by rewrite Hh.
Qed.

Local Lemma old_input r : r ∈ t_inputs d0 -> in_tx_id r ∉ deleted_tx_ids cur d1.
Proof.
  intros Hr [H0 _]%deleted_new.
  destruct (clean_inputs _ _ Hclean r Hr) as [? ?]. congruence.
Qed.

Local Lemma stray_input r :
  r ∈ t_inputs d1 -> t_transactions d0 !! in_tx_id r = None -> stray d0 d1 r.
Proof.
  intros Hr H0. destruct (dirty_inputs _ _ _ Hdirty) as (extra & E & Hx).
  rewrite E, elem_of_app in Hr. destruct Hr as [Hr|Hr].
  - destruct (clean_inputs _ _ Hclean r Hr) as [? ?]. congruence.
  - rewrite Forall_forall in Hx. by apply Hx.
Qed.

Local Lemma spent_by_stray k :
  spent_by (t_inputs d1) (deleted_tx_ids cur d1) k = true
  <-> exists r, r ∈ t_inputs d1 /\ t_transactions d0 !! in_tx_id r = None
           /\ input_row_key r = k.
Proof.
  rewrite spent_by_true. split.
  - intros (r & Hr & [H0 _]%deleted_new & Hk). eauto.
  - intros (r & Hr & H0 & Hk). exists r. split; [done|]. split; [|done].
    apply deleted_new. split; [done|]. by apply (stray_input r Hr H0).
Qed.

Local Lemma cleaned_outputs : t_outputs (rollback_tables cur d1) = t_outputs d0.
Proof.
  apply map_eq. intros k. rewrite rollback_tables_outputs.
  apply option_eq. intros row.
  rewrite map_lookup_filter_Some, map_lookup_imap. simpl.
  rewrite deleted_new. split.
  - intros [Hl Hk].
    destruct (t_outputs d1 !! k) as [row1|] eqn:E1; [|done]. simpl in Hl.
    injection Hl as <-.
    destruct (dirty_outputs _ _ _ Hdirty k)
      as [E|[(row0 & r & E0 & Hs & E & Hr & Hr0 & Hrk)|(E0 & _ & Hk0 & Hk1)]].
    + rewrite E1 in E. symmetry in E.
      destruct (spent_by _ _ k) eqn:Es; [|done].
      apply spent_by_stray in Es as (r & Hr & Hr0 & Hrk).
      destruct (stray_input r Hr Hr0) as (_ & _ & row0 & E0 & Hs).
      rewrite Hrk, E in E0. injection E0 as ->.
      rewrite E. f_equal. destruct row0. simpl in *. by subst.
    + rewrite E1 in E. injection E as ->.
      rewrite (proj2 (spent_by_stray k)) by eauto.
      rewrite E0. f_equal. destruct row0. simpl in *. by subst.
    + destruct Hk. done.
  - intros E0. split.
    + destruct (dirty_outputs _ _ _ Hdirty k)
        as [E|[(row0 & r & E0' & Hs & E & Hr & Hr0 & Hrk)|(E0' & _)]];
        [| |congruence].
      * rewrite E, E0. simpl. f_equal.
        destruct (spent_by _ _ k) eqn:Es; [|done].
        apply spent_by_stray in Es as (r & Hr & Hr0 & Hrk).
        destruct (stray_input r Hr Hr0) as (_ & _ & row0 & E0' & Hs).
        rewrite Hrk, E0 in E0'. injection E0' as ->.
        destruct row0. simpl in *. by subst.
      * rewrite E. simpl. rewrite (proj2 (spent_by_stray k)) by eauto.
        rewrite E0 in E0'. injection E0' as ->.
        f_equal. destruct row0. simpl in *. by subst.
    + intros [H0 _].
      destruct (clean_outputs _ _ Hclean k) as [? ?]; [by eauto|congruence].
Qed.

Local Lemma cleaned_blocks : t_blocks (rollback_tables cur d1) = t_blocks d0.
Proof.
  apply map_eq. intros bid. rewrite rollback_tables_blocks.
  apply option_eq. intros h. rewrite map_lookup_filter_Some. simpl. split.
  - intros [Hl Hh].
    destruct (dirty_blocks _ _ _ Hdirty bid) as [E|[_ (h' & Hh' & Hlt)]];
      [congruence|].
    rewrite Hl in Hh'. injection Hh' as ->. lia.
  - intros H0. split; [by apply old_block|].
    apply (clean_heights _ _ Hclean) in H0. lia.
Qed.

Local Lemma cleaned_transactions :
  t_transactions (rollback_tables cur d1) = t_transactions d0.
Proof.
  apply map_eq. intros x. rewrite rollback_tables_transactions, cleaned_blocks.
  unfold cascade_transactions.
  apply option_eq. intros bid. rewrite map_lookup_filter_Some. simpl. split.
  - intros [Hl Hb].
    destruct (dirty_transactions _ _ _ Hdirty x) as [E|[_ (bid' & Hx' & Hb0 & _)]];
      [congruence|].
    rewrite Hl in Hx'. injection Hx' as ->. rewrite Hb0 in Hb. by destruct Hb.
  - intros H0. split; [|by apply (clean_transactions _ _ Hclean x)].
    destruct (dirty_transactions _ _ _ Hdirty x) as [E|[E _]]; congruence.
Qed.

Local Lemma cleaned_inputs : t_inputs (rollback_tables cur d1) = t_inputs d0.
Proof.
  rewrite rollback_tables_inputs, cleaned_transactions. unfold cascade_inputs.
  destruct (dirty_inputs _ _ _ Hdirty) as (extra & -> & Hx).
  rewrite !filter_app.
  rewrite (filter_none _ extra).
  2:{ eapply Forall_impl; [exact Hx|].
      intros r (H0 & _) [? ?]. simpl in *. congruence. }
  rewrite filter_nil, app_nil_r.
  rewrite (filter_all _ (t_inputs d0)).
  2:{ apply Forall_forall. intros r Hr. by apply (clean_inputs _ _ Hclean). }
  apply filter_all. apply Forall_forall. intros r Hr [H0 _]%deleted_new.
  destruct (clean_inputs _ _ Hclean r Hr) as [? ?]. congruence.
Qed.

Lemma rollback_cleans : rollback_tables cur d1 = canonical d0.
Proof.
  pose proof cleaned_outputs as Ho. pose proof cleaned_blocks as Hb.
  pose proof cleaned_transactions as Ht. pose proof cleaned_inputs as Hi.
  assert (t_balances (rollback_tables cur d1)
          = unspent_by_address (t_outputs (rollback_tables cur d1))) as Hbal by done.
  rewrite Ho in Hbal. unfold canonical.
  destruct (rollback_tables cur d1). simpl in *. by subst.
Qed.
End Cleaning.

(** ** The rows a failed block submission leaves *)

Lemma query_cases {A} (stmt : DB -> option (A * DB)) c r c' :
  query stmt c = (r, c') ->
  (r = None /\ tables c' = tables c)
  \/ (exists a, r = Some a /\ stmt (tables c) = Some (a, tables c')).
Proof.
  destruct r as [a|]; intros H.
  - right. exists a. split; [done|]. by apply query_Some in H as [? _].
  - left. split; [done|]. by apply query_None in H.
Qed.

Lemma clean_of_consistent s d : consistent s d -> clean d (currentHeight s).
Proof.
  intros Hc. pose proof (cons_height _ _ Hc) as Hcur.
  assert (forall x bid, t_transactions d !! x = Some bid -> is_Some (t_blocks d !! bid))
    as Htx.
  { intros x bid (b & t & Hb & _ & _ & <-)%(cons_transactions _ _ Hc).
    exists (blk_height b). apply (cons_blocks _ _ Hc). eauto. }
  assert (forall t, t ∈ journal_txs (blocks s) -> is_Some (t_transactions d !! tx_id t))
    as Hj.
  { intros t (b & Hb & Ht)%elem_of_journal_txs. exists (blk_id b).
    apply (cons_transactions _ _ Hc). eauto 6. }
  split.
  - intros bid h (b & [i Hi]%list_elem_of_lookup & _ & <-)%(cons_blocks _ _ Hc).
    pose proof (height_lookup _ _ _ (cons_heights _ _ Hc) Hi).
    pose proof (lookup_lt_Some _ _ _ Hi). lia.
  - done.
  - intros r (t & Ht & Hr)%(cons_inputs _ _ Hc).
    apply elem_of_input_rows in Hr as (i & _ & ->). simpl. by apply Hj.
  - intros k Hk. rewrite (cons_outputs _ _ Hc) in Hk.
    apply journal_rows_txid, elem_of_tx_ids in Hk as (t & Ht & <-). by apply Hj.
Qed.

Lemma dirty_refl d0 cur : dirty d0 d0 cur.
Proof.
  split; [by left|by left| |by left].
  exists []. by rewrite app_nil_r.
Qed.

Section Dirty.
Context (d0 : DB) (cur : Z).

Local Lemma stray_mono d1 d1' r :
  (forall x, is_Some (t_transactions d1 !! x) -> is_Some (t_transactions d1' !! x)) ->
  stray d0 d1 r -> stray d0 d1' r.
Proof. intros Hm (? & ? & ?). split; [done|]. split; [by apply Hm|done]. Qed.

Local Lemma dirty_insert_block d1 bid h u d1' :
  dirty d0 d1 cur -> cur < h ->
  insert_block bid h d1 = Some (u, d1') ->
  dirty d0 d1' cur /\ t_blocks d0 !! bid = None
  /\ is_Some (t_blocks d1' !! bid)
  /\ t_transactions d1' = t_transactions d1.
Proof.
  intros [B T I O] Hh H. unfold insert_block in H.
  guarded H E.
  apply andb_prop in E as [[_ Hnew%bool_decide_eq_true]%andb_prop
                             Huniq%bool_decide_eq_true].
  injection H as _ <-.
  assert (t_blocks d0 !! bid = None) as H0.
  { destruct (B bid) as [E|[E _]]; congruence. }
  split_and!; simpl; try done; [|by rewrite lookup_insert_eq].
  split; simpl; try done.
  - intros bid'. destruct (decide (bid' = bid)) as [->|Hne].
    + right. split; [done|]. exists h. by rewrite lookup_insert_eq.
    + rewrite lookup_insert_ne by done. apply B.
  - intros x. destruct (T x) as [E|(E & bid' & Hx & Hb0 & Hb1)]; [by left|].
    right. split; [done|]. exists bid'. split_and!; try done.
    apply lookup_insert_is_Some'. by right.
Qed.

Local Lemma dirty_insert_transaction d1 x bid u d1' :
  dirty d0 d1 cur -> t_blocks d0 !! bid = None ->
  insert_transaction x bid d1 = Some (u, d1') ->
  dirty d0 d1' cur /\ t_transactions d0 !! x = None
  /\ is_Some (t_transactions d1' !! x)
  /\ t_blocks d1' = t_blocks d1.
Proof.
  intros [B T I O] Hb0 H. unfold insert_transaction in H.
  guarded H E.
  apply andb_prop in E as [[_ Hnew%bool_decide_eq_true]%andb_prop
                             Hfk%bool_decide_eq_true].
  injection H as _ <-.
  assert (t_transactions d0 !! x = None) as H0.
  { destruct (T x) as [E|[E _]]; congruence. }
  assert (forall y, is_Some (t_transactions d1 !! y)
               -> is_Some (<[x := bid]> (t_transactions d1) !! y)) as Hm.
  { intros y Hy. apply lookup_insert_is_Some'. by right. }
  split_and!; simpl; try done; [|by rewrite lookup_insert_eq].
  split; simpl; try done.
  - intros y. destruct (decide (y = x)) as [->|Hne].
    + right. split; [done|]. exists bid. by rewrite lookup_insert_eq.
    + rewrite lookup_insert_ne by done. apply T.
  - destruct I as (extra & E & Hx). exists extra. split; [done|].
    eapply Forall_impl; [exact Hx|]. intros r. by apply stray_mono.
  - intros k. destruct (O k) as [E|[E|(E & Hs & Hk0 & Hk1)]]; [by left| |].
    + right. by left.
    + right. right. split_and!; try done. by apply Hm.
Qed.

Local Lemma dirty_insert_input d1 tx txid idx u d1' :
  dirty d0 d1 cur -> t_transactions d0 !! tx = None ->
  (exists row, t_outputs d0 !! (txid, idx) = Some row /\ is_spent row = false) ->
  insert_input tx txid idx d1 = Some (u, d1') ->
  dirty d0 d1' cur
  /\ {| in_tx_id := tx; spent_utxo_txid := txid; spent_utxo_index := idx |}
       ∈ t_inputs d1'
  /\ t_transactions d1' = t_transactions d1 /\ t_blocks d1' = t_blocks d1.
Proof.
  intros [B T I O] H0 Hrow H. unfold insert_input in H.
  guarded H Eg. apply andb_prop in Eg as [_ Hfk%bool_decide_eq_true].
  injection H as _ <-.
  split_and!; simpl; try done; [|apply elem_of_app; right; by left].
  split; simpl; try done.
  - destruct I as (extra & E & Hx).
    exists (extra ++ [{| in_tx_id := tx; spent_utxo_txid := txid;
                         spent_utxo_index := idx |}]).
    split; [by rewrite E, app_assoc|].
    apply Forall_app. split; [done|]. constructor; [|done].
    split; [done|]. split; [done|]. done.
  - intros k. destruct (O k) as [E|[(row & r & E0 & Hs & E & Hr & Hr0 & Hrk)|E]];
      [by left| |by right; right].
    right. left. exists row, r. split_and!; try done.
    apply elem_of_app. by left.
Qed.

Local Lemma dirty_mark_spent d1 txid idx u d1' r :
  dirty d0 d1 cur ->
  r ∈ t_inputs d1 -> t_transactions d0 !! in_tx_id r = None ->
  input_row_key r = (txid, idx) ->
  (exists row, t_outputs d0 !! (txid, idx) = Some row /\ is_spent row = false) ->
  mark_spent txid idx d1 = Some (u, d1') ->
  dirty d0 d1' cur
  /\ t_transactions d1' = t_transactions d1 /\ t_blocks d1' = t_blocks d1.
Proof.
  intros [B T I O] Hr Hr0 Hrk (row0 & E0 & Hs0) H. unfold mark_spent in H.
  guarded H Eg. injection H as _ <-.
  split_and!; simpl; try done.
  split; simpl; try done.
  intros k. destruct (decide (k = (txid, idx))) as [->|Hne].
  - rewrite lookup_alter_eq.
    destruct (O (txid, idx))
      as [E|[(row & r' & E0' & Hs & E & Hr' & Hr0' & Hrk')|(E0' & _)]];
      [| |congruence].
    + right. left. exists row0, r. rewrite E, E0. done.
    + right. left. exists row, r'. rewrite E. split_and!; try done.
  - rewrite lookup_alter_ne by done. apply O.
Qed.

Local Lemma dirty_insert_output d1 txid idx addr v u d1' :
  dirty d0 d1 cur -> t_transactions d0 !! txid = None ->
  is_Some (t_transactions d1 !! txid) ->
  insert_output txid idx addr v d1 = Some (u, d1') ->
  dirty d0 d1' cur
  /\ t_transactions d1' = t_transactions d1 /\ t_blocks d1' = t_blocks d1.
Proof.
  intros [B T I O] H0 H1 H. unfold insert_output in H.
  guarded H Eg. apply andb_prop in Eg as [_ Hnew%bool_decide_eq_true].
  injection H as _ <-.
  split_and!; simpl; try done.
  split; simpl; try done.
  intros k. destruct (decide (k = (txid, idx))) as [->|Hne].
  - rewrite lookup_insert_eq. right. right.
    split_and!; simpl; try done.
    destruct (O (txid, idx))
      as [E|[(row & r' & _ & _ & E & _)|(_ & E & _)]];
      [congruence|congruence|]. rewrite Hnew in E. by destruct E.
  - rewrite lookup_insert_ne by done. apply O.
Qed.

Local Lemma dirty_upsert_balance d1 a v u d1' :
  dirty d0 d1 cur -> upsert_balance a v d1 = Some (u, d1') -> dirty d0 d1' cur.
Proof.
  intros [B T I O] H.
  apply upsert_balance_Some in H as (_ & z & _ & ->). by split.
Qed.

Local Lemma write_inputs_dirty tx ins c r c1 :
  write_inputs tx ins c = (r, c1) ->
  dirty d0 (tables c) cur -> t_transactions d0 !! tx = None ->
  Forall (fun i => exists row, t_outputs d0 !! key_of i = Some row
                          /\ is_spent row = false) ins ->
  dirty d0 (tables c1) cur
  /\ t_transactions (tables c1) = t_transactions (tables c)
  /\ t_blocks (tables c1) = t_blocks (tables c).
Proof.
  revert c. induction ins as [|i ins IH]; intros c H Hd H0 Hin.
  { simpl in H. rewrite mret_unfold in H. by simplify_eq. }
  apply Forall_cons in Hin as [Hi Hin].
  cbn [write_inputs] in H. rewrite bind_unfold in H.
  destruct (query (insert_input tx (txId i) (index i)) c) as [r1 c2] eqn:E1.
  apply query_cases in E1 as [[-> E1]|(u1 & -> & E1)].
  { simplify_eq. by rewrite E1. }
  destruct (dirty_insert_input _ _ _ _ _ _ Hd H0 Hi E1) as (Hd2 & Hr & Ht2 & Hb2).
  rewrite bind_unfold in H.
  destruct (query (mark_spent (txId i) (index i)) c2) as [r2 c3] eqn:E2.
  apply query_cases in E2 as [[-> E2]|(u2 & -> & E2)].
  { simplify_eq. by rewrite E2. }
  destruct (dirty_mark_spent _ _ _ _ _ _ Hd2 Hr H0 eq_refl Hi E2) as (Hd3 & Ht3 & Hb3).
  destruct (IH c3 H Hd3 H0 Hin) as (? & Ht & Hb).
  by rewrite Ht, Hb, Ht3, Hb3.
Qed.

Local Lemma write_outputs_dirty tx idx os c r c1 :
  write_outputs tx idx os c = (r, c1) ->
  dirty d0 (tables c) cur -> t_transactions d0 !! tx = None ->
  is_Some (t_transactions (tables c) !! tx) ->
  dirty d0 (tables c1) cur
  /\ t_transactions (tables c1) = t_transactions (tables c)
  /\ t_blocks (tables c1) = t_blocks (tables c).
Proof.
  revert idx c. induction os as [|o os IH]; intros idx c H Hd H0 H1.
  { simpl in H. rewrite mret_unfold in H. by simplify_eq. }
  cbn [write_outputs] in H. rewrite bind_unfold in H.
  destruct (query (insert_output tx (Z.of_nat idx) (address o) (value o)) c)
    as [r1 c2] eqn:E1.
  apply query_cases in E1 as [[-> E1]|(u1 & -> & E1)].
  { simplify_eq. by rewrite E1. }
  destruct (dirty_insert_output _ _ _ _ _ _ _ Hd H0 H1 E1) as (Hd2 & Ht2 & Hb2).
  destruct (IH _ c2 H Hd2 H0) as (? & Ht & Hb); [by rewrite Ht2|].
  by rewrite Ht, Hb.
Qed.

Local Lemma write_transactions_dirty bid txs c r c1 :
  write_transactions bid txs c = (r, c1) ->
  dirty d0 (tables c) cur -> t_blocks d0 !! bid = None ->
  Forall (fun t => Forall (fun i => exists row, t_outputs d0 !! key_of i = Some row
                                           /\ is_spent row = false)
                          (tx_inputs t)) txs ->
  dirty d0 (tables c1) cur.
Proof.
  revert c. induction txs as [|t txs IH]; intros c H Hd Hb0 Hin.
  { simpl in H. rewrite mret_unfold in H. by simplify_eq. }
  apply Forall_cons in Hin as [Ht Hin].
  cbn [write_transactions] in H. rewrite bind_unfold in H.
  destruct (query (insert_transaction (tx_id t) bid) c) as [r1 c2] eqn:E1.
  apply query_cases in E1 as [[-> E1]|(u1 & -> & E1)].
  { simplify_eq. by rewrite E1. }
  destruct (dirty_insert_transaction _ _ _ _ _ Hd Hb0 E1) as (Hd2 & H0 & H1 & _).
  rewrite bind_unfold in H.
  destruct (write_inputs (tx_id t) (tx_inputs t) c2) as [r2 c3] eqn:E2.
  destruct (write_inputs_dirty _ _ _ _ _ E2 Hd2 H0 Ht) as (Hd3 & Ht3 & _).
  destruct r2 as [u2|]; [|by simplify_eq].
  rewrite bind_unfold in H.
  destruct (write_outputs (tx_id t) 0 (tx_outputs t) c3) as [r3 c4] eqn:E3.
  destruct (write_outputs_dirty _ _ _ _ _ _ E3 Hd3 H0) as (Hd4 & _);
    [by rewrite Ht3|].
  destruct r3 as [u3|]; [|by simplify_eq].
  by apply (IH c4).
Qed.

Local Lemma write_block_dirty b c r c1 :
  write_block b c = (r, c1) ->
  dirty d0 (tables c) cur -> cur < blk_height b ->
  Forall (fun t => Forall (fun i => exists row, t_outputs d0 !! key_of i = Some row
                                           /\ is_spent row = false)
                          (tx_inputs t)) (blk_transactions b) ->
  dirty d0 (tables c1) cur.
Proof.
  intros H Hd Hh Hin. unfold write_block in H. rewrite bind_unfold in H.
  destruct (query (insert_block (blk_id b) (blk_height b)) c) as [r1 c2] eqn:E1.
  apply query_cases in E1 as [[-> E1]|(u1 & -> & E1)].
  { simplify_eq. by rewrite E1. }
  destruct (dirty_insert_block _ _ _ _ _ Hd Hh E1) as (Hd2 & Hb0 & _).
  by apply (write_transactions_dirty _ _ _ _ _ H).
Qed.

Local Lemma persist_balances_dirty entries c r c1 :
  persist_balances entries c = (r, c1) ->
  dirty d0 (tables c) cur -> dirty d0 (tables c1) cur.
Proof.
  revert c. induction entries as [|[a v] entries IH]; intros c H Hd.
  { simpl in H. rewrite mret_unfold in H. by simplify_eq. }
  cbn [persist_balances] in H. rewrite bind_unfold in H.
  destruct (query (upsert_balance a v) c) as [r1 c2] eqn:E1.
  apply query_cases in E1 as [[-> E1]|(u1 & -> & E1)].
  { simplify_eq. by rewrite E1. }
  apply (IH c2 H). by apply (dirty_upsert_balance _ _ _ _ _ Hd E1).
Qed.

Lemma post_blocks_dirty s c b r s1 c1 :
  post_blocks s c b = (r, s1, c1) ->
  tables c = d0 -> consistent s d0 -> cur = currentHeight s ->
  dirty d0 (tables c1) cur.
Proof.
  intros H Hc Hcons Hk. unfold post_blocks in H.
  destruct (validate s b) as [r0|] eqn:Ev.
  { injection H as _ _ <-. rewrite Hc. apply dirty_refl. }
  apply validate_None in Ev as (Hh & Hpass & _).
  assert (cur < blk_height b) as Hlt.
  { pose proof (cons_height _ _ Hcons). destruct Hh as [[? ?]|[? ?]]; lia. }
  assert (Forall (fun t => Forall (fun i => exists row,
                     t_outputs d0 !! key_of i = Some row /\ is_spent row = false)
                   (tx_inputs t)) (blk_transactions b)) as Hin.
  { eapply Forall_impl; [exact Hpass|]. intros t [Hp _].
    eapply Forall_impl; [exact Hp|]. intros i [o Ho].
    rewrite (cons_utxos _ _ Hcons), input_key_row, utxo_view_lookup in Ho.
    destruct (t_outputs d0 !! key_of i) as [row|]; [|done].
    exists row. split; [done|]. simpl in Ho. unfold unspent_output in Ho.
    by destruct (is_spent row). }
  destruct (write_block b c) as [r1 c2] eqn:E1.
  pose proof (write_block_dirty _ _ _ _ E1) as Hd2.
  rewrite Hc in Hd2. specialize (Hd2 (dirty_refl _ _) Hlt Hin).
  destruct r1 as [u1|]; [|by simplify_eq]. cbv zeta in H.
  destruct (persist_balances _ c2) as [r2 c3] eqn:E2.
  pose proof (persist_balances_dirty _ _ _ _ E2 Hd2) as Hd3.
  destruct r2; by simplify_eq.
Qed.
End Dirty.

(** X22.  Recovery from a failed block: after any history of accepted
    operations that leaves a chain of height at least 1, when a block
    submission fails, at whatever statement and for whatever reason, with
    rows of the block left in the store and possibly the in-memory UTXO map
    and balances already changed, and when the unspent outputs of every
    address of the chain add up to a 32-bit [INTEGER], a rollback to the
    current height on a healthy connection succeeds.  It gives back the
    UTXO map, the journal and the height from before the submission, and
    the rows of the store from before it; the balances are recomputed from
    the unspent outputs (in memory, as texts); and the state is one that a
    history of accepted operations gives. *)
Theorem failed_block_recovery (s s1 : AppState) (d : DB) (f : option nat)
    (b : Block) (r : Reply) (c1 : Conn) :
  reachable s d -> 1 <= currentHeight s ->
  post_blocks s {| tables := d; fuse := f |} b = (r, s1, c1) ->
  accepted r = false ->
  map_Forall (fun _ v => int4 v = true) (unspent_by_address (t_outputs d)) ->
  exists s2 c2,
    post_rollback s1 (connect (tables c1)) (of_int (currentHeight s))
    = (RollbackSuccessful (currentHeight s), s2, c2)
    /\ reachable s2 (tables c2)
    /\ utxos s2 = utxos s
    /\ blocks s2 = blocks s
    /\ currentHeight s2 = currentHeight s
    /\ tables c2 = canonical d
    /\ balances s2 = new_balances (unspent_by_address (t_outputs d)).
Proof.
  intros Hr Hcur Hpost Hrej Hint.
  pose proof (reachable_consistent _ _ Hr) as Hc.
  pose proof (clean_of_consistent _ _ Hc) as Hclean.
  set (k := currentHeight s) in *.
  (* the store after the failure, and after the rollback *)
  pose proof (post_blocks_dirty d k _ _ _ _ _ _ Hpost eq_refl Hc eq_refl) as Hdirty.
  pose proof (rollback_cleans _ _ _ Hclean Hdirty) as Hd1.
  pose proof (rollback_cleans _ _ _ Hclean (dirty_refl d k)) as Hd0.
  (* the in-memory journal is untouched by the failure *)
  assert (blocks s1 = blocks s /\ currentHeight s1 = k) as [Hb1 Hk1].
  { unfold post_blocks in Hpost.
    destruct (validate s b); [by simplify_eq|].
    destruct (write_block b _) as [[u|] c2]; [|by simplify_eq].
    cbv zeta in Hpost.
    destruct (persist_balances _ c2) as [[u'|] c3]; simplify_eq; done. }
  assert (int4 k = true) as Hk4 by apply Hc.
  destruct (of_int_guards k k) as (Hf & Hlt & Hgt); [lia|].
  (* the same rollback, without the failed block *)
  destruct (rollback_store_ok k d) as (nb0 & c0 & Es0).
  { by rewrite Hd0. }
  assert (exists s0, post_rollback s (connect d) (of_int k)
                = (RollbackSuccessful k, s0, c0)) as [s0 E0].
  { unfold post_rollback.
    fold k. rewrite Hf, Hlt, Hgt, (int4_param_of_int _ Hk4), Es0. eauto. }
  pose proof (reachable_step (Rollback (of_int k)) None s d _ s0 c0 Hr E0 eq_refl)
    as Hr0.
  pose proof E0 as E0'.
  apply post_rollback_accepted in E0' as (k0 & _ & _ & Ek0 & Ht0 & Hs0 & _);
    [|done].
  injection Ek0 as <-. cbn [tables connect] in Ht0, Hs0.
  (* with it *)
  destruct (rollback_store_ok k (tables c1)) as (nb & c2 & Es).
  { by rewrite Hd1. }
  assert (exists s2, post_rollback s1 (connect (tables c1)) (of_int k)
                = (RollbackSuccessful k, s2, c2)) as [s2 E].
  { unfold post_rollback.
    rewrite Hk1, Hf, Hlt, Hgt, (int4_param_of_int _ Hk4), Es. eauto. }
  exists s2, c2. split; [done|].
  pose proof E as E'.
  apply post_rollback_accepted in E' as (k2 & _ & _ & Ek2 & Ht2 & Hs2 & _);
    [|done].
  injection Ek2 as <-. cbn [tables connect] in Ht2, Hs2.
  assert (s2 = s0) as ->.
  { rewrite Hs2, Hs0. by rewrite Hb1, Hd1, Hd0. }
  assert (tables c2 = tables c0) as Htab by by rewrite Ht2, Ht0, Hd1, Hd0.
  rewrite Htab. split; [done|].
  assert (blocks s0 = blocks s) as Hb0.
  { rewrite Hs0. cbn [blocks]. rewrite (filter_heights _ 1) by apply Hc.
    rewrite take_ge; [done|]. pose proof (cons_height _ _ Hc). lia. }
  destruct (same_journal _ _ _ _ (reachable_consistent _ _ Hr0) Hc Hb0)
    as (? & ? & _).
  split_and!; try done.
  - by rewrite Ht0, Hd0.
  - rewrite Hs0. cbn [balances]. by rewrite Hd0.
Qed.

(** X22 (witness): the two outputs of the only transaction of the fourth
    block overflow the balance of their address; the upsert of the balance
    fails after the rows of the block are written. *)
Lemma failed_block_recovery_witness :
  let sd := ledger [block1; block2; block3] in
  let b := mk_block 4 [mk_tx "tx4" [] [("a", 1073741824); ("a", 1073741824)]] in
  let o := post_blocks sd.1 {| tables := sd.2; fuse := None |} b in
  exists s2 c2,
    post_rollback o.1.2 (connect (tables o.2)) (of_int (currentHeight sd.1))
    = (RollbackSuccessful (currentHeight sd.1), s2, c2)
    /\ reachable s2 (tables c2)
    /\ utxos s2 = utxos sd.1
    /\ blocks s2 = blocks sd.1
    /\ currentHeight s2 = currentHeight sd.1
    /\ tables c2 = canonical sd.2
    /\ balances s2 = new_balances (unspent_by_address (t_outputs sd.2)).
Proof.
  cbv zeta.
  destruct (post_blocks _ _ _) as [[r s1] c1] eqn:E. cbn [fst snd].
  assert (accepted r = false) as Hrej.
  { change r with (r, s1, c1).1.1. rewrite <- E. by_evaluation. }
  apply (failed_block_recovery _ _ _ _ _ _ _
           (ledger_reachable [block1; block2; block3] ltac:(by_evaluation))
           ltac:(by_evaluation) E Hrej ltac:(by_evaluation)).
Defined.

Lemma write_inputs_blocks tx ins c r c1 :
  write_inputs tx ins c = (r, c1) -> t_blocks (tables c1) = t_blocks (tables c).
Proof.
  revert c. induction ins as [|i ins IH]; intros c H.
  { simpl in H. rewrite mret_unfold in H. by simplify_eq. }
  cbn [write_inputs] in H. rewrite bind_unfold in H.
  destruct (query (insert_input tx (txId i) (index i)) c) as [r1 c2] eqn:E1.
  apply query_cases in E1 as [[-> E1]|(u1 & -> & E1)].
  { simplify_eq. by rewrite E1. }
  unfold insert_input in E1. guarded E1 Eg.
  injection E1 as _ E1. rewrite bind_unfold in H.
  destruct (query (mark_spent (txId i) (index i)) c2) as [r2 c3] eqn:E2.
  apply query_cases in E2 as [[-> E2]|(u2 & -> & E2)].
  { simplify_eq. by rewrite E2, <- E1. }
  unfold mark_spent in E2. guarded E2 Eg2.
  injection E2 as _ E2. rewrite (IH c3 H), <- E2. simpl. by rewrite <- E1.
Qed.

Lemma write_outputs_blocks tx idx os c r c1 :
  write_outputs tx idx os c = (r, c1) -> t_blocks (tables c1) = t_blocks (tables c).
Proof.
  revert idx c. induction os as [|o os IH]; intros idx c H.
  { simpl in H. rewrite mret_unfold in H. by simplify_eq. }
  cbn [write_outputs] in H. rewrite bind_unfold in H.
  destruct (query (insert_output tx (Z.of_nat idx) (address o) (value o)) c)
    as [r1 c2] eqn:E1.
  apply query_cases in E1 as [[-> E1]|(u1 & -> & E1)].
  { simplify_eq. by rewrite E1. }
  unfold insert_output in E1. guarded E1 Eg.
  injection E1 as _ E1. rewrite (IH _ c2 H), <- E1. done.
Qed.

Lemma write_transactions_blocks bid txs c r c1 :
  write_transactions bid txs c = (r, c1) ->
  t_blocks (tables c1) = t_blocks (tables c).
Proof.
  revert c. induction txs as [|t txs IH]; intros c H.
  { simpl in H. rewrite mret_unfold in H. by simplify_eq. }
  cbn [write_transactions] in H. rewrite bind_unfold in H.
  destruct (query (insert_transaction (tx_id t) bid) c) as [r1 c2] eqn:E1.
  apply query_cases in E1 as [[-> E1]|(u1 & -> & E1)].
  { simplify_eq. by rewrite E1. }
  unfold insert_transaction in E1. guarded E1 Eg.
  injection E1 as _ E1. rewrite bind_unfold in H.
  destruct (write_inputs (tx_id t) (tx_inputs t) c2) as [r2 c3] eqn:E2.
  apply write_inputs_blocks in E2. rewrite <- E1 in E2. simpl in E2.
  destruct r2 as [u2|]; [|by simplify_eq].
  rewrite bind_unfold in H.
  destruct (write_outputs (tx_id t) 0 (tx_outputs t) c3) as [r3 c4] eqn:E3.
  apply write_outputs_blocks in E3.
  destruct r3 as [u3|]; [|simplify_eq; congruence].
  rewrite (IH c4 H). congruence.
Qed.

Lemma persist_balances_blocks entries c r c1 :
  persist_balances entries c = (r, c1) ->
  t_blocks (tables c1) = t_blocks (tables c).
Proof.
  revert c. induction entries as [|[a v] entries IH]; intros c H.
  { simpl in H. rewrite mret_unfold in H. by simplify_eq. }
  cbn [persist_balances] in H. rewrite bind_unfold in H.
  destruct (query (upsert_balance a v) c) as [r1 c2] eqn:E1.
  apply query_cases in E1 as [[-> E1]|(u1 & -> & E1)].
  { simplify_eq. by rewrite E1. }
  apply upsert_balance_Some in E1 as (_ & z & _ & E1).
  rewrite (IH c2 H), E1. done.
Qed.

Lemma post_blocks_blocks s c b r s1 c1 :
  post_blocks s c b = (r, s1, c1) ->
  t_blocks (tables c1) = t_blocks (tables c)
  \/ (height_rule s b
      /\ t_blocks (tables c1) = <[blk_id b := blk_height b]> (t_blocks (tables c))).
Proof.
  unfold post_blocks. intros H.
  destruct (validate s b) as [r0|] eqn:Ev; [left; by simplify_eq|].
  apply validate_None in Ev as (Hh & _).
  assert (exists c2 r2, write_block b c = (r2, c2)
            /\ (t_blocks (tables c2) = t_blocks (tables c)
                \/ t_blocks (tables c2)
                   = <[blk_id b := blk_height b]> (t_blocks (tables c))))
    as (c2 & r2 & Ew & Hb).
  { destruct (write_block b c) as [r2 c2] eqn:Ew. exists c2, r2. split; [done|].
    unfold write_block in Ew. rewrite bind_unfold in Ew.
    destruct (query (insert_block (blk_id b) (blk_height b)) c) as [r1 c3] eqn:E1.
    apply query_cases in E1 as [[-> E1]|(u1 & -> & E1)].
    { left. simplify_eq. by rewrite E1. }
    right. apply write_transactions_blocks in Ew. rewrite Ew.
    unfold insert_block in E1. guarded E1 Eg.
    injection E1 as _ E1. by rewrite <- E1. }
  rewrite Ew in H. destruct r2 as [u|].
  - cbv zeta in H.
    destruct (persist_balances _ c2) as [r3 c3] eqn:Ep.
    apply persist_balances_blocks in Ep.
    assert (tables c1 = tables c3) as -> by (destruct r3; by simplify_eq).
    rewrite Ep. destruct Hb; [by left|by right].
  - assert (c1 = c2) as -> by by simplify_eq.
    destruct Hb; [by left|by right].
Qed.

Lemma query_refused {A} (stmt : DB -> option (A * DB)) c :
  stmt (tables c) = None ->
  exists c', query stmt c = (None, c') /\ tables c' = tables c.
Proof.
  intros H. unfold query. rewrite H. destruct (fuse c) as [[|n]|]; eauto.
Qed.

(** X23.  A failed block wedges the chain: when a block submission fails
    after its first statement went through, the row of the block stays in
    [blocks]; from then on every block submission, on any connection, is
    refused (400 by the validator, or 500 because the height is taken), and
    leaves the in-memory state and the tables as they are. *)
Theorem failed_block_wedges (s s1 : AppState) (c c1 : Conn) (b : Block) (r : Reply) :
  post_blocks s c b = (r, s1, c1) ->
  accepted r = false ->
  t_blocks (tables c1) ≠ t_blocks (tables c) ->
  forall (b' : Block) (f' : option nat),
    let o := post_blocks s1 {| tables := tables c1; fuse := f' |} b' in
    accepted o.1.1 = false /\ o.1.2 = s1 /\ tables o.2 = tables c1.
Proof.
  intros H Hrej Hne b' f'. cbv zeta.
  destruct (post_blocks_blocks _ _ _ _ _ _ H) as [E|[Hh E]]; [done|].
  assert (currentHeight s1 = currentHeight s) as Hcur.
  { unfold post_blocks in H.
    destruct (validate s b); [by simplify_eq|].
    destruct (write_block b c) as [[u|] c2]; [|by simplify_eq].
    cbv zeta in H.
    destruct (persist_balances _ c2) as [[u'|] c3]; simplify_eq; done. }
  unfold post_blocks.
  destruct (validate s1 b') as [r0|] eqn:Ev.
  { cbn [fst snd tables]. split; [by apply validate_rejects in Ev|done]. }
  apply validate_None in Ev as (Hh' & _).
  assert (blk_height b' = blk_height b) as Eh.
  { unfold height_rule in Hh, Hh'. rewrite Hcur in Hh'.
    destruct Hh as [[? ?]|[? ?]], Hh' as [[? ?]|[? ?]]; congruence. }
  assert (insert_block (blk_id b') (blk_height b') (tables c1) = None) as Ei.
  { unfold insert_block. rewrite (bool_decide_false (map_Forall _ _)).
    - by rewrite andb_false_r.
    - intros Hu. apply (Hu (blk_id b) (blk_height b)); [|done].
      rewrite E. apply lookup_insert_eq. }
  destruct (query_refused (insert_block (blk_id b') (blk_height b'))
              {| tables := tables c1; fuse := f' |} Ei) as (c' & Eq & Et).
  unfold write_block. rewrite bind_unfold, Eq. done.
Qed.

(** X23 (witness). *)
Lemma failed_block_wedges_witness :
  let sd := ledger [block1; block2; block3] in
  let b := mk_block 4 [mk_tx "tx4" [] [("a", 1073741824); ("a", 1073741824)]] in
  let o1 := post_blocks sd.1 (connect sd.2) b in
  let o := post_blocks o1.1.2 {| tables := tables o1.2; fuse := None |}
             (mk_block 4 [mk_tx "tx5" [] [("a", 1)]]) in
  accepted o.1.1 = false /\ o.1.2 = o1.1.2 /\ tables o.2 = tables o1.2.
Proof.
  cbv zeta.
  destruct (post_blocks _ (connect _) _) as [[r s1] c1] eqn:E. cbn [fst snd].
  assert (accepted r = false) as Hrej.
  { change r with (r, s1, c1).1.1. rewrite <- E. by_evaluation. }
  assert (t_blocks (tables c1)
          ≠ t_blocks (tables (connect (ledger [block1; block2; block3]).2)))
    as Hne.
  { change c1 with (r, s1, c1).2. rewrite <- E. by_evaluation. }
  exact (failed_block_wedges _ _ _ _ _ _ E Hrej Hne _ None).
Defined.

(** ** A failed rollback can be run again *)

Lemma rollback_tables_same_rows k d d' :
  same_rows d d' -> rollback_tables k d = rollback_tables k d'.
Proof.
  destruct d, d'. unfold same_rows. simpl. intros (-> & -> & -> & ->). done.
Qed.

Lemma same_rows_refl d : same_rows d d.
Proof. by repeat split. Qed.

Lemma same_rows_trans d1 d2 d3 :
  same_rows d1 d2 -> same_rows d2 d3 -> same_rows d1 d3.
Proof.
  unfold same_rows. intros (? & ? & ? & ?) (? & ? & ? & ?).
  split_and!; congruence.
Qed.

Lemma insert_balances_rows rows acc c r c1 :
  insert_balances rows acc c = (r, c1) -> same_rows (tables c1) (tables c).
Proof.
  revert acc c. induction rows as [|[a v] rows IH]; intros acc c H.
  { simpl in H. rewrite mret_unfold in H. simplify_eq. apply same_rows_refl. }
  cbn [insert_balances] in H. rewrite bind_unfold in H.
  destruct (query (insert_balance a v) c) as [r1 c2] eqn:E1.
  apply query_cases in E1 as [[-> E1]|(u1 & -> & E1)].
  { simplify_eq. rewrite E1. apply same_rows_refl. }
  apply IH in H. eapply same_rows_trans; [exact H|].
  unfold insert_balance in E1. destruct (_ && _) in E1; [|done].
  injection E1 as _ <-. by repeat split.
Qed.

Lemma when_nonempty_cases ids (stmt : DB -> option (unit * DB)) c r c' :
  (forall d, is_Some (stmt d)) ->
  (ids = [] -> forall d, exec stmt d = d) ->
  when_nonempty ids (query stmt) c = (r, c') ->
  (r = None /\ tables c' = tables c)
  \/ (r = Some tt /\ tables c' = exec stmt (tables c)).
Proof.
  intros Htot Hnil. unfold when_nonempty. case_bool_decide as Hl.
  - intros [[-> E]|([] & -> & E)]%query_cases; [by left|right].
    split; [done|]. unfold exec. by rewrite E.
  - rewrite mret_unfold. intros ?; simplify_eq. right. split; [done|].
    rewrite Hnil; [done|]. destruct ids; [done | simpl in Hl; lia].
Qed.

Lemma rollback_store_stage k c r c1 :
  rollback_store k c = (r, c1) ->
  exists j, same_rows (tables c1) (rollback_stage k (tables c) j).
Proof.
  unfold rollback_store. intros H. rewrite bind_unfold in H.
  destruct (query (select_deleted_txs k) c) as [r0 c0] eqn:E0.
  apply query_cases in E0 as [[-> E0]|(ids & -> & E0)].
  { simplify_eq. exists 0%nat. rewrite E0. apply same_rows_refl. }
  unfold select_deleted_txs in E0. injection E0 as Hids E0.
  fold (deleted_tx_ids k (tables c)) in Hids.
  rewrite bind_unfold in H.
  destruct (when_nonempty ids (query (resurrect_outputs ids)) c0) as [r1 c2] eqn:E1.
  apply when_nonempty_cases in E1 as [[-> E1]|[-> E1]];
    [| |unfold resurrect_outputs; eauto|intros ->; apply resurrect_outputs_nil].
  { simplify_eq. exists 0%nat. rewrite E1, <- E0. apply same_rows_refl. }
  rewrite bind_unfold in H.
  destruct (when_nonempty ids (query (delete_outputs ids)) c2) as [r2 c3] eqn:E2.
  apply when_nonempty_cases in E2 as [[-> E2]|[-> E2]];
    [| |unfold delete_outputs; eauto|intros ->; apply delete_outputs_nil].
  { simplify_eq. exists 1%nat. rewrite E2, E1, <- E0. apply same_rows_refl. }
  rewrite bind_unfold in H.
  destruct (query (delete_blocks k) c3) as [r3 c4] eqn:E3.
  apply query_cases in E3 as [[-> E3]|([] & -> & E3)].
  { simplify_eq. exists 2%nat. rewrite E3, E2, E1, <- E0. apply same_rows_refl. }
  assert (tables c4 = exec (delete_blocks k) (tables c3)) as E3'.
  { unfold exec. by rewrite E3. }
  rewrite bind_unfold in H.
  destruct (when_nonempty ids (query (delete_inputs ids)) c4) as [r4 c5] eqn:E4.
  apply when_nonempty_cases in E4 as [[-> E4]|[-> E4]];
    [| |unfold delete_inputs; eauto|intros ->; apply delete_inputs_nil].
  { simplify_eq. exists 3%nat. rewrite E4, E3', E2, E1, <- E0.
    apply same_rows_refl. }
  assert (tables c5 = rollback_stage k (tables c) 4) as E5.
  { rewrite E4, E3', E2, E1, <- E0, <- Hids. done. }
  exists 4%nat. rewrite <- E5. clear E0 E1 E2 E3 E3' E4 E5.
  rewrite bind_unfold in H.
  destruct (query select_unspent_balances c5) as [r5 c6] eqn:E5.
  apply query_cases in E5 as [[-> E5]|(rows & -> & E5)].
  { simplify_eq. rewrite E5. apply same_rows_refl. }
  unfold select_unspent_balances in E5. injection E5 as _ E5.
  rewrite bind_unfold in H.
  destruct (query delete_balances c6) as [r6 c7] eqn:E6.
  apply query_cases in E6 as [[-> E6]|([] & -> & E6)].
  { simplify_eq. rewrite E6, <- E5. apply same_rows_refl. }
  unfold delete_balances in E6. injection E6 as E6.
  apply insert_balances_rows in H. eapply same_rows_trans; [exact H|].
  rewrite <- E6, <- E5. by repeat split.
Qed.

Lemma DB_ext d d' :
  t_blocks d = t_blocks d' -> t_transactions d = t_transactions d' ->
  t_inputs d = t_inputs d' -> t_outputs d = t_outputs d' ->
  t_balances d = t_balances d' -> d = d'.
Proof. destruct d, d'. simpl. by intros -> -> -> -> ->. Qed.

Lemma rollback_tables_ext k d d' :
  t_blocks (rollback_tables k d) = t_blocks (rollback_tables k d') ->
  t_inputs (rollback_tables k d) = t_inputs (rollback_tables k d') ->
  t_outputs (rollback_tables k d) = t_outputs (rollback_tables k d') ->
  t_transactions d = t_transactions d' ->
  rollback_tables k d = rollback_tables k d'.
Proof.
  intros Hb Hi Ho Ht. apply DB_ext; try done.
  - by rewrite !rollback_tables_transactions, Hb, Ht.
  - change (unspent_by_address (t_outputs (rollback_tables k d))
            = unspent_by_address (t_outputs (rollback_tables k d'))).
    by rewrite Ho.
Qed.

Lemma deleted_tx_ids_ext k d d' :
  t_blocks d' = t_blocks d -> t_transactions d' = t_transactions d ->
  deleted_tx_ids k d' = deleted_tx_ids k d.
Proof.
  intros Hb Ht. unfold deleted_tx_ids. rewrite Ht. do 2 f_equal.
  apply map_filter_ext. intros x bid _. unfold doomed_block. by rewrite Hb.
Qed.

Lemma deleted_tx_ids_done k d d' :
  t_blocks d' = t_blocks (rollback_tables k d) ->
  t_transactions d' = t_transactions (rollback_tables k d) ->
  deleted_tx_ids k d' = [].
Proof.
  intros Hb Ht. unfold deleted_tx_ids.
  rewrite (proj2 (map_empty_filter _ _)); [by rewrite map_to_list_empty|].
  intros x bid Hx Hd. simpl in Hd. unfold doomed_block in Hd.
  rewrite Ht, rollback_tables_transactions in Hx.
  apply map_lookup_filter_Some in Hx as [_ [h Hh]]. cbn [snd] in Hh.
  rewrite Hb, Hh in Hd. rewrite rollback_tables_blocks in Hh.
  apply map_lookup_filter_Some in Hh as [_ Hh]. simpl in Hh. lia.
Qed.

Lemma not_deleted_kept k d x :
  is_Some (t_transactions (rollback_tables k d) !! x) -> x ∉ deleted_tx_ids k d.
Proof.
  intros [bid Hx] (bid' & Hx' & Hd)%elem_of_deleted_tx_ids.
  rewrite rollback_tables_transactions in Hx.
  apply map_lookup_filter_Some in Hx as [Hx [h Hh]]. cbn [snd] in Hh.
  assert (bid' = bid) as -> by congruence.
  rewrite rollback_tables_blocks in Hh.
  apply map_lookup_filter_Some in Hh as [Hh Hk]. simpl in Hk.
  unfold doomed_block in Hd. rewrite Hh in Hd. lia.
Qed.

Lemma rollback_tables_early k d d' :
  t_blocks d' = t_blocks d -> t_transactions d' = t_transactions d ->
  t_inputs d' = t_inputs d ->
  (t_outputs d'
   = map_imap (fun key r =>
        Some (if spent_by (t_inputs d) (deleted_tx_ids k d) key
              then set_spent false r else r)) (t_outputs d)
   \/ t_outputs d' = t_outputs (rollback_tables k d)) ->
  rollback_tables k d' = rollback_tables k d.
Proof.
  intros Hb Ht Hi Ho.
  pose proof (deleted_tx_ids_ext k d d' Hb Ht) as Hids.
  apply rollback_tables_ext; try done.
  - by rewrite !rollback_tables_blocks, Hb.
  - by rewrite !rollback_tables_inputs, !rollback_tables_transactions,
      !rollback_tables_blocks, Hids, Hb, Ht, Hi.
  - rewrite (rollback_tables_outputs k d'), Hids, Hi.
    set (ids := deleted_tx_ids k d) in *.
    destruct Ho as [-> | ->].
    + rewrite rollback_tables_outputs. fold ids.
      f_equal. apply map_eq. intros key. rewrite !map_lookup_imap.
      destruct (t_outputs d !! key) as [row|]; [|done]. simpl.
      destruct (spent_by (t_inputs d) ids key); done.
    + rewrite rollback_tables_outputs. fold ids.
      apply map_eq. intros key. apply option_eq. intros row.
      rewrite !map_lookup_filter_Some, !map_lookup_imap. cbn [fst snd].
      split.
      * intros [Hl Hk]. split; [|done].
        destruct (filter _ _ !! key) as [row1|] eqn:E1; [|done]. simpl in Hl.
        apply map_lookup_filter_Some in E1 as [E1 _].
        rewrite map_lookup_imap in E1.
        destruct (t_outputs d !! key) as [row0|]; [|done]. simpl in *.
        injection E1 as <-. rewrite <- Hl. f_equal.
        destruct (spent_by (t_inputs d) ids key); done.
      * intros [Hl Hk]. split; [|done].
        rewrite (proj2 (map_lookup_filter_Some _ _ key row)).
        -- simpl. f_equal.
           destruct (t_outputs d !! key) as [row0|]; [|done]. simpl in *.
           injection Hl as <-. destruct (spent_by (t_inputs d) ids key); done.
        -- by rewrite map_lookup_imap.
Qed.

(** The statements of a rollback that have gone through need not be undone:
    run from the tables that the first [j] of them leave, the rollback
    leaves the tables it leaves from the start. *)
Lemma rollback_tables_stage k d j :
  rollback_tables k (rollback_stage k d j) = rollback_tables k d.
Proof.
  destruct j as [|[|[|j]]]; [done| | |].
  - apply rollback_tables_early; try done. by left.
  - apply rollback_tables_early; try done. by right.
  - (* after the deletion of the blocks, and of the inputs *)
    assert (t_blocks (rollback_stage k d (S (S (S j))))
            = t_blocks (rollback_tables k d)) as Hb by (by destruct j).
    assert (t_transactions (rollback_stage k d (S (S (S j))))
            = t_transactions (rollback_tables k d)) as Ht by (by destruct j).
    assert (t_outputs (rollback_stage k d (S (S (S j))))
            = t_outputs (rollback_tables k d)) as Ho by (by destruct j).
    assert (t_inputs (rollback_stage k d (S (S (S j))))
            = cascade_inputs (t_transactions (rollback_tables k d)) (t_inputs d)
            \/ t_inputs (rollback_stage k d (S (S (S j))))
               = t_inputs (rollback_tables k d)) as Hi
      by (destruct j; [by left|by right]).
    set (d' := rollback_stage k d (S (S (S j)))) in *.
    pose proof (deleted_tx_ids_done k d d' Hb Ht) as Hids.
    assert (t_blocks (rollback_tables k d') = t_blocks (rollback_tables k d)) as Hb'.
    { rewrite (rollback_tables_blocks k d'), Hb, rollback_tables_blocks.
      apply map_filter_filter_l. done. }
    assert (t_transactions (rollback_tables k d')
            = t_transactions (rollback_tables k d)) as Ht'.
    { rewrite (rollback_tables_transactions k d'), Hb', Ht.
      rewrite (rollback_tables_transactions k d).
      unfold cascade_transactions. apply map_filter_filter_l. done. }
    apply DB_ext; try done.
    + rewrite (rollback_tables_inputs k d'), Hids, Ht'.
      rewrite (filter_all (fun r => in_tx_id r ∉ []))
        by (apply Forall_forall; intros; apply not_elem_of_nil).
      unfold cascade_inputs at 1. destruct Hi as [-> | ->].
      * rewrite rollback_tables_inputs. unfold cascade_inputs.
        rewrite (filter_all _ (filter _ _))
          by (apply Forall_forall; by intros r [? _]%list_elem_of_filter).
        symmetry. apply filter_all. apply Forall_forall.
        intros r [Hr _]%list_elem_of_filter. by apply not_deleted_kept.
      * apply filter_all. apply Forall_forall. intros r.
        rewrite rollback_tables_inputs. unfold cascade_inputs.
        by intros [_ [? _]%list_elem_of_filter]%list_elem_of_filter.
    + rewrite (rollback_tables_outputs k d'), Hids, Ho.
      set (O := t_outputs (rollback_tables k d)).
      apply map_eq. intros key. apply option_eq. intros row.
      rewrite map_lookup_filter_Some, map_lookup_imap.
      destruct (O !! key) as [row0|]; simpl.
      * rewrite spent_by_nil. split; [by intros [? _]|].
        intros ?. split; [done|]. apply not_elem_of_nil.
      * split; [by intros [? _]|done].
    + change (unspent_by_address (t_outputs (rollback_tables k d'))
              = unspent_by_address (t_outputs (rollback_tables k d))).
      f_equal.
      rewrite (rollback_tables_outputs k d'), Hids, Ho.
      set (O := t_outputs (rollback_tables k d)).
      apply map_eq. intros key. apply option_eq. intros row.
      rewrite map_lookup_filter_Some, map_lookup_imap.
      destruct (O !! key) as [row0|]; simpl.
      * rewrite spent_by_nil. split; [by intros [? _]|].
        intros ?. split; [done|]. apply not_elem_of_nil.
      * split; [by intros [? _]|done].
Qed.

(** X24.  A failed rollback can be run again: after any history of accepted
    operations, when a rollback to a height [k] of the chain fails, at
    whatever statement, and when the unspent outputs of every address, in
    the rows that the first [k] blocks of the journal write, add up to a
    32-bit [INTEGER], the same rollback on a healthy connection succeeds
    from the tables that the failure left.  It leaves the tables that the
    rollback would have left had it not failed, keeps the first [k] blocks
    of the journal, and leaves a state that a history of accepted
    operations gives: the statements that had gone through need not be
    undone. *)
Theorem failed_rollback_retry (s s1 : AppState) (d : DB) (f : option nat)
    (k : Z) (r : Reply) (c1 : Conn) :
  reachable s d -> 1 <= k <= currentHeight s ->
  post_rollback s {| tables := d; fuse := f |} (of_int k) = (r, s1, c1) ->
  accepted r = false ->
  map_Forall (fun _ v => int4 v = true)
    (unspent_by_address (journal_outputs (take (Z.to_nat k) (blocks s)))) ->
  exists s2 c2,
    post_rollback s1 (connect (tables c1)) (of_int k)
    = (RollbackSuccessful k, s2, c2)
    /\ reachable s2 (tables c2)
    /\ tables c2 = rollback_tables k d
    /\ blocks s2 = take (Z.to_nat k) (blocks s)
    /\ currentHeight s2 = k.
Proof.
  intros Hr Hk H Hrej Hint.
  pose proof (reachable_consistent _ _ Hr) as Hc.
  assert (int4 k = true) as Hk4.
  { apply (int4_le _ (currentHeight s)); [lia | apply Hc]. }
  destruct (of_int_guards _ _ Hk) as (Hf & Hlt & Hgt).
  (* the failure: in the statements, with the in-memory state untouched *)
  unfold post_rollback in H.
  rewrite Hf, Hlt, Hgt, (int4_param_of_int _ Hk4) in H. cbn [negb orb] in H.
  destruct (rollback_store k _) as [[nb|] c'] eqn:Es;
    [injection H as <- _ _; done|].
  injection H as _ <- <-.
  apply rollback_store_stage in Es as [j Hj]. cbn [tables] in Hj.
  assert (rollback_tables k (tables c') = rollback_tables k d) as Hd1.
  { rewrite (rollback_tables_same_rows k _ _ Hj). apply rollback_tables_stage. }
  (* the same rollback from the tables before the failure *)
  destruct (rollback_runs s d k Hc Hk Hint) as (s0 & c0 & E0).
  pose proof (reachable_step (Rollback (of_int k)) None s d _ s0 c0 Hr E0 eq_refl)
    as Hr0.
  pose proof E0 as E0'.
  apply post_rollback_accepted in E0' as (k0 & _ & _ & Ek0 & Ht0 & Hs0 & Hint0);
    [|done].
  injection Ek0 as <-. cbn [tables connect] in Ht0, Hs0, Hint0.
  (* and from the tables it left *)
  destruct (rollback_store_ok k (tables c')) as (nb & c2 & Es).
  { rewrite Hd1. exact Hint0. }
  assert (exists s2, post_rollback s (connect (tables c')) (of_int k)
                = (RollbackSuccessful k, s2, c2)) as [s2 E].
  { unfold post_rollback.
    rewrite Hf, Hlt, Hgt, (int4_param_of_int _ Hk4), Es. eauto. }
  exists s2, c2. split; [done|].
  pose proof E as E'.
  apply post_rollback_accepted in E' as (k2 & _ & _ & Ek2 & Ht2 & Hs2 & _);
    [|done].
  injection Ek2 as <-. cbn [tables connect] in Ht2, Hs2.
  assert (s2 = s0) as ->.
  { rewrite Hs2, Hs0. by rewrite Hd1. }
  assert (tables c2 = tables c0) as Htab by by rewrite Ht2, Ht0, Hd1.
  rewrite Htab. split; [done|]. split; [done|].
  rewrite Hs0. cbn [blocks currentHeight]. split; [|done].
  rewrite (filter_heights _ 1) by apply Hc. f_equal. lia.
Qed.

(** X24 (witness): the connection fails at the fourth statement. *)
Lemma failed_rollback_retry_witness :
  let sd := ledger [block1; block2; block3] in
  let o := post_rollback sd.1 {| tables := sd.2; fuse := Some 3%nat |} (of_int 2) in
  exists s2 c2,
    post_rollback o.1.2 (connect (tables o.2)) (of_int 2)
    = (RollbackSuccessful 2, s2, c2)
    /\ reachable s2 (tables c2)
    /\ tables c2 = rollback_tables 2 sd.2
    /\ blocks s2 = take (Z.to_nat 2) (blocks sd.1)
    /\ currentHeight s2 = 2.
Proof.
  cbv zeta.
  destruct (post_rollback _ {| tables := _; fuse := Some 3%nat |} _)
    as [[r s1] c1] eqn:E. cbn [fst snd].
  assert (accepted r = false) as Hrej.
  { change r with (r, s1, c1).1.1. rewrite <- E. by_evaluation. }
  assert (reachable (ledger [block1; block2; block3]).1
            (ledger [block1; block2; block3]).2) as Hr.
  { apply ledger_reachable. by_evaluation. }
  assert (1 <= 2 <= currentHeight (ledger [block1; block2; block3]).1) as Hk.
  { by_evaluation. }
  assert (map_Forall (fun _ v => int4 v = true)
            (unspent_by_address
               (journal_outputs
                  (take (Z.to_nat 2) (blocks (ledger [block1; block2; block3]).1)))))
    as Hint.
  { by_evaluation. }
  exact (failed_rollback_retry _ _ _ _ 2 _ _ Hr Hk E Hrej Hint).
Defined.

(** ** Blocks without transactions *)

(** The entries of [state.balances] that the store holds go through the
    upserts again. *)
Lemma stored_persistable bal d : stored bal d -> persistable bal.
Proof.
  intros H a v Ha. destruct (H a v Ha) as (? & z & Hz & _). by rewrite Hz.
Qed.

(** The balance upserts of a block that leaves [state.balances] as it is
    leave the [balances] table as it is. *)
Lemma balances_table_unchanged s d f b h s' c' :
  consistent s d ->
  post_blocks s {| tables := d; fuse := f |} b = (BlockAccepted h, s', c') ->
  balances s' = balances s ->
  t_balances (tables c') = t_balances d.
Proof.
  intros Hc E Hb.
  apply post_blocks_accepted in E as (_ & _ & _ & _ & _ & _ & Hst & Hrest).
  rewrite Hb in Hst, Hrest. apply map_eq. intros a.
  destruct (balances s !! a) as [v|] eqn:Ea; [|by apply Hrest].
  destruct (Hst a v Ea) as (_ & z' & Hz' & ->).
  destruct (cons_balances _ _ Hc a v Ea) as (_ & z & Hz & ->). congruence.
Qed.

Lemma empty_block_hash b :
  blk_transactions b = [] -> expected_id b = sha256_hex (pretty (blk_height b)).
Proof.
  intros Htxs. unfold expected_id, hash_input. rewrite Htxs. simpl.
  by rewrite string_app_nil_r.
Qed.

Lemma empty_block_state s b :
  blk_transactions b = [] ->
  state_after_block s b
  = {| blocks := blocks s ++ [b]; currentHeight := blk_height b;
       balances := balances s; utxos := utxos s |}.
Proof. intros Htxs. unfold state_after_block, apply_block. by rewrite Htxs. Qed.

(** X26.  A block without transactions: after any history of accepted
    operations, a block with an empty transaction list, the next height,
    fitting a 32-bit [INTEGER], and the SHA-256 digest of the decimal
    height as its id is accepted on a healthy connection, provided no block
    of the journal has that id; it leaves the UTXO map, the balances and the
    [outputs] and [balances] tables as they are, appends the block and sets
    [currentHeight] to its height. *)
Theorem empty_block_accepted (s : AppState) (d : DB) (b : Block) :
  reachable s d ->
  blk_transactions b = [] ->
  height_rule s b ->
  blk_id b = sha256_hex (pretty (blk_height b)) ->
  int4 (blk_height b) = true ->
  blk_id b ∉ map blk_id (blocks s) ->
  exists c',
    post_blocks s (connect d) b
    = (BlockAccepted (blk_height b),
       {| blocks := blocks s ++ [b]; currentHeight := blk_height b;
          balances := balances s; utxos := utxos s |}, c')
    /\ t_outputs (tables c') = t_outputs d
    /\ t_balances (tables c') = t_balances d.
Proof.
  intros Hr Htxs Hh Hid H4 Hnew.
  pose proof (reachable_consistent _ _ Hr) as Hc.
  destruct (post_blocks_accepts s d b) as [c' E]; try done.
  - rewrite Htxs. constructor.
  - by rewrite empty_block_hash.
  - apply (writable_on_consistent s d b Hc Hh). rewrite Htxs.
    split_and!; try done; constructor.
  - rewrite Htxs. constructor.
  - rewrite Htxs. constructor.
  - unfold apply_block. rewrite Htxs. apply stored_persistable with d, Hc.
  - exists c'. rewrite (empty_block_state s b Htxs) in E. split; [done|]. split.
    + pose proof E as E'.
      apply post_blocks_accepted in E' as (_ & _ & _ & _ & (_ & _ & _ & Ho) & _).
      rewrite Ho. cbn [tables connect tables_after_block t_outputs].
      unfold outputs_after_block. by rewrite Htxs.
    + by apply (balances_table_unchanged s d None b _ _ c' Hc E).
Qed.

(** X26 (witness). *)
Lemma empty_block_accepted_witness :
  let sd := ledger [block1; block2; block3] in
  let b := mk_block 4 [] in
  exists c',
    post_blocks sd.1 (connect sd.2) b
    = (BlockAccepted (blk_height b),
       {| blocks := blocks sd.1 ++ [b]; currentHeight := blk_height b;
          balances := balances sd.1; utxos := utxos sd.1 |}, c')
    /\ t_outputs (tables c') = t_outputs sd.2
    /\ t_balances (tables c') = t_balances sd.2.
Proof.
  cbv zeta. apply empty_block_accepted.
  - apply ledger_reachable. by_evaluation.
  - by_evaluation.
  - by_evaluation.
  - by_evaluation.
  - by_evaluation.
  - by_evaluation.
Defined.

(** C9 (as amended).  After any history of accepted operations, a block
    with an empty transaction list is accepted on a healthy connection if
    and only if its height is the next one (1 on an empty chain), its id is
    the SHA-256 digest of the decimal height, its height fits a 32-bit
    [INTEGER] and its id is not the id of a block of the journal.
    Accepting it leaves the UTXO map and the balance map unchanged, appends
    it to the journal and sets [currentHeight] to its height. *)
Theorem empty_block_acceptance (s : AppState) (d : DB) (b : Block) :
  reachable s d ->
  blk_transactions b = [] ->
  let o := post_blocks s (connect d) b in
  (accepted o.1.1 = true
   <-> height_rule s b
       /\ blk_id b = sha256_hex (pretty (blk_height b))
       /\ int4 (blk_height b) = true
       /\ blk_id b ∉ map blk_id (blocks s))
  /\ (accepted o.1.1 = true ->
      o.1.1 = BlockAccepted (blk_height b)
      /\ utxos o.1.2 = utxos s
      /\ balances o.1.2 = balances s
      /\ blocks o.1.2 = blocks s ++ [b]
      /\ currentHeight o.1.2 = blk_height b).
Proof.
  intros Hr Htxs. cbv zeta.
  pose proof (reachable_consistent _ _ Hr) as Hc.
  destruct (post_blocks s (connect d) b) as [[r s'] c'] eqn:E. cbn [fst snd].
  assert (accepted r = true ->
          r = BlockAccepted (blk_height b)
          /\ s' = state_after_block s b
          /\ height_rule s b /\ blk_id b = expected_id b
          /\ block_writable d b) as Hacc.
  { intros Ha. pose proof (post_blocks_reply _ _ _ _ _ _ E Ha) as ->.
    apply post_blocks_accepted in E as (Hv & _ & -> & Hw & _).
    apply validate_None in Hv as (Hh & _ & Hid). done. }
  split; [split|].
  - intros Ha. destruct (Hacc Ha) as (_ & _ & Hh & Hid & Hw).
    rewrite (empty_block_hash b Htxs) in Hid.
    apply (writable_on_consistent s d b Hc Hh) in Hw as (? & ? & _). done.
  - intros (Hh & Hid & H4 & Hnew).
    destruct (post_blocks_accepts s d b) as [c1 E1]; try done.
    + rewrite Htxs. constructor.
    + by rewrite empty_block_hash.
    + apply (writable_on_consistent s d b Hc Hh). rewrite Htxs.
      split_and!; try done; constructor.
    + rewrite Htxs. constructor.
    + rewrite Htxs. constructor.
    + unfold apply_block. rewrite Htxs. apply stored_persistable with d, Hc.
    + rewrite E1 in E. by simplify_eq.
  - intros Ha. destruct (Hacc Ha) as (-> & -> & _).
    rewrite (empty_block_state s b Htxs). done.
Qed.

(** C9 (witness). *)
Lemma empty_block_acceptance_witness :
  let sd := ledger [block1; block2; block3] in
  let b := mk_block 4 [] in
  let o := post_blocks sd.1 (connect sd.2) b in
  (accepted o.1.1 = true
   <-> height_rule sd.1 b
       /\ blk_id b = sha256_hex (pretty (blk_height b))
       /\ int4 (blk_height b) = true
       /\ blk_id b ∉ map blk_id (blocks sd.1))
  /\ (accepted o.1.1 = true ->
      o.1.1 = BlockAccepted (blk_height b)
      /\ utxos o.1.2 = utxos sd.1
      /\ balances o.1.2 = balances sd.1
      /\ blocks o.1.2 = blocks sd.1 ++ [b]
      /\ currentHeight o.1.2 = blk_height b).
Proof.
  cbv zeta. apply empty_block_acceptance.
  - apply ledger_reachable. by_evaluation.
  - by_evaluation.
Defined.

(** C9 (counterexample).  The id of a block without transactions may be
    taken: the first block below has the one transaction ["0"], so that its
    id is the digest of ["10"]; nine blocks later the block without
    transactions of height 10 has that id too, and the primary key of
    [blocks] refuses it. *)
Lemma empty_block_id_taken :
  let first := mk_block 1 [mk_tx "0" [] [("a", 1)]] in
  let empties := map (fun h => mk_block h []) (seqZ 2 8) in
  let tenth := mk_block 10 [] in
  let sd := ledger (first :: empties) in
  blocks sd.1 = first :: empties
  /\ currentHeight sd.1 = 9
  /\ blk_transactions tenth = []
  /\ height_rule sd.1 tenth
  /\ blk_id tenth = sha256_hex (pretty (blk_height tenth))
  /\ blk_id tenth = blk_id first
  /\ (post_blocks sd.1 (connect sd.2) tenth).1.1 = DatabaseError.
Proof. cbv zeta. split_and!; by_evaluation. Qed.

(** ** Balance derivation without rollbacks *)

Lemma or_zero_num n : or_zero (Own (VNum n)) = Own (VNum n).
Proof. by destruct n. Qed.

(** What [balances[a] || 0] reads under the invariant, for an ordinary
    address: the sum of its unspent outputs. *)
Lemma derived_read u bal a :
  derived (u, bal) -> ordinary a ->
  or_zero (obj_get bal a) = Own (VNum (sum_for a u)).
Proof.
  intros Hd [Hp Hf]. specialize (Hd a). cbn [fst snd] in Hd. unfold obj_get.
  rewrite bool_decide_false by done.
  destruct (bal !! a) as [v|]; [subst v; apply or_zero_num|].
  rewrite bool_decide_false by done. simpl. by rewrite Hd.
Qed.

Lemma derived_update (u u' : gmap string Output) bal a n :
  derived (u, bal) -> ordinary a ->
  sum_for a u' = n ->
  (forall a', a' ≠ a -> sum_for a' u' = sum_for a' u) ->
  derived (u', obj_set bal a (VNum n)).
Proof.
  intros Hd [Hp _] Hn Hrest a'. cbn [fst snd]. rewrite obj_set_lookup.
  rewrite bool_decide_false by done. case_decide as Ha.
  - subst a'. by rewrite Hn.
  - rewrite Hrest by done. apply (Hd a').
Qed.

Lemma derived_spend_input m i :
  derived m -> ordinary_utxos m.1 ->
  derived (spend_input m i) /\ ordinary_utxos (spend_input m i).1.
Proof.
  destruct m as [u bal]. intros Hd Ho. unfold spend_input. cbn [fst snd] in *.
  destruct (u !! utxo_key (txId i) (index i)) as [o|] eqn:E.
  - pose proof (Ho _ _ E) as Ha. simpl in Ha. split.
    + unfold debit. rewrite (derived_read u bal _ Hd Ha). cbn [js_sub].
      apply (derived_update u); try done.
      * rewrite (sum_for_delete _ _ _ _ E). by rewrite bool_decide_true.
      * intros a' Hne. rewrite (sum_for_delete _ _ _ _ E).
        rewrite bool_decide_false by done. lia.
    + by apply map_Forall_delete.
  - by rewrite delete_id.
Qed.

Lemma derived_add_output txid m idx o :
  m.1 !! utxo_key txid (Z.of_nat idx) = None ->
  ordinary (address o) ->
  derived m -> ordinary_utxos m.1 ->
  derived (add_output txid m idx o) /\ ordinary_utxos (add_output txid m idx o).1.
Proof.
  destruct m as [u bal]. intros Hk Ha Hd Ho. unfold add_output.
  cbn [fst snd] in *. split.
  - unfold credit. rewrite (derived_read u bal _ Hd Ha). cbn [js_add].
    apply (derived_update u); try done.
    + rewrite (sum_for_insert _ _ _ _ Hk). by rewrite bool_decide_true.
    + intros a' Hne. rewrite (sum_for_insert _ _ _ _ Hk).
      rewrite bool_decide_false by done. lia.
  - by apply map_Forall_insert_2.
Qed.

Lemma agree_inputs ins m outs :
  m.1 = utxo_view outs -> derived m -> ordinary_utxos m.1 ->
  (fold_left spend_input ins m).1 = utxo_view (fold_left spend_row ins outs)
  /\ derived (fold_left spend_input ins m)
  /\ ordinary_utxos (fold_left spend_input ins m).1.
Proof.
  revert m outs. induction ins as [|i ins IH]; intros m outs Hv Hd Ho; [done|].
  simpl. destruct (derived_spend_input m i Hd Ho) as [Hd' Ho'].
  apply IH; [|done..].
  unfold spend_row. rewrite utxo_view_spend. simpl. by rewrite Hv.
Qed.

Lemma agree_outputs tx idx os m outs :
  rows_fresh tx idx os outs ->
  Forall (fun o => ordinary (address o)) os ->
  m.1 = utxo_view outs -> derived m -> ordinary_utxos m.1 ->
  (add_outputs tx idx os m).1 = utxo_view (add_rows tx idx os outs)
  /\ derived (add_outputs tx idx os m)
  /\ ordinary_utxos (add_outputs tx idx os m).1.
Proof.
  revert idx m outs.
  induction os as [|o os IH]; intros idx m outs Hf Hord Hv Hd Ho; [done|].
  destruct Hf as [Hk Hf]. apply Forall_cons in Hord as [Ha Hord]. simpl.
  destruct (derived_add_output tx m idx o) as [Hd' Ho']; try done.
  { rewrite Hv. change (utxo_key tx (Z.of_nat idx)) with (row_key (tx, Z.of_nat idx)).
    by rewrite utxo_view_lookup, Hk. }
  apply IH; try done.
  unfold unspent_row. rewrite utxo_view_insert. simpl. by rewrite Hv.
Qed.

Lemma agree_txs txs m outs :
  txs_fresh txs outs ->
  Forall (fun t => Forall (fun o => ordinary (address o)) (tx_outputs t)) txs ->
  m.1 = utxo_view outs -> derived m -> ordinary_utxos m.1 ->
  derived (fold_left apply_transaction txs m)
  /\ ordinary_utxos (fold_left apply_transaction txs m).1.
Proof.
  revert m outs.
  induction txs as [|t txs IH]; intros m outs Hf Hord Hv Hd Ho; [done|].
  destruct Hf as [Hr Hf]. apply Forall_cons in Hord as [Ht Hord]. simpl.
  destruct (agree_inputs (tx_inputs t) m outs Hv Hd Ho) as (Hv1 & Hd1 & Ho1).
  destruct (agree_outputs _ _ _ _ _ Hr Ht Hv1 Hd1 Ho1) as (Hv2 & Hd2 & Ho2).
  by apply (IH _ (outputs_after_tx outs t)).
Qed.

Lemma debit_keeps bal a n a' :
  is_Some (bal !! a') -> is_Some (debit bal a n !! a').
Proof.
  intros H. unfold debit. rewrite obj_set_lookup.
  case_bool_decide; [done|]. by case_decide.
Qed.

Lemma credit_keeps bal a n a' :
  is_Some (bal !! a') -> is_Some (credit bal a n !! a').
Proof.
  intros H. unfold credit. rewrite obj_set_lookup.
  case_bool_decide; [done|]. by case_decide.
Qed.

(** A block removes no entry of [state.balances]. *)
Lemma apply_block_keeps m b a :
  is_Some (m.2 !! a) -> is_Some ((apply_block m b).2 !! a).
Proof.
  unfold apply_block. revert m.
  induction (blk_transactions b) as [|t ts IH]; intros m H; [done|].
  simpl. apply IH. unfold apply_transaction.
  assert (is_Some ((fold_left spend_input (tx_inputs t) m).2 !! a)) as H'.
  { revert m H. induction (tx_inputs t) as [|i rest IHi]; intros m H; [done|].
    simpl. apply IHi. unfold spend_input. simpl.
    destruct (m.1 !! _); [by apply debit_keeps | done]. }
  revert H'. generalize (fold_left spend_input (tx_inputs t) m). generalize 0%nat.
  induction (tx_outputs t) as [|o os IHo]; intros idx m' H'; [done|].
  simpl. apply IHo. simpl. by apply credit_keeps.
Qed.

Lemma mirrored_block s d b s' c' :
  reachable s d -> mirrored s d -> ordinary_block b ->
  post_blocks s (connect d) b = (BlockAccepted (blk_height b), s', c') ->
  mirrored s' (tables c').
Proof.
  intros Hr [Hd Ho Hm] Hord E.
  pose proof (reachable_consistent _ _ Hr) as Hc.
  apply post_blocks_accepted in E as (_ & _ & -> & Hw & _ & _ & _ & Hrest).
  destruct Hw as (_ & _ & _ & _ & _ & Hfresh).
  destruct (agree_txs (blk_transactions b) (utxos s, balances s) (t_outputs d))
    as [Hd' Ho']; try done.
  { apply Hc. }
  split; cbn [utxos balances] in *; [done..|].
  intros a Ha. rewrite (Hrest a Ha). apply Hm.
  apply eq_None_not_Some. intros Hs.
  apply (apply_block_keeps (utxos s, balances s) b) in Hs.
  rewrite Ha in Hs. by destruct Hs.
Qed.

Lemma mirrored_submit_all bs s d s' d' :
  reachable s d -> mirrored s d -> Forall ordinary_block bs ->
  submit_all bs s d = Some (s', d') -> mirrored s' d'.
Proof.
  revert s d. induction bs as [|b bs IH]; intros s d Hr Hm Hord H; simpl in H.
  { by simplify_eq. }
  apply Forall_cons in Hord as [Hb Hord].
  destruct (post_blocks s (connect d) b) as [[r s1] c1] eqn:E.
  destruct r; try done.
  pose proof (reachable_step (SubmitBlock b) None s d _ _ _ Hr E eq_refl) as Hr1.
  pose proof (post_blocks_reply _ _ _ _ _ _ E eq_refl) as Eh.
  injection Eh as ->.
  apply (IH s1 (tables c1)); try done.
  by apply (mirrored_block s d b).
Qed.

Lemma mirrored_init : mirrored init_state empty_db.
Proof.
  split; simpl; [|apply map_Forall_empty|done].
  intros a. simpl. by rewrite sum_for_empty.
Qed.

(** X1.  Balance derivation without rollbacks: when blocks whose outputs
    all pay ordinary addresses (not [__proto__], not the name of a function
    of [Object.prototype]) have been accepted in turn from the empty
    service, every entry of [state.balances] is the number that the values
    of the outputs of [state.utxos] held by the address add up to, and an
    address without an entry holds no value. *)
Theorem balance_derivation (bs : list Block) (s : AppState) (d : DB) :
  submit_all bs init_state empty_db = Some (s, d) ->
  Forall ordinary_block bs ->
  forall a, match balances s !! a with
       | Some v => v = VNum (sum_for a (utxos s))
       | None => sum_for a (utxos s) = 0
       end.
Proof.
  intros H Hord.
  pose proof (mirrored_submit_all _ _ _ _ _ reachable_init mirrored_init Hord H)
    as Hm.
  apply (mirror_derived _ _ Hm).
Qed.

(** X1 (witness). *)
Lemma balance_derivation_witness :
  let sd := ledger [block1; block2; block3] in
  match balances sd.1 !! "addr2" with
  | Some v => v = VNum (sum_for "addr2" (utxos sd.1))
  | None => sum_for "addr2" (utxos sd.1) = 0
  end.
Proof.
  cbv zeta.
  assert (submit_all [block1; block2; block3] init_state empty_db
          = Some ((ledger [block1; block2; block3]).1,
                  (ledger [block1; block2; block3]).2)) as Hrun.
  { by_evaluation. }
  assert (Forall ordinary_block [block1; block2; block3]) as Hord.
  { by_evaluation. }
  exact (balance_derivation [block1; block2; block3] _ _ Hrun Hord "addr2").
Defined.

(** X9.  The balance query without rollbacks: when blocks whose outputs all
    pay ordinary addresses have been accepted in turn from the empty
    service, [GET /balance/:address] answers, for every address without
    NUL, the sum of the values of the unspent outputs of the address in the
    UTXO map, 0 for an address that has none; it fails only when the
    connection does. *)
Theorem balance_query (bs : list Block) (s : AppState) (d : DB)
    (f : option nat) (a : string) :
  submit_all bs init_state empty_db = Some (s, d) ->
  Forall ordinary_block bs ->
  text_ok a = true ->
  get_balance {| tables := d; fuse := f |} a
  = match f with
    | Some O => None
    | _ => Some (sum_for a (utxos s))
    end.
Proof.
  intros H Hord Ha.
  pose proof (mirrored_submit_all _ _ _ _ _ reachable_init mirrored_init Hord H)
    as [Hd _ Hm].
  pose proof (reachable_consistent _ _
                (submit_all_reachable _ _ _ _ _ reachable_init H)) as Hc.
  assert (default 0 (t_balances d !! a) = sum_for a (utxos s)) as Hrow.
  { specialize (Hd a). cbn [fst snd] in Hd.
    destruct (balances s !! a) as [v|] eqn:Ea.
    - destruct (cons_balances _ _ Hc a v Ea) as (_ & z & Hz & ->).
      subst v. simpl in Hz. case_match; by simplify_eq.
    - by rewrite (Hm a Ea). }
  unfold get_balance, query, select_balance. cbn [tables fuse]. rewrite Ha.
  destruct f as [[|n]|]; simpl; by rewrite ?Hrow.
Qed.

(** X9 (witness). *)
Lemma balance_query_witness :
  let sd := ledger [block1; block2; block3] in
  get_balance {| tables := sd.2; fuse := None |} "addr1"
  = Some (sum_for "addr1" (utxos sd.1)).
Proof.
  cbv zeta.
  apply (balance_query [block1; block2; block3] _ _ None "addr1").
  - by_evaluation.
  - by_evaluation.
  - by_evaluation.
Defined.
